(** * sqliteViewer: a shallow embedding of the viewer's logic

    Sources embedded here:
    - [plot_utils.h]: [GetQuartile], [RoundToNiceValue], [FormatAxisLabel],
      [ExtractUnit], [PlotSelectedData];
    - [gui_handlers.inline.h]: [OnRunSQLClicked], [OnExportCSVClicked],
      [OnTableSelected], [OnPlotButtonClicked], [OnToggleHints],
      [OnChangeFile];
    - [sqliteViewer.C]: [LoadQueryResultsToTable], [kMaxCanvases],
      [kMaxQueryHistory].

    Conventions of the embedding.
    - The arithmetic on C++ [double]s is embedded twice.
      Module [Plot64] embeds [GetQuartile], [RoundToNiceValue],
      [TMath::MinElement] and [TMath::MaxElement] over IEEE-754 binary64
      (module [B64]): every operation is the exact result rounded to the
      nearest double, ties to even, with the two zeros, the infinities, the
      NaN, overflow and gradual underflow, and with one rounding for each
      operation of the source (no fused multiply-add).  What these
      functions compute is stated there.
      Module [PlotUtils] embeds the whole plot builder with a [double]
      idealised as an exact rational number ([Q]): rounding error,
      infinities and NaN are outside that model, and results are compared
      up to the value of the fraction with [==] ([Qeq]).  It carries the
      statements that do not rest on the arithmetic being exact: which
      branch is taken, what is drawn, which fallback applies, which windows
      are open.
    - Functions of the C++ library and of the GUI toolkit that the repository
      only calls ([std::cbrt], [std::log10], [std::pow], [TString::Atof],
      the ["%g"] conversion of [Form], the SQL engine behind
      [TSQLServer::Query]) are [Variable]s of the sections that use them.
    - A read outside a vector, which is undefined behaviour in C++, is
      [None] (and [Undefined] for a drawing); the event loop stops there. *)

From Stdlib Require Import ZArith QArith Qround Qpower List String Ascii Bool.
From Stdlib Require Import Lia Lqa Permutation Sorted.
From Stdlib Require SpecFloat PrimFloat FloatOps.
Import ListNotations.

Local Open Scope Z_scope.

(** ** Doubles idealised as exact rationals *)

Module Dbl.

Local Open Scope Q_scope.

(** [x < y] on doubles, as a boolean. *)
Definition ltb (x y : Q) : bool := negb (Qle_bool y x).

(** [x <= y] on doubles, as a boolean. *)
Definition leb (x y : Q) : bool := Qle_bool x y.

(** [std::pow(10.0, e)] for an integral exponent [e]. *)
Definition pow10 (e : Z) : Q := 10 ^ e.

(** [log10_up fuel n d k]: while [10 * d <= n], multiply [d] by ten and count
    one more decade. *)
Fixpoint log10_up (fuel : nat) (n d k : Z) : Z :=
  match fuel with
  | O => k
  | S f => if (10 * d <=? n)%Z then log10_up f n (10 * d) (k + 1) else k
  end.

(** [log10_down fuel n d k]: while [n < d], multiply [n] by ten and count one
    decade less. *)
Fixpoint log10_down (fuel : nat) (n d k : Z) : Z :=
  match fuel with
  | O => k
  | S f => if (n <? d)%Z then log10_down f (10 * n) d (k - 1) else k
  end.

(** [std::floor(std::log10(v))] for [v > 0], computed exactly on the fraction
    [n / d]: the decade [k] with [10^k <= v < 10^(k+1)].  The fuel is the
    binary size of the larger side, which bounds the number of decades. *)
Definition floor_log10 (v : Q) : Z :=
  let n := Qnum v in
  let d := Zpos (Qden v) in
  if (d <=? n)%Z
  then log10_up (S (Z.to_nat (Z.log2 n))) n d 0
  else log10_down (S (S (Z.to_nat (Z.log2 d)))) n d 0.

(** [std::floor] and [std::ceil], as integers. *)
Definition floor (x : Q) : Z := Qfloor x.
Definition ceil (x : Q) : Z := Qceiling x.

(** The value of [(int) x] when [x], truncated toward zero, fits an [int]. *)
Definition trunc (x : Q) : Z := Z.quot (Qnum x) (Zpos (Qden x)).

Definition INT_MIN : Z := - 2 ^ 31.
Definition INT_MAX : Z := 2 ^ 31 - 1.

(** [(int) x].  Outside the range of [int] the conversion is undefined in
    C++; [garbage x] stands for whatever value the platform produces.  In
    the binary64 embedding, [B64.to_int], the undefined conversion is
    [None]. *)
Definition to_int (garbage : Q -> Z) (x : Q) : Z :=
  let t := trunc x in
  if ((INT_MIN <=? t) && (t <=? INT_MAX))%Z then t else garbage x.

End Dbl.

(** ** TString: the operations the viewer uses *)

Module TStr.

Local Open Scope nat_scope.

(** The double-quote character and the line feed. *)
Definition dquote : string := String (ascii_of_nat 34) EmptyString.
Definition newline : string := String (ascii_of_nat 10) EmptyString.

(** [tolower] in the C locale: only [A]..[Z] change. *)
Definition lower_ascii (c : ascii) : ascii :=
  let n := nat_of_ascii c in
  if (65 <=? n) && (n <=? 90) then ascii_of_nat (n + 32) else c.

(** [TString::ToLower]. *)
Fixpoint ToLower (s : string) : string :=
  match s with
  | EmptyString => EmptyString
  | String c t => String (lower_ascii c) (ToLower t)
  end.

(** [s.BeginsWith(pat)], exact comparison: [pat] occurs at index 0. *)
Definition BeginsWith (s pat : string) : bool := String.prefix pat s.

(** [TString::IsNull]: the length is zero. *)
Definition IsNull (s : string) : bool :=
  match s with EmptyString => true | String _ _ => false end.

(** [s.Index(pat)]: the first occurrence, [None] for [kNPOS]. *)
Definition Index (s pat : string) : option nat := String.index 0 pat s.

(** [s(start, len)]: the substring, clamped to the end of [s]; empty when
    [start] is not inside [s] or [len] is zero. *)
Definition Sub (s : string) (start len : nat) : string :=
  if (start <? String.length s) && (0 <? len)
  then substring start (Nat.min len (String.length s - start)) s
  else EmptyString.

(** [s.ReplaceAll(a, b)] for one-character strings [a] and [b]. *)
Fixpoint ReplaceAll (a b : ascii) (s : string) : string :=
  match s with
  | EmptyString => EmptyString
  | String c t =>
      String (if Ascii.eqb c a then b else c) (ReplaceAll a b t)
  end.

(** [TString::Format("%-15s", s)]: left-justified in a field of width 15. *)
Fixpoint spaces (n : nat) : string :=
  match n with O => EmptyString | S m => String " "%char (spaces m) end.

Definition pad15 (s : string) : string :=
  (s ++ spaces (15 - String.length s))%string.

End TStr.

(** ** plot_utils.h, with doubles idealised *)

Module PlotUtils.

Import TStr.
Local Open Scope Q_scope.

(** The conversion of an [int] index to [size_t] (64 bits), as in
    [row.size() > xIndex] and [row[xIndex]]. *)
Definition to_size_t (i : Z) : Z := (i mod 2 ^ 64)%Z.

(** [v[i]] on a [std::vector]; a read outside the vector is undefined. *)
Definition at_index {A : Type} (v : list A) (i : Z) : option A :=
  if ((i <? 0) || (Z.of_nat (List.length v) <=? i))%Z then None
  else nth_error v (Z.to_nat i).

(** [std::sort] on doubles: the ascending arrangement of the data. *)
Fixpoint insert (x : Q) (l : list Q) : list Q :=
  match l with
  | [] => [x]
  | y :: t => if Dbl.leb x y then x :: l else y :: insert x t
  end.

Fixpoint sort (l : list Q) : list Q :=
  match l with
  | [] => []
  | x :: t => insert x (sort t)
  end.

(** [double GetQuartile(std::vector<double> data, double quartile)], over
    exact rationals ([Plot64.GetQuartile] is the function over binary64).
    The two casts to [size_t] and the two reads are undefined when the index
    falls outside the vector. *)
Definition GetQuartile (data : list Q) (quartile : Q) : option Q :=
  match data with
  | [] => Some 0
  | _ :: _ =>
      let data := sort data in
      let idx := quartile * inject_Z (Z.of_nat (List.length data) - 1) in
      let idx_below := Dbl.floor idx in
      let idx_above := Dbl.ceil idx in
      if (idx_below =? idx_above)%Z then at_index data idx_below
      else
        let fraction := idx - inject_Z idx_below in
        match at_index data idx_below, at_index data idx_above with
        | Some lo, Some hi => Some (lo * (1 - fraction) + hi * fraction)
        | _, _ => None
        end
  end.

(** [double RoundToNiceValue(double value)], over exact rationals, with the
    exact decade and the exact power of ten ([Plot64.RoundToNiceValue] is
    the function over binary64). *)
Definition RoundToNiceValue (value : Q) : Q :=
  if Dbl.leb value 0 then 1
  else
    let exponent := Dbl.floor_log10 value in
    let base := value / Dbl.pow10 exponent in
    let niceBase :=
      if Dbl.ltb base (3 # 2) then 1
      else if Dbl.ltb base 3 then 2
      else if Dbl.ltb base 7 then 5
      else 10 in
    niceBase * Dbl.pow10 exponent.

(** [TString FormatAxisLabel(const TString& columnName)]. *)
Definition FormatAxisLabel (columnName : string) : string :=
  match Index columnName "__" with
  | None => columnName
  | Some sep =>
      let base := Sub columnName 0 sep in
      let unit := Sub columnName (sep + 2) (String.length columnName) in
      (ReplaceAll "_"%char " "%char base ++ " (" ++ unit ++ ")")%string
  end.

(** [TString ExtractUnit(const TString& columnName)]. *)
Definition ExtractUnit (columnName : string) : string :=
  match Index columnName "__" with
  | None => EmptyString
  | Some sep => Sub columnName (sep + 2) (String.length columnName)
  end.

(** [TMath::MinElement] and [TMath::MaxElement]: they dereference the first
    element, which is undefined on an empty vector. *)
Definition MinElement (a : list Q) : option Q :=
  match a with
  | [] => None
  | x :: t => Some (fold_left (fun m y => if Dbl.ltb y m then y else m) t x)
  end.

Definition MaxElement (a : list Q) : option Q :=
  match a with
  | [] => None
  | x :: t => Some (fold_left (fun m y => if Dbl.ltb m y then y else m) t x)
  end.

(** A plot window: the [TCanvas] object, identified by its rank among the
    canvases the program has created, and the random number in its name. *)
Record TCanvas : Type := { cv_serial : nat; cv_rnd : N }.

(** What happens to plot windows, in program order. *)
Inductive WinEvent : Type :=
| WinClose (c : TCanvas)
| WinDelete (c : TCanvas)
| WinNew (c : TCanvas).

Inductive Color : Type := kBlue | kRed.

(** The chart objects the plot builder creates, with what is put in them. *)
Inductive Chart : Type :=
| TH1D (title : string) (nBins : Z) (lo hi : Q) (fills : list Q)
       (xTitle yTitle : string)
| TH2D (title : string) (nBinsX : Z) (xlo xhi : Q)
       (nBinsY : Z) (ylo yhi : Q) (fills : list (Q * Q))
       (xTitle yTitle : string)
| TGraph (points : list (Q * Q)) (title : string) (marker : Color).

(** The outcome of the drawing part of [PlotSelectedData]. *)
Inductive Drawn : Type :=
| Undefined            (* undefined behaviour: a read outside a vector *)
| Blank                (* a plot type that is neither 1 nor 2 *)
| Drew (c : Chart).

Record PlotResult : Type := {
  pr_canvasQueue : list TCanvas;
  pr_windows : list WinEvent;
  pr_drawn : Drawn;
  pr_fLastHist : option Chart;
  pr_fLastHist2D : option Chart
}.

Section Plot.

(** [std::cbrt]. *)
Variable cbrt : Q -> Q.
(** [TString::Atof]. *)
Variable Atof : string -> Q.
(** The ["%g"] conversion of [Form]. *)
Variable fmt_g : Q -> string.
(** The value of an [(int)] conversion outside the range of [int]. *)
Variable garbage : Q -> Z.

(** [row.size() > index && !row[index].IsNull()]. *)
Definition cell (row : list string) (index : Z) : string :=
  nth (Z.to_nat (to_size_t index)) row EmptyString.

Definition cell_valid (row : list string) (index : Z) : bool :=
  if (to_size_t index <? Z.of_nat (List.length row))%Z
  then negb (IsNull (cell row index))
  else false.

(** The first loop of [PlotSelectedData]: the X series. *)
Fixpoint collect_x (tableData : list (list string)) (xIndex : Z) : list Q :=
  match tableData with
  | [] => []
  | row :: rest =>
      if cell_valid row xIndex
      then Atof (cell row xIndex) :: collect_x rest xIndex
      else collect_x rest xIndex
  end.

(** The first loop of [PlotSelectedData]: the Y series. *)
Fixpoint collect_y (tableData : list (list string)) (yIndex : Z) : list Q :=
  match tableData with
  | [] => []
  | row :: rest =>
      if (0 <=? yIndex)%Z && cell_valid row yIndex
      then Atof (cell row yIndex) :: collect_y rest yIndex
      else collect_y rest yIndex
  end.

(** How many rows contribute to the series of a column: the rows that are
    long enough and whose cell is not empty. *)
Definition valid_count (tableData : list (list string)) (index : Z) : nat :=
  List.length (filter (fun row => cell_valid row index) tableData).

(** [if (canvasQueue.size() >= maxCanvases) { close, delete, pop_front }],
    then [new TCanvas] and [push_back]. *)
Definition rotate_canvases (canvasQueue : list TCanvas) (maxCanvases : nat)
    (newCanvas : TCanvas) : list TCanvas * list WinEvent :=
  let '(queue, closed) :=
    if (maxCanvases <=? List.length canvasQueue)%nat
    then match canvasQueue with
         | oldCanvas :: rest => (rest, [WinClose oldCanvas; WinDelete oldCanvas])
         | [] => ([], [])    (* [front()] of an empty deque: [maxCanvases = 0] *)
         end
    else (canvasQueue, []) in
  (queue ++ [newCanvas], closed ++ [WinNew newCanvas]).

(** [RoundToNiceValue(2 * iqr / std::cbrt(data.size()))] with the fallback
    [if (binWidth <= 0) binWidth = 1]. *)
Definition BinWidth (data : list Q) : option Q :=
  match GetQuartile data (1 # 4), GetQuartile data (3 # 4) with
  | Some q1, Some q3 =>
      let iqr := q3 - q1 in
      let rawBinWidth := 2 * iqr / cbrt (inject_Z (Z.of_nat (List.length data))) in
      let binWidth := RoundToNiceValue rawBinWidth in
      Some (if Dbl.leb binWidth 0 then 1 else binWidth)
  | _, _ => None
  end.

(** [int nBins = (int)((maxVal - minVal) / binWidth);
     if (nBins < 1) nBins = 10;], with the exact quotient
    ([Plot64.NumBins] is the computation over binary64). *)
Definition NumBins (minVal maxVal binWidth : Q) : Z :=
  let nBins := Dbl.to_int garbage ((maxVal - minVal) / binWidth) in
  if (nBins <? 1)%Z then 10%Z else nBins.

(** The 1D histogram branch. *)
Definition Hist1D (xData : list Q) (xName : option string) : Drawn :=
  match BinWidth xData, MinElement xData, MaxElement xData, xName with
  | Some binWidth, Some minVal, Some maxVal, Some xName =>
      let nBins := NumBins minVal maxVal binWidth in
      let unit := ExtractUnit xName in
      Drew (TH1D (FormatAxisLabel xName) nBins minVal maxVal xData
              (FormatAxisLabel xName)
              (if IsNull unit then "Entries"%string
               else ("Entries / " ++ fmt_g binWidth ++ " " ++ unit)%string))
  | _, _, _, _ => Undefined
  end.

(** The 2D histogram branch. *)
Definition Hist2D (xData yData : list Q) (xName yName : option string)
    : Drawn :=
  match BinWidth xData, BinWidth yData,
        MinElement xData, MaxElement xData,
        MinElement yData, MaxElement yData, xName, yName with
  | Some bwx, Some bwy, Some minX, Some maxX, Some minY, Some maxY,
    Some xName, Some yName =>
      Drew (TH2D ("2D Histogram of " ++ FormatAxisLabel xName ++ " vs "
                    ++ FormatAxisLabel yName)%string
              (NumBins minX maxX bwx) minX maxX
              (NumBins minY maxY bwy) minY maxY
              (combine xData yData)
              (FormatAxisLabel xName) (FormatAxisLabel yName))
  | _, _, _, _, _, _, _, _ => Undefined
  end.

(** [g->SetPoint(i, i, xData[i])] for every [i]. *)
Fixpoint indexed (i : Z) (xData : list Q) : list (Q * Q) :=
  match xData with
  | [] => []
  | x :: t => (inject_Z i, x) :: indexed (i + 1) t
  end.

(** The scatter branches. *)
Definition Scatter1D (xData : list Q) (xName : option string) : Drawn :=
  match xName with
  | Some xName =>
      Drew (TGraph (indexed 0 xData)
              (xName ++ ";Index;" ++ xName)%string kBlue)
  | None => Undefined
  end.

Definition Scatter2D (xData yData : list Q) (xName yName : option string)
    : Drawn :=
  match xName, yName with
  | Some xName, Some yName =>
      Drew (TGraph (combine xData yData)
              ("2D Scatter Plot;" ++ xName ++ ";" ++ yName)%string kRed)
  | _, _ => Undefined
  end.

(** [void PlotSelectedData(...)].  [newCanvas] is the object that
    [new TCanvas] returns.  The window rotation comes before the drawing and
    is reported also when the drawing is undefined. *)
Definition PlotSelectedData
    (tableData : list (list string)) (tableHeader : list string)
    (xIndex yIndex plotType : Z)
    (canvasQueue : list TCanvas) (maxCanvases : nat)
    (newCanvas : TCanvas) : PlotResult :=
  let xData := collect_x tableData xIndex in
  let yData := collect_y tableData yIndex in
  let '(queue, wins) := rotate_canvases canvasQueue maxCanvases newCanvas in
  let xName := at_index tableHeader (to_size_t xIndex) in
  let yName := at_index tableHeader (to_size_t yIndex) in
  let oneD := (yIndex <? 0)%Z || negb (List.length yData =? List.length xData)%nat in
  let drawn :=
    if (plotType =? 1)%Z then
      if oneD then Hist1D xData xName else Hist2D xData yData xName yName
    else if (plotType =? 2)%Z then
      if oneD then Scatter1D xData xName
      else Scatter2D xData yData xName yName
    else Blank in
  {| pr_canvasQueue := queue;
     pr_windows := wins;
     pr_drawn := drawn;
     pr_fLastHist :=
       match drawn with Drew (TH1D t n a b f x y) => Some (TH1D t n a b f x y)
                      | _ => None end;
     pr_fLastHist2D :=
       match drawn with
       | Drew (TH2D t n a b m c d f x y) => Some (TH2D t n a b m c d f x y)
       | _ => None
       end |}.

End Plot.

End PlotUtils.

(** ** sqliteViewer.C and gui_handlers.inline.h: the main window *)

Module Viewer.

Import TStr PlotUtils.
Local Open Scope nat_scope.

Definition kMaxCanvases : nat := 3.
Definition kMaxQueryHistory : nat := 10.

(** What [TSQLServer::Query] returns when it returns an object: the field
    names and the rows that [Next] yields.  [GetField] of a NULL or missing
    field gives the empty [TString]. *)
Record TSQLResult : Type := {
  fieldNames : list string;
  resultRows : list (list string)
}.

Definition GetField (row : list string) (i : nat) : string :=
  nth i row EmptyString.

(** The state of [MyMainFrame] that the handlers below read and write.  The
    text views are the lines added since the last [Clear].  [queried],
    [windows], [stdout] and [files] record what the handlers did to the SQL
    engine, the plot windows, the standard output and the file system.
    [fLastQueryResult] is null between two handlers and is left out, as are
    the combo boxes, whose readings are arguments of the handlers. *)
Record MyMainFrame : Type := {
  fDataView : list string;
  fQueryHistoryView : list string;
  fQueryHistory : list string;
  fCurrentTableHeader : list string;
  fCurrentTableData : list (list string);
  fCanvasQueue : list TCanvas;
  fLastHist : option Chart;
  fLastHist2D : option Chart;
  queried : list string;
  windows : list WinEvent;
  stdout : list string;
  files : list (string * string);
  created : nat
}.

Definition init : MyMainFrame :=
  {| fDataView := []; fQueryHistoryView := []; fQueryHistory := [];
     fCurrentTableHeader := []; fCurrentTableData := [];
     fCanvasQueue := []; fLastHist := None; fLastHist2D := None;
     queried := []; windows := []; stdout := []; files := [];
     created := 0 |}.

Definition set_view (v : list string) (st : MyMainFrame) : MyMainFrame :=
  {| fDataView := v;
     fQueryHistoryView := fQueryHistoryView st;
     fQueryHistory := fQueryHistory st;
     fCurrentTableHeader := fCurrentTableHeader st;
     fCurrentTableData := fCurrentTableData st;
     fCanvasQueue := fCanvasQueue st;
     fLastHist := fLastHist st; fLastHist2D := fLastHist2D st;
     queried := queried st; windows := windows st;
     stdout := stdout st; files := files st; created := created st |}.

Definition set_history (h : list string) (st : MyMainFrame) : MyMainFrame :=
  {| fDataView := fDataView st;
     fQueryHistoryView := h;
     fQueryHistory := h;
     fCurrentTableHeader := fCurrentTableHeader st;
     fCurrentTableData := fCurrentTableData st;
     fCanvasQueue := fCanvasQueue st;
     fLastHist := fLastHist st; fLastHist2D := fLastHist2D st;
     queried := queried st; windows := windows st;
     stdout := stdout st; files := files st; created := created st |}.

Definition set_table (h : list string) (d : list (list string))
    (st : MyMainFrame) : MyMainFrame :=
  {| fDataView := fDataView st;
     fQueryHistoryView := fQueryHistoryView st;
     fQueryHistory := fQueryHistory st;
     fCurrentTableHeader := h;
     fCurrentTableData := d;
     fCanvasQueue := fCanvasQueue st;
     fLastHist := fLastHist st; fLastHist2D := fLastHist2D st;
     queried := queried st; windows := windows st;
     stdout := stdout st; files := files st; created := created st |}.

Definition log_query (q : string) (st : MyMainFrame) : MyMainFrame :=
  {| fDataView := fDataView st;
     fQueryHistoryView := fQueryHistoryView st;
     fQueryHistory := fQueryHistory st;
     fCurrentTableHeader := fCurrentTableHeader st;
     fCurrentTableData := fCurrentTableData st;
     fCanvasQueue := fCanvasQueue st;
     fLastHist := fLastHist st; fLastHist2D := fLastHist2D st;
     queried := queried st ++ [q]; windows := windows st;
     stdout := stdout st; files := files st; created := created st |}.

Definition print (line : string) (st : MyMainFrame) : MyMainFrame :=
  {| fDataView := fDataView st;
     fQueryHistoryView := fQueryHistoryView st;
     fQueryHistory := fQueryHistory st;
     fCurrentTableHeader := fCurrentTableHeader st;
     fCurrentTableData := fCurrentTableData st;
     fCanvasQueue := fCanvasQueue st;
     fLastHist := fLastHist st; fLastHist2D := fLastHist2D st;
     queried := queried st; windows := windows st;
     stdout := stdout st ++ [line]; files := files st;
     created := created st |}.

Definition write_file (path content : string) (st : MyMainFrame)
    : MyMainFrame :=
  {| fDataView := fDataView st;
     fQueryHistoryView := fQueryHistoryView st;
     fQueryHistory := fQueryHistory st;
     fCurrentTableHeader := fCurrentTableHeader st;
     fCurrentTableData := fCurrentTableData st;
     fCanvasQueue := fCanvasQueue st;
     fLastHist := fLastHist st; fLastHist2D := fLastHist2D st;
     queried := queried st; windows := windows st;
     stdout := stdout st; files := files st ++ [(path, content)];
     created := created st |}.

Definition set_plot (r : PlotResult) (st : MyMainFrame) : MyMainFrame :=
  {| fDataView := fDataView st;
     fQueryHistoryView := fQueryHistoryView st;
     fQueryHistory := fQueryHistory st;
     fCurrentTableHeader := fCurrentTableHeader st;
     fCurrentTableData := fCurrentTableData st;
     fCanvasQueue := pr_canvasQueue r;
     fLastHist := pr_fLastHist r; fLastHist2D := pr_fLastHist2D r;
     queried := queried st; windows := windows st ++ pr_windows r;
     stdout := stdout st; files := files st;
     created := S (created st) |}.

(** The lines of a text view: [Clear] and [AddLine]. *)
Definition Clear (view : list string) : list string := [].
Definition AddLine (line : string) (view : list string) : list string :=
  view ++ [line].

(** One line of fixed-width columns: every cell through ["%-15s"]. *)
Definition format_row (cells : list string) : string :=
  fold_left (fun line c => (line ++ pad15 c)%string) cells EmptyString.

(** [void LoadQueryResultsToTable(TSQLResult* result)], up to the refresh of
    the column selectors. *)
Definition LoadQueryResultsToTable (result : option TSQLResult)
    (st : MyMainFrame) : MyMainFrame :=
  match result with
  | None => st
  | Some result =>
      let nFields := List.length (fieldNames result) in
      let header := fieldNames result in
      let data :=
        map (fun row => map (GetField row) (seq 0 nFields))
            (resultRows result) in
      let view := AddLine " " (AddLine (format_row header)
                                 (Clear (fDataView st))) in
      let view := fold_left (fun v rowData => AddLine (format_row rowData) v)
                            data view in
      set_view view (set_table header data st)
  end.

Definition msg_only_select : string := "Only SELECT queries are allowed.".
Definition msg_query_failed : string :=
  "Query failed or returned no results.".

(** [push_back] on the history, then [pop_front] above the capacity. *)
Definition push_history (userQuery : string) (h : list string)
    : list string :=
  let h := h ++ [userQuery] in
  if kMaxQueryHistory <? List.length h then tl h else h.

Section Handlers.

(** [fDB->Query]: [None] is the null pointer. *)
Variable Query : string -> option TSQLResult.
Variable cbrt : Q -> Q.
Variable Atof : string -> Q.
Variable fmt_g : Q -> string.
Variable garbage : Q -> Z.

(** [void MyMainFrame::OnRunSQLClicked()]; [userQuery] is the text of
    [fSQLBox].  After a successful load the handler selects a synthetic
    "Custom" entry of the table drop-down, which re-enters [OnTableSelected];
    that call returns at once on the title "Custom", so it changes nothing
    here. *)
Definition OnRunSQLClicked (userQuery : string) (st : MyMainFrame)
    : MyMainFrame :=
  let lower := ToLower userQuery in
  let st := set_history (push_history userQuery (fQueryHistory st)) st in
  if negb (BeginsWith lower "select")
  then set_view (AddLine msg_only_select (Clear (fDataView st))) st
  else
    let st := log_query userQuery st in
    match Query userQuery with
    | None => set_view (AddLine msg_query_failed (Clear (fDataView st))) st
    | Some result => LoadQueryResultsToTable (Some result) st
    end.

(** [void MyMainFrame::OnTableSelected(Int_t)]; [entry] is the title of the
    selected entry of the table drop-down, if there is one. *)
Definition OnTableSelected (entry : option string) (st : MyMainFrame)
    : MyMainFrame :=
  match entry with
  | None => st
  | Some tableName =>
      if String.eqb tableName "Custom" then st
      else
        let st := set_view (Clear (fDataView st)) st in
        let query :=
          ("SELECT * FROM " ++ dquote ++ tableName ++ dquote)%string in
        let st := log_query query st in
        LoadQueryResultsToTable (Query query) st
  end.

(** [s.EndsWith(suffix)]. *)
Definition EndsWith (s suffix : string) : bool :=
  let n := String.length s in
  let m := String.length suffix in
  (m <=? n) && String.eqb (substring (n - m) m s) suffix.

(** The loop that writes one CSV line: cell [i] of [size] cells between
    double quotes, and a comma unless [i] is the last index. *)
Fixpoint write_cells (size i : nat) (cells : list string) : string :=
  match cells with
  | [] => EmptyString
  | c :: rest =>
      (dquote ++ c ++ dquote
         ++ (if (i <? size - 1)%nat then "," else EmptyString)
         ++ write_cells size (S i) rest)%string
  end.

Definition write_line (cells : list string) : string :=
  (write_cells (List.length cells) 0 cells ++ newline)%string.

(** Everything [OnExportCSVClicked] sends to the output stream. *)
Definition csv_output (header : list string) (data : list (list string))
    : string :=
  fold_left (fun out row => (out ++ write_line row)%string) data
            (write_line header).

(** [void MyMainFrame::OnExportCSVClicked()]; [filename] is what the save
    dialog returns (empty when cancelled) and [opens] tells whether the
    output stream could be opened. *)
Definition OnExportCSVClicked (filename : string) (opens : bool)
    (st : MyMainFrame) : MyMainFrame :=
  match fCurrentTableData st with
  | [] => print ("No displayed table data to export." ++ newline)%string st
  | _ :: _ =>
      if IsNull filename then st
      else
        let path :=
          if EndsWith filename ".csv" then filename
          else (filename ++ ".csv")%string in
        if negb opens
        then print ("Failed to open file for writing: " ++ path
                      ++ newline)%string st
        else
          let st :=
            write_file path
              (csv_output (fCurrentTableHeader st) (fCurrentTableData st))
              st in
          print ("CSV export complete: " ++ path ++ newline)%string st
  end.

(** [void MyMainFrame::OnPlotButtonClicked()]; [xSelected], [ySelected] and
    [plotType] are the readings of the three combo boxes, [rnd] the number
    drawn for the window name.  [None] when the drawing is undefined. *)
Definition OnPlotButtonClicked (xSelected ySelected plotType : Z) (rnd : N)
    (st : MyMainFrame) : option MyMainFrame :=
  let xIndex := (xSelected - 1)%Z in
  let yIndex := (ySelected - 1)%Z in
  if ((xIndex <? 0) ||
      (Z.of_nat (List.length (fCurrentTableHeader st)) <=? xIndex))%Z
  then Some (print ("Invalid X column selection." ++ newline)%string st)
  else
    let r :=
      PlotSelectedData cbrt Atof fmt_g garbage
        (fCurrentTableData st) (fCurrentTableHeader st)
        xIndex yIndex plotType (fCanvasQueue st) kMaxCanvases
        {| cv_serial := created st; cv_rnd := rnd |} in
    match pr_drawn r with
    | Undefined => None
    | _ => Some (set_plot r st)
    end.

(** The user's actions, and the event loop that runs one handler at a
    time. *)
Inductive Event : Type :=
| RunSQL (userQuery : string)
| SelectTable (entry : option string)
| ExportCSV (filename : string) (opens : bool)
| Plot (xSelected ySelected plotType : Z) (rnd : N).

Definition step (st : MyMainFrame) (e : Event) : option MyMainFrame :=
  match e with
  | RunSQL q => Some (OnRunSQLClicked q st)
  | SelectTable entry => Some (OnTableSelected entry st)
  | ExportCSV filename opens => Some (OnExportCSVClicked filename opens st)
  | Plot x y t rnd => OnPlotButtonClicked x y t rnd st
  end.

Fixpoint run (st : MyMainFrame) (events : list Event)
    : option MyMainFrame :=
  match events with
  | [] => Some st
  | e :: rest =>
      match step st e with
      | Some st' => run st' rest
      | None => None
      end
  end.

End Handlers.

(** The queries submitted with the Run button, in order. *)
Fixpoint submissions (events : list Event) : list string :=
  match events with
  | [] => []
  | RunSQL q :: rest => q :: submissions rest
  | _ :: rest => submissions rest
  end.

(** The windows that a log of window events leaves open, oldest first. *)
Definition same_canvas (a b : TCanvas) : bool :=
  (cv_serial a =? cv_serial b)%nat.

Definition apply_win (open : list TCanvas) (e : WinEvent) : list TCanvas :=
  match e with
  | WinNew c => open ++ [c]
  | WinClose c => filter (fun d => negb (same_canvas c d)) open
  | WinDelete _ => open
  end.

Definition open_windows (log : list WinEvent) : list TCanvas :=
  fold_left apply_win log [].

(** How many windows a log of window events opens. *)
Definition is_new (e : WinEvent) : bool :=
  match e with WinNew _ => true | _ => false end.

Definition opened_count (log : list WinEvent) : nat :=
  List.length (filter is_new log).

(** The invariant of the plot-window pool: the queue holds at most
    [kMaxCanvases] windows, it is exactly the set of windows the log leaves
    open, its canvases are distinct canvases created earlier, and no prefix
    of the log leaves more than [kMaxCanvases] windows open. *)
Record PoolInv (st : MyMainFrame) : Prop := {
  pool_len : List.length (fCanvasQueue st) <= kMaxCanvases;
  pool_open : open_windows (windows st) = fCanvasQueue st;
  pool_fresh : Forall (fun c => cv_serial c < created st) (fCanvasQueue st);
  pool_nodup : NoDup (map cv_serial (fCanvasQueue st));
  pool_peak :
    forall k, List.length (open_windows (firstn k (windows st)))
              <= kMaxCanvases
}.

End Viewer.

(** ** The specification's own words, for comparison *)

Module Spec.

Import TStr.

(** "case-insensitive, leading-whitespace-tolerant ... begin with select". *)
Definition is_space (c : ascii) : bool :=
  let n := nat_of_ascii c in
  (n =? 32)%nat || ((9 <=? n)%nat && (n <=? 13)%nat).

Fixpoint skip_spaces (s : string) : string :=
  match s with
  | EmptyString => EmptyString
  | String c t => if is_space c then skip_spaces t else s
  end.

Definition begins_with_select (s : string) : bool :=
  String.prefix "select" (ToLower (skip_spaces s)).

(** "most recent 10 remain in submission order": the last [k] entries. *)
Definition most_recent {A : Type} (k : nat) (l : list A) : list A :=
  skipn (List.length l - k) l.

(** "linear interpolation between order statistics using fractional rank
    q*(n-1)": with [h = q*(n-1)] and [i] its integer part, the value
    [x_i + (h - i) * (x_(i+1) - x_i)] on the sorted data. *)
Definition quantile (data : list Q) (q : Q) : Q :=
  let sorted := PlotUtils.sort data in
  let h := (q * inject_Z (Z.of_nat (List.length data) - 1))%Q in
  let i := Qfloor h in
  let x_i := nth (Z.to_nat i) sorted 0%Q in
  let x_i1 := nth (Z.to_nat (i + 1)) sorted 0%Q in
  (x_i + (h - inject_Z i) * (x_i1 - x_i))%Q.

(** "a value of the form m x 10^k with m in {1,2,5,10} ... by comparing the
    mantissa against thresholds 1.5/3.0/7.0", on exact numbers: the
    mantissa is [v / 10^floor(log10 v)]. *)
Definition round_to_nice (v : Q) : Q :=
  let k := Dbl.floor_log10 v in
  let mantissa := (v / Dbl.pow10 k)%Q in
  let m :=
    if Qle_bool 7 mantissa then 10%Q
    else if Qle_bool 3 mantissa then 5%Q
    else if Qle_bool (3 # 2) mantissa then 2%Q
    else 1%Q in
  (m * Dbl.pow10 k)%Q.

(** "header line of double-quoted, comma-separated column names; one line
    per row, double-quoted comma-separated cell values". *)
Definition csv_line (cells : list string) : string :=
  (String.concat "," (map (fun c => dquote ++ c ++ dquote) cells)
     ++ newline)%string.

Definition csv (header : list string) (rows : list (list string)) : string :=
  String.concat EmptyString (map csv_line (header :: rows)).

(** "valid (non-null, numeric)": a cell that holds a decimal number, with an
    optional sign, digits and at most one decimal point. *)
Definition is_digit (c : ascii) : bool :=
  let n := nat_of_ascii c in (48 <=? n)%nat && (n <=? 57)%nat.

Fixpoint digits_and_point (seen_digit seen_point : bool) (s : string)
    : bool :=
  match s with
  | EmptyString => seen_digit
  | String c t =>
      if is_digit c then digits_and_point true seen_point t
      else if Ascii.eqb c "."%char && negb seen_point
           then digits_and_point seen_digit true t
           else false
  end.

Definition is_numeric (s : string) : bool :=
  match s with
  | String c t =>
      if Ascii.eqb c "-"%char || Ascii.eqb c "+"%char
      then digits_and_point false false t
      else digits_and_point false false s
  | EmptyString => false
  end.

(** The count of valid values of a column, in the specification's sense. *)
Definition valid_count (tableData : list (list string)) (index : nat) : nat :=
  List.length
    (filter (fun row => match nth_error row index with
                        | Some c => is_numeric c
                        | None => false
                        end) tableData).

End Spec.

(** ** Sample inputs *)

Module Samples.

Import TStr PlotUtils Viewer.
Local Open Scope string_scope.

(** An engine that fails on every statement. *)
Definition engine_fails (q : string) : option TSQLResult := None.

(** An engine whose table has the column [a] and no row. *)
Definition engine_no_rows (q : string) : option TSQLResult :=
  Some {| fieldNames := ["a"]; resultRows := [] |}.

(** An engine with one table of two columns. *)
Definition engine_xy (q : string) : option TSQLResult :=
  Some {| fieldNames := ["x"; "y"];
          resultRows := [["1"; "abc"]; ["2"; "3"]] |}.

Definition engine_ab (q : string) : option TSQLResult :=
  Some {| fieldNames := ["a"; "b"]; resultRows := [["1"; "2"]] |}.

(** [atof] on the cells used below: the value of the leading decimal digits,
    0 when there is none. *)
Fixpoint leading_digits (acc : Z) (s : string) : Z :=
  match s with
  | EmptyString => acc
  | String c t =>
      let n := nat_of_ascii c in
      if ((48 <=? n) && (n <=? 57))%nat
      then leading_digits (10 * acc + Z.of_nat (n - 48)) t
      else acc
  end.

Definition Atof (s : string) : Q := inject_Z (leading_digits 0 s).

(** Stand-ins for [std::cbrt], ["%g"] and an out-of-range [(int)]. *)
Definition cbrt (x : Q) : Q := 3 # 2.
Definition fmt_g (x : Q) : string := "1".
Definition garbage (x : Q) : Z := Dbl.INT_MIN.

(** Eleven submissions, and a session that plots four times. *)
Definition eleven : list string :=
  ["q0"; "q1"; "q2"; "q3"; "q4"; "q5"; "q6"; "q7"; "q8"; "q9"; "q10"].

Definition session_eleven : list Event :=
  map RunSQL (firstn 5 eleven) ++ [ExportCSV "out" true]
    ++ map RunSQL (skipn 5 eleven).

Definition session_four_plots : list Event :=
  [RunSQL "select 1"; Plot 1 0 1 11; Plot 1 0 2 22; Plot 1 2 1 33;
   Plot 2 1 2 44].

(** The bytes of a file, as a string. *)
Fixpoint of_bytes (l : list nat) : string :=
  match l with
  | [] => EmptyString
  | b :: t => String (ascii_of_nat b) (of_bytes t)
  end.

End Samples.

(** ** The window with its database connection and its hint panel *)

Module Session.

Import TStr PlotUtils Viewer.

(** A [TSQLServer] object: whether it is a zombie, and what its [Query]
    answers. *)
Record TSQLServer : Type := {
  IsZombie : bool;
  Query : string -> option TSQLResult
}.

(** [MyMainFrame] with the members that [OnChangeFile] and [OnToggleHints]
    use: the connection [fDB] ([None] is the null pointer), the text of
    [fDBPathLabel], the flag [fHintsVisible], whether the frame
    [fHintWrapper] is shown, and the text of [fToggleHintsBtn].  The table
    drop-down is left out, like the other combo boxes. *)
Record Window : Type := {
  frame : MyMainFrame;
  fDB : option TSQLServer;
  fDBPathLabel : string;
  fHintsVisible : bool;
  fHintWrapper : bool;
  fToggleHintsBtn : string
}.

Definition with_frame (f : MyMainFrame) (w : Window) : Window :=
  {| frame := f; fDB := fDB w; fDBPathLabel := fDBPathLabel w;
     fHintsVisible := fHintsVisible w; fHintWrapper := fHintWrapper w;
     fToggleHintsBtn := fToggleHintsBtn w |}.

Definition msg_open_failed : string := "Failed to open selected database.".

(** The window at the end of a constructor that connected to [path]. *)
Definition opened (server : TSQLServer) (path : string) : Window :=
  {| frame := init; fDB := Some server;
     fDBPathLabel := ("Database: " ++ path)%string;
     fHintsVisible := false; fHintWrapper := false;
     fToggleHintsBtn := "Show Examples" |}.

(** [void MyMainFrame::OnToggleHints()]. *)
Definition OnToggleHints (w : Window) : Window :=
  if fHintsVisible w
  then {| frame := frame w; fDB := fDB w; fDBPathLabel := fDBPathLabel w;
          fHintsVisible := negb (fHintsVisible w);
          fHintWrapper := false;
          fToggleHintsBtn := "Show Examples" |}
  else {| frame := frame w; fDB := fDB w; fDBPathLabel := fDBPathLabel w;
          fHintsVisible := negb (fHintsVisible w);
          fHintWrapper := true;
          fToggleHintsBtn := "Hide Examples" |}.

(** What [fDB->Query] answers; on a null [fDB] the call is undefined and the
    handlers below stop before they reach it. *)
Definition engine (w : Window) : string -> option TSQLResult :=
  match fDB w with
  | Some server => Query server
  | None => fun _ => None
  end.

Definition null_fDB (w : Window) : bool :=
  match fDB w with Some _ => false | None => true end.

Section Handlers.

(** [TSQLServer::Connect] on the URL of the chosen file. *)
Variable Connect : string -> option TSQLServer.
Variable cbrt : Q -> Q.
Variable Atof : string -> Q.
Variable fmt_g : Q -> string.
Variable garbage : Q -> Z.

(** [void MyMainFrame::OnChangeFile()]; [filename] is what the open dialog
    returns, empty when cancelled.  The old connection is deleted before the
    new one is tested. *)
Definition OnChangeFile (filename : string) (w : Window) : Window :=
  if IsNull filename then w
  else
    let db := Connect ("sqlite://" ++ filename)%string in
    let failed :=
      match db with Some server => IsZombie server | None => true end in
    if failed
    then {| frame := set_view (AddLine msg_open_failed
                                 (Clear (fDataView (frame w)))) (frame w);
            fDB := db; fDBPathLabel := fDBPathLabel w;
            fHintsVisible := fHintsVisible w;
            fHintWrapper := fHintWrapper w;
            fToggleHintsBtn := fToggleHintsBtn w |}
    else {| frame := set_view (Clear (fDataView (frame w))) (frame w);
            fDB := db;
            fDBPathLabel := ("Database: " ++ filename)%string;
            fHintsVisible := fHintsVisible w;
            fHintWrapper := fHintWrapper w;
            fToggleHintsBtn := fToggleHintsBtn w |}.

(** The user's actions on the whole window. *)
Inductive Action : Type :=
| DoRunSQL (userQuery : string)
| DoSelectTable (entry : option string)
| DoExportCSV (filename : string) (opens : bool)
| DoPlot (xSelected ySelected plotType : Z) (rnd : N)
| DoToggleHints
| DoChangeFile (filename : string).

(** One handler at a time.  [OnRunSQLClicked] reaches [fDB->Query] when the
    text passes the prefix check, [OnTableSelected] when an entry other than
    "Custom" is selected; on a null [fDB] that call is undefined. *)
Definition act (w : Window) (a : Action) : option Window :=
  match a with
  | DoRunSQL q =>
      if BeginsWith (ToLower q) "select" && null_fDB w then None
      else Some (with_frame (OnRunSQLClicked (engine w) q (frame w)) w)
  | DoSelectTable entry =>
      let reaches :=
        match entry with
        | Some tableName => negb (String.eqb tableName "Custom")
        | None => false
        end in
      if reaches && null_fDB w then None
      else Some (with_frame (OnTableSelected (engine w) entry (frame w)) w)
  | DoExportCSV filename opens =>
      Some (with_frame (OnExportCSVClicked filename opens (frame w)) w)
  | DoPlot x y t rnd =>
      match OnPlotButtonClicked cbrt Atof fmt_g garbage x y t rnd (frame w)
      with
      | Some f => Some (with_frame f w)
      | None => None
      end
  | DoToggleHints => Some (OnToggleHints w)
  | DoChangeFile filename => Some (OnChangeFile filename w)
  end.

Fixpoint session (w : Window) (actions : list Action) : option Window :=
  match actions with
  | [] => Some w
  | a :: rest =>
      match act w a with
      | Some w' => session w' rest
      | None => None
      end
  end.

End Handlers.

(** The texts submitted with the Run button during a session. *)
Fixpoint submitted (actions : list Action) : list string :=
  match actions with
  | [] => []
  | DoRunSQL q :: rest => q :: submitted rest
  | _ :: rest => submitted rest
  end.

(** How many times the hint button was pressed. *)
Fixpoint toggles (actions : list Action) : nat :=
  match actions with
  | [] => 0%nat
  | DoToggleHints :: rest => S (toggles rest)
  | _ :: rest => toggles rest
  end.

(** The stored table is rectangular: every row has one cell per column. *)
Definition rectangular (f : MyMainFrame) : Prop :=
  Forall (fun row => List.length row = List.length (fCurrentTableHeader f))
         (fCurrentTableData f).

(** The hint panel, its flag and its button agree. *)
Definition hints_agree (w : Window) : Prop :=
  fHintWrapper w = fHintsVisible w /\
  fToggleHintsBtn w
  = (if fHintsVisible w then "Hide Examples" else "Show Examples")%string.

End Session.

(** ** Sample sessions *)

Module SessionSamples.

Import TStr PlotUtils Viewer Session.
Local Open Scope string_scope.

Definition server_ab : TSQLServer :=
  {| IsZombie := false; Query := Samples.engine_ab |}.

Definition server_xy : TSQLServer :=
  {| IsZombie := false; Query := Samples.engine_xy |}.

(** Only [good.sqlite] can be opened. *)
Definition Connect (url : string) : option TSQLServer :=
  if String.eqb url "sqlite://good.sqlite" then Some server_xy else None.

(** Every file can be opened. *)
Definition Connect_any (url : string) : option TSQLServer := Some server_xy.

Definition start : Window := opened server_ab "first.sqlite".

(** A table is loaded, the file is changed, the old table is exported. *)
Definition change_then_export : list Action :=
  [DoRunSQL "select 1"; DoChangeFile "good.sqlite";
   DoExportCSV "old" true].

(** A file change fails, then a query is submitted. *)
Definition fail_then_query : list Action :=
  [DoRunSQL "select 1"; DoChangeFile "missing.sqlite";
   DoRunSQL "select 2"].

Definition busy_session : list Action :=
  [DoToggleHints; DoRunSQL "select 1"; DoPlot 1 0 2 5; DoToggleHints;
   DoChangeFile "good.sqlite"; DoRunSQL "drop table x"; DoToggleHints;
   DoSelectTable (Some "t"); DoPlot 1 2 2 6; DoExportCSV "out" true].

End SessionSamples.

(** ** IEEE-754 binary64 *)

Module B64.

Import SpecFloat.
Local Open Scope Q_scope.

(** A [double], in the representation of the standard library: a zero, an
    infinity, the NaN, or the finite number [(-1)^s * m * 2^e].  The
    operations below are those of IEEE 754: on finite operands the exact
    result, computed on rationals, is rounded to the nearest double; the
    cases of zeros, infinities and the NaN are listed. *)
Definition double : Type := spec_float.

Definition pow2 (e : Z) : Q := 2 ^ e.

(** The exact value of a finite double; 0 for the others. *)
Definition B2Q (x : double) : Q :=
  match x with
  | S754_finite s m e =>
      (if s then - inject_Z (Zpos m) else inject_Z (Zpos m)) * pow2 e
  | _ => 0
  end.

(** [floor (log2 x)] for [x > 0]. *)
Definition ilog2 (x : Q) : Z :=
  let l := (Z.log2 (Qnum x) - Z.log2 (Zpos (Qden x)))%Z in
  if Qle_bool (pow2 l) x then l else (l - 1)%Z.

(** The exponent of the last place of a value with [d] binary digits before
    the point: 53 significant bits, and no exponent below -1074. *)
Definition fexp (d : Z) : Z := Z.max (d - 53) (-1074).

(** The nearest integer to [y >= 0], ties to even. *)
Definition rne (y : Q) : Z :=
  let f := Qfloor y in
  match Qcompare (y - inject_Z f) (1 # 2) with
  | Lt => f
  | Gt => (f + 1)%Z
  | Eq => if Z.even f then f else (f + 1)%Z
  end.

(** The double nearest to [x > 0], with sign [s]: ties to even, overflow to
    infinity, underflow through the subnormals to zero. *)
Definition round_pos (s : bool) (x : Q) : double :=
  let e := fexp (ilog2 x + 1) in
  let n := rne (x * pow2 (- e)) in
  let '(n, e) :=
    if (n =? 2 ^ 53)%Z then ((2 ^ 52)%Z, (e + 1)%Z) else (n, e) in
  match n with
  | Zpos m => if (e <=? 971)%Z then S754_finite s m e else S754_infinity s
  | _ => S754_zero s
  end.

(** The value that [round_pos] rounds [x > 0] to, before the overflow test,
    and its extension to every [x]; they serve to state what rounding
    does. *)
Definition rv (x : Q) : Q :=
  let e := fexp (ilog2 x + 1) in
  inject_Z (rne (x * pow2 (- e))) * pow2 e.

Definition rvs (x : Q) : Q :=
  match Qcompare x 0 with
  | Eq => 0
  | Gt => rv x
  | Lt => - rv (- x)
  end.

(** Rounding of an exact result [x]; [zs] is the sign of an exact zero. *)
Definition of_Q (zs : bool) (x : Q) : double :=
  match Qcompare x 0 with
  | Eq => S754_zero zs
  | Gt => round_pos false x
  | Lt => round_pos true (- x)
  end.

Definition sign (x : double) : bool :=
  match x with
  | S754_zero s | S754_infinity s | S754_finite s _ _ => s
  | S754_nan => false
  end.

Definition is_nan (x : double) : bool :=
  match x with S754_nan => true | _ => false end.

Definition is_finite (x : double) : bool :=
  match x with S754_zero _ | S754_finite _ _ _ => true | _ => false end.

(** [x * y]. *)
Definition mul (x y : double) : double :=
  match x, y with
  | S754_nan, _ | _, S754_nan => S754_nan
  | S754_infinity _, S754_zero _ | S754_zero _, S754_infinity _ => S754_nan
  | S754_infinity _, _ | _, S754_infinity _ =>
      S754_infinity (xorb (sign x) (sign y))
  | _, _ => of_Q (xorb (sign x) (sign y)) (B2Q x * B2Q y)
  end.

(** [x / y]. *)
Definition div (x y : double) : double :=
  match x, y with
  | S754_nan, _ | _, S754_nan => S754_nan
  | S754_infinity _, S754_infinity _ => S754_nan
  | S754_zero _, S754_zero _ => S754_nan
  | S754_infinity _, _ => S754_infinity (xorb (sign x) (sign y))
  | _, S754_infinity _ => S754_zero (xorb (sign x) (sign y))
  | _, S754_zero _ => S754_infinity (xorb (sign x) (sign y))
  | _, _ => of_Q (xorb (sign x) (sign y)) (B2Q x / B2Q y)
  end.

(** [x + y]. *)
Definition add (x y : double) : double :=
  match x, y with
  | S754_nan, _ | _, S754_nan => S754_nan
  | S754_infinity sx, S754_infinity sy =>
      if Bool.eqb sx sy then x else S754_nan
  | S754_infinity _, _ => x
  | _, S754_infinity _ => y
  | S754_zero sx, S754_zero sy => S754_zero (sx && sy)
  | _, _ => of_Q false (B2Q x + B2Q y)
  end.

(** [- x] and [x - y]. *)
Definition opp (x : double) : double :=
  match x with
  | S754_nan => S754_nan
  | S754_infinity s => S754_infinity (negb s)
  | S754_zero s => S754_zero (negb s)
  | S754_finite s m e => S754_finite (negb s) m e
  end.

Definition sub (x y : double) : double := add x (opp y).

(** The comparison of two doubles: none when one of them is the NaN; the two
    zeros are equal. *)
Definition compare (x y : double) : option comparison :=
  match x, y with
  | S754_nan, _ | _, S754_nan => None
  | S754_infinity sx, S754_infinity sy =>
      Some (if sx then (if sy then Eq else Lt) else (if sy then Gt else Eq))
  | S754_infinity s, _ => Some (if s then Lt else Gt)
  | _, S754_infinity s => Some (if s then Gt else Lt)
  | _, _ => Some (Qcompare (B2Q x) (B2Q y))
  end.

(** [x < y], [x <= y] and [x == y]. *)
Definition ltb (x y : double) : bool :=
  match compare x y with Some Lt => true | _ => false end.

Definition leb (x y : double) : bool :=
  match compare x y with Some Lt | Some Eq => true | _ => false end.

Definition eqb (x y : double) : bool :=
  match compare x y with Some Eq => true | _ => false end.

(** [std::floor] and [std::ceil]: exact, and the sign of a zero result is
    the sign of the argument. *)
Definition floor (x : double) : double :=
  match x with
  | S754_finite s _ _ => of_Q s (inject_Z (Qfloor (B2Q x)))
  | _ => x
  end.

Definition ceil (x : double) : double :=
  match x with
  | S754_finite s _ _ => of_Q s (inject_Z (Qceiling (B2Q x)))
  | _ => x
  end.

(** The conversion of a [size_t] to [double]. *)
Definition of_size_t (n : Z) : double := of_Q false (inject_Z n).

(** [static_cast<size_t>(x)]: the value truncated toward zero; undefined when
    that is not a value of [size_t] (64 bits), as for the NaN and the
    infinities. *)
Definition to_size_t (x : double) : option Z :=
  match x with
  | S754_zero _ => Some 0%Z
  | S754_finite _ _ _ =>
      let t := Z.quot (Qnum (B2Q x)) (Zpos (Qden (B2Q x))) in
      if ((0 <=? t) && (t <? 2 ^ 64))%Z then Some t else None
  | _ => None
  end.

(** [static_cast<int>(x)], written [(int) x]: the value truncated toward
    zero; undefined when that is not a value of [int] (32 bits), as for the
    NaN and the infinities. *)
Definition to_int (x : double) : option Z :=
  match x with
  | S754_zero _ => Some 0%Z
  | S754_finite _ _ _ =>
      let t := Z.quot (Qnum (B2Q x)) (Zpos (Qden (B2Q x))) in
      if ((Dbl.INT_MIN <=? t) && (t <=? Dbl.INT_MAX))%Z then Some t else None
  | _ => None
  end.

(** [rounds_to r x]: the double [x] stands for the rounded value [r]. *)
Inductive rounds_to (r : Q) : double -> Prop :=
| rounds_finite (x : double) :
    is_finite x = true -> B2Q x == r ->
    - pow2 1024 < r -> r < pow2 1024 -> rounds_to r x
| rounds_pinf : pow2 1024 <= r -> rounds_to r (S754_infinity false)
| rounds_ninf : r <= - pow2 1024 -> rounds_to r (S754_infinity true).

(** The same double, bit for bit. *)
Definition identical (x y : double) : bool :=
  match x, y with
  | S754_nan, S754_nan => true
  | S754_zero a, S754_zero b => Bool.eqb a b
  | S754_infinity a, S754_infinity b => Bool.eqb a b
  | S754_finite a m e, S754_finite b m' e' =>
      Bool.eqb a b && Pos.eqb m m' && Z.eqb e e'
  | _, _ => false
  end.

(** The constants of the source. *)
Definition zero : double := S754_zero false.
Definition one : double := S754_finite false 4503599627370496 (-52).
Definition two : double := S754_finite false 4503599627370496 (-51).
Definition five : double := S754_finite false 5629499534213120 (-50).
Definition ten : double := S754_finite false 5629499534213120 (-49).
Definition d1_5 : double := S754_finite false 6755399441055744 (-52).
Definition three : double := S754_finite false 6755399441055744 (-51).
Definition seven : double := S754_finite false 7881299347898368 (-50).
Definition d0_25 : double := S754_finite false 4503599627370496 (-54).
Definition d0_75 : double := S754_finite false 6755399441055744 (-53).

End B64.

(** ** plot_utils.h over binary64 *)

Module Plot64.

Import SpecFloat B64.

(** [std::sort] on doubles with [operator<]: the ascending arrangement of
    the data.  With a NaN among the data [<] is not a strict weak ordering
    and the call is undefined. *)
Fixpoint insert (x : double) (l : list double) : list double :=
  match l with
  | [] => [x]
  | y :: t => if ltb x y then x :: l else y :: insert x t
  end.

Fixpoint ascending (l : list double) : list double :=
  match l with
  | [] => []
  | x :: t => insert x (ascending t)
  end.

Definition sort (l : list double) : option (list double) :=
  if existsb is_nan l then None else Some (ascending l).

Definition ascends (a b : double) : Prop := leb a b = true.

(** [double GetQuartile(std::vector<double> data, double quartile)].  The
    two casts to [size_t] and the two reads are undefined when the value is
    not an index of the vector. *)
Definition GetQuartile (data : list double) (quartile : double)
    : option double :=
  match data with
  | [] => Some zero
  | _ :: _ =>
      match sort data with
      | None => None
      | Some data =>
          let idx :=
            mul quartile (of_size_t (Z.of_nat (List.length data) - 1)) in
          match to_size_t (floor idx), to_size_t (ceil idx) with
          | Some idx_below, Some idx_above =>
              if (idx_below =? idx_above)%Z
              then PlotUtils.at_index data idx_below
              else
                let fraction := sub idx (of_size_t idx_below) in
                match PlotUtils.at_index data idx_below,
                      PlotUtils.at_index data idx_above with
                | Some lo, Some hi =>
                    Some (add (mul lo (sub one fraction)) (mul hi fraction))
                | _, _ => None
                end
          | _, _ => None
          end
      end
  end.

(** [TMath::MinElement] and [TMath::MaxElement]: the first smallest and the
    first largest element by [<]; undefined on an empty vector. *)
Definition MinElement (a : list double) : option double :=
  match a with
  | [] => None
  | x :: t => Some (fold_left (fun m y => if ltb y m then y else m) t x)
  end.

Definition MaxElement (a : list double) : option double :=
  match a with
  | [] => None
  | x :: t => Some (fold_left (fun m y => if ltb m y then y else m) t x)
  end.

(** [int nBins = (int)((maxVal - minVal) / binWidth);
     if (nBins < 1) nBins = 10;]. *)
Definition NumBins (minVal maxVal binWidth : double) : option Z :=
  match to_int (div (sub maxVal minVal) binWidth) with
  | Some nBins => Some (if (nBins <? 1)%Z then 10%Z else nBins)
  | None => None
  end.

Section Libm.

(** [std::log10], [std::pow] and [std::cbrt], of the C library. *)
Variable log10 : double -> double.
Variable pow : double -> double -> double.
Variable cbrt : double -> double.

(** The chain of comparisons that sets [niceBase]. *)
Definition niceBase (base : double) : double :=
  if ltb base d1_5 then one
  else if ltb base three then two
  else if ltb base seven then five
  else ten.

(** [double RoundToNiceValue(double value)]. *)
Definition RoundToNiceValue (value : double) : double :=
  if leb value zero then one
  else
    let exponent := floor (log10 value) in
    let base := div value (pow ten exponent) in
    mul (niceBase base) (pow ten exponent).

(** [RoundToNiceValue(2 * iqr / std::cbrt(xData.size()))] with the fallback
    [if (binWidth <= 0) binWidth = 1]. *)
Definition BinWidth (data : list double) : option double :=
  match GetQuartile data d0_25, GetQuartile data d0_75 with
  | Some q1, Some q3 =>
      let iqr := sub q3 q1 in
      let rawBinWidth :=
        div (mul two iqr)
            (cbrt (of_size_t (Z.of_nat (List.length data)))) in
      let binWidth := RoundToNiceValue rawBinWidth in
      Some (if leb binWidth zero then one else binWidth)
  | _, _ => None
  end.

End Libm.

End Plot64.

(** ** Sample doubles and a sample C library *)

Module Samples64.

Import PrimFloat.
Import SpecFloat B64 Plot64.
Set Warnings "-inexact-float".

(** The doubles nearest to some decimal numbers. *)
Definition d0_01 : double := FloatOps.Prim2SF 0.01%float.
Definition d0_03 : double := FloatOps.Prim2SF 0.03%float.
Definition d0_05 : double := FloatOps.Prim2SF 0.05%float.
Definition d0_07 : double := FloatOps.Prim2SF 0.07%float.
Definition d0_1 : double := FloatOps.Prim2SF 0.1%float.
Definition d0_2 : double := FloatOps.Prim2SF 0.2%float.
Definition d1_75 : double := FloatOps.Prim2SF 1.75%float.
Definition d2_5 : double := FloatOps.Prim2SF 2.5%float.
Definition d3_25 : double := FloatOps.Prim2SF 3.25%float.
Definition d0_5 : double := FloatOps.Prim2SF 0.5%float.
Definition four : double := FloatOps.Prim2SF 4%float.
Definition minus_two : double := FloatOps.Prim2SF (-2)%float.
Definition d0_1_next : double := FloatOps.Prim2SF 0.10000000000000002%float.
Definition smallest : double := FloatOps.Prim2SF 5e-324%float.

(** What the processor computes on three of them, as the primitive floats
    of the kernel give it. *)
Definition quotient_0_03_by_0_01 : double :=
  FloatOps.Prim2SF (0.03 / 0.01)%float.
Definition product_5_by_0_01 : double :=
  FloatOps.Prim2SF (5 * 0.01)%float.
Definition interpolation_at_0_2 : double :=
  FloatOps.Prim2SF (0.1 * (1 - 0.2) + 0.1 * 0.2)%float.

(** Doubles of every class: zeros, subnormals, the smallest normal, values
    around 1, the largest double, infinities and the NaN. *)
Definition specimens : list double :=
  map FloatOps.Prim2SF
    [0; -0; 5e-324; -1e-310; 2.2250738585072014e-308; 0.01; 0.03; 0.1;
     -0.75; 1; 1.0000000000000002; 3; 1e22; -6.02214076e23;
     1.7976931348623157e308; infinity; neg_infinity; nan]%float.

(** Whether the four operations of [B64] give, on [x] and [y], what the
    operations of the standard library's [SpecFloat] give for binary64. *)
Definition agrees (x y : double) : bool :=
  identical (mul x y) (SFmul 53 1024 x y)
  && identical (div x y) (SFdiv 53 1024 x y)
  && identical (add x y) (SFadd 53 1024 x y)
  && identical (sub x y) (SFsub 53 1024 x y)
  && Bool.eqb (ltb x y) (SFltb x y)
  && Bool.eqb (leb x y) (SFleb x y).

(** The integer that a double is, if it is one. *)
Definition integral (x : double) : option Z :=
  match x with
  | S754_zero _ => Some 0%Z
  | S754_finite _ _ _ =>
      let k := Qfloor (B2Q x) in
      if Qeq_bool (inject_Z k) (B2Q x) then Some k else None
  | _ => None
  end.

(** A stand-in for [std::log10]: on a positive finite argument, the decade
    of the argument, which is the integer part that [RoundToNiceValue]
    keeps of the logarithm; the values of the C library elsewhere. *)
Definition log10 (x : double) : double :=
  match x with
  | S754_zero _ => S754_infinity true
  | S754_infinity false => x
  | S754_finite false _ _ =>
      of_Q false (inject_Z (Dbl.floor_log10 (B2Q x)))
  | _ => S754_nan
  end.

(** A stand-in for [std::pow] with base 10, the only base of the source:
    correctly rounded at every integral exponent. *)
Definition pow (b y : double) : double :=
  match integral y with
  | Some k =>
      if (400 <? k)%Z then S754_infinity false
      else if (k <? - 400)%Z then S754_zero false
      else of_Q false (Dbl.pow10 k)
  | None =>
      match y with
      | S754_infinity false => y
      | S754_infinity true => S754_zero false
      | _ => S754_nan
      end
  end.

(** A stand-in for [std::cbrt]: exact on the cubes up to 1000. *)
Definition cbrt (x : double) : double :=
  match integral x with
  | Some k =>
      match find (fun r => (r * r * r =? k)%Z)
                 [0; 1; 2; 3; 4; 5; 6; 7; 8; 9; 10]%Z with
      | Some r => of_Q false (inject_Z r)
      | None => S754_nan
      end
  | None => S754_nan
  end.

End Samples64.

(** ** Facts about the idealised doubles *)

Module DblFacts.

Import Dbl.
Local Open Scope Q_scope.

Lemma ltb_lt (x y : Q) : ltb x y = true <-> x < y.
Proof.
  unfold ltb. rewrite negb_true_iff.
  split; intro H.
  - apply Qnot_le_lt. intro L. apply Qle_bool_iff in L. congruence.
  - destruct (Qle_bool y x) eqn:E; [|reflexivity].
    apply Qle_bool_iff in E. exfalso. apply (Qlt_not_le _ _ H E).
Qed.

Lemma ltb_ge (x y : Q) : ltb x y = false <-> y <= x.
Proof.
  unfold ltb. rewrite negb_false_iff. apply Qle_bool_iff.
Qed.

Lemma leb_le (x y : Q) : leb x y = true <-> x <= y.
Proof. apply Qle_bool_iff. Qed.

Lemma leb_gt (x y : Q) : leb x y = false <-> y < x.
Proof.
  unfold leb. split; intro H.
  - apply Qnot_le_lt. intro L. apply Qle_bool_iff in L. congruence.
  - destruct (Qle_bool x y) eqn:E; [|reflexivity].
    apply Qle_bool_iff in E. exfalso. apply (Qlt_not_le _ _ H E).
Qed.

Lemma pow10_pos (k : Z) : 0 < pow10 k.
Proof. unfold pow10. apply Qpower_0_lt. reflexivity. Qed.

Lemma pow10_nonneg_Z (j : Z) : (0 <= j)%Z -> pow10 j == inject_Z (10 ^ j).
Proof.
  intro H. unfold pow10. rewrite Zpower_Qpower by assumption. reflexivity.
Qed.

Lemma pow10_neg_Z (j : Z) : (0 <= j)%Z -> pow10 (- j) == / inject_Z (10 ^ j).
Proof.
  intro H. unfold pow10. rewrite Qpower_opp.
  rewrite Zpower_Qpower by assumption. reflexivity.
Qed.

(** A decade determines its exponent. *)
Lemma decade_unique (v : Q) (k k' : Z) :
  pow10 k <= v -> v < pow10 (k + 1) ->
  pow10 k' <= v -> v < pow10 (k' + 1) -> k = k'.
Proof.
  unfold pow10. intros A B C D.
  assert (H1 : (k < k' + 1)%Z).
  { apply (Qpower_lt_compat_l_inv 10); [|reflexivity].
    eapply Qle_lt_trans; eassumption. }
  assert (H2 : (k' < k + 1)%Z).
  { apply (Qpower_lt_compat_l_inv 10); [|reflexivity].
    eapply Qle_lt_trans; eassumption. }
  lia.
Qed.

Lemma log10_up_spec (fuel : nat) :
  forall n d k : Z,
    (0 < d)%Z -> (d <= n)%Z -> (n < d * 10 ^ Z.of_nat fuel)%Z ->
    exists j : Z,
      (0 <= j)%Z /\ log10_up fuel n d k = (k + j)%Z /\
      (d * 10 ^ j <= n)%Z /\ (n < d * 10 ^ (j + 1))%Z.
Proof.
  induction fuel as [|f IH]; intros n d k Hd Hle Hlt.
  - simpl in Hlt. lia.
  - cbn [log10_up]. destruct (Z.leb_spec (10 * d) n) as [L|L].
    + destruct (IH n (10 * d)%Z (k + 1)%Z) as (j & Hj & E & A & B).
      * lia.
      * assumption.
      * rewrite Nat2Z.inj_succ, Z.pow_succ_r in Hlt by lia. lia.
      * exists (j + 1)%Z. repeat split.
        -- lia.
        -- rewrite E. lia.
        -- rewrite Z.pow_add_r by lia. change (10 ^ 1)%Z with 10%Z. lia.
        -- rewrite (Z.pow_add_r 10 (j + 1) 1) by lia.
           change (10 ^ 1)%Z with 10%Z.
           rewrite (Z.pow_add_r 10 j 1) in B |- * by lia.
           change (10 ^ 1)%Z with 10%Z in B |- *. lia.
    + exists 0%Z. repeat split; lia.
Qed.

Lemma log10_down_spec (f : nat) :
  forall n d k : Z,
    (0 < n)%Z -> (d <= n * 10 ^ Z.of_nat f)%Z ->
    exists j : Z,
      (0 <= j)%Z /\ log10_down (S f) n d k = (k - j)%Z /\
      (d <= n * 10 ^ j)%Z /\ (j = 0%Z \/ (n * 10 ^ (j - 1) < d)%Z).
Proof.
  induction f as [|f IH]; intros n d k Hn Hle.
  - cbn [log10_down]. simpl in Hle.
    destruct (Z.ltb_spec n d) as [L|L]; [lia|].
    exists 0%Z. repeat split; lia.
  - remember (S f) as sf. cbn [log10_down].
    destruct (Z.ltb_spec n d) as [L|L].
    + subst sf. destruct (IH (10 * n)%Z d (k - 1)%Z) as (j & Hj & E & A & B).
      * lia.
      * rewrite Nat2Z.inj_succ, Z.pow_succ_r in Hle by lia. lia.
      * exists (j + 1)%Z. repeat split.
        -- lia.
        -- rewrite E. lia.
        -- rewrite Z.pow_add_r by lia. change (10 ^ 1)%Z with 10%Z. lia.
        -- right. replace (j + 1 - 1)%Z with j by lia.
           destruct B as [B|B].
           ++ subst j. simpl. lia.
           ++ destruct (Z.eq_dec j 0) as [->|Hj0]; [simpl; lia|].
              assert (P : (10 ^ j = 10 * 10 ^ (j - 1))%Z).
              { rewrite <- Z.pow_succ_r by lia. f_equal. lia. }
              rewrite P. lia.
    + exists 0%Z. repeat split; lia.
Qed.

Lemma pow2_le_pow10 (a : Z) : (0 <= a)%Z -> (2 ^ a <= 10 ^ a)%Z.
Proof. intro H. apply Z.pow_le_mono_l. lia. Qed.

(** The computed decade is the right one: enough fuel is always given. *)
Lemma floor_log10_spec (v : Q) :
  0 < v ->
  pow10 (floor_log10 v) <= v /\ v < pow10 (floor_log10 v + 1).
Proof.
  destruct v as [n d]. intro Hv.
  assert (Hn : (0 < n)%Z).
  { unfold Qlt in Hv. simpl in Hv. lia. }
  unfold floor_log10. cbn [Qnum Qden].
  destruct (Z.leb_spec (Z.pos d) n) as [L|L].
  - destruct (log10_up_spec (S (Z.to_nat (Z.log2 n))) n (Z.pos d) 0)
      as (j & Hj & E & A & B); try lia.
    { assert (H2 : (n < 2 ^ Z.succ (Z.log2 n))%Z)
        by (apply Z.log2_spec; lia).
      assert (H0 : (0 <= Z.log2 n)%Z) by apply Z.log2_nonneg.
      rewrite Nat2Z.inj_succ, Z2Nat.id by lia.
      pose proof (pow2_le_pow10 (Z.succ (Z.log2 n)) ltac:(lia)).
      nia. }
    rewrite E. cbn [Z.add].
    rewrite !pow10_nonneg_Z by lia.
    unfold Qle, Qlt, inject_Z. cbn [Qnum Qden]. lia.
  - destruct (log10_down_spec (S (Z.to_nat (Z.log2 (Z.pos d)))) n (Z.pos d) 0)
      as (j & Hj & E & A & B); try lia.
    { assert (H2 : (Z.pos d < 2 ^ Z.succ (Z.log2 (Z.pos d)))%Z)
        by (apply Z.log2_spec; lia).
      assert (H0 : (0 <= Z.log2 (Z.pos d))%Z) by apply Z.log2_nonneg.
      rewrite Nat2Z.inj_succ, Z2Nat.id by lia.
      pose proof (pow2_le_pow10 (Z.succ (Z.log2 (Z.pos d))) ltac:(lia)).
      nia. }
    rewrite E. cbn [Z.sub Z.add Z.opp].
    destruct B as [B|B].
    { subst j. simpl in A. lia. }
    assert (Hj1 : (1 <= j)%Z).
    { destruct (Z.eq_dec j 0) as [->|]; [simpl in A; lia | lia]. }
    assert (P1 : (0 < 10 ^ j)%Z) by (apply Z.pow_pos_nonneg; lia).
    assert (P2 : (0 < 10 ^ (j - 1))%Z) by (apply Z.pow_pos_nonneg; lia).
    split.
    + rewrite (pow10_neg_Z j Hj).
      apply Qle_shift_inv_r.
      * unfold Qlt, inject_Z. cbn [Qnum Qden]. lia.
      * unfold Qle, Qmult, inject_Z. cbn [Qnum Qden]. lia.
    + replace (- j + 1)%Z with (- (j - 1))%Z by lia.
      rewrite (pow10_neg_Z (j - 1) ltac:(lia)).
      apply Qlt_shift_inv_l.
      * unfold Qlt, inject_Z. cbn [Qnum Qden]. lia.
      * unfold Qlt, Qmult, inject_Z. cbn [Qnum Qden]. lia.
Qed.

(** On a decade, [floor_log10] is the decade's exponent. *)
Lemma floor_log10_decade (v : Q) (k : Z) :
  pow10 k <= v -> v < pow10 (k + 1) -> floor_log10 v = k.
Proof.
  intros A B.
  assert (Hv : 0 < v) by (eapply Qlt_le_trans; [apply (pow10_pos k) | exact A]).
  destruct (floor_log10_spec v Hv) as [C D].
  eapply decade_unique; eassumption.
Qed.

End DblFacts.

(** ** Facts about plot_utils.h *)

Module PlotFacts.

Import Dbl DblFacts TStr PlotUtils.
Local Open Scope Q_scope.





(** *** Sorting *)

Lemma insert_length (x : Q) (l : list Q) :
  List.length (insert x l) = S (List.length l).
Proof.
  induction l as [|y t IH]; simpl; [reflexivity|].
  destruct (leb x y); simpl; congruence.
Qed.

Lemma sort_length (l : list Q) : List.length (sort l) = List.length l.
Proof.
  induction l as [|x t IH]; simpl; [reflexivity|].
  rewrite insert_length. congruence.
Qed.

Lemma insert_perm (x : Q) (l : list Q) : Permutation (insert x l) (x :: l).
Proof.
  induction l as [|y t IH]; simpl; [reflexivity|].
  destruct (leb x y); [reflexivity|].
  rewrite IH. apply perm_swap.
Qed.

Lemma sort_perm (l : list Q) : Permutation (sort l) l.
Proof.
  induction l as [|x t IH]; simpl; [reflexivity|].
  rewrite insert_perm. now constructor.
Qed.

Lemma insert_sorted (x : Q) (l : list Q) :
  Sorted Qle l -> Sorted Qle (insert x l).
Proof.
  induction l as [|y t IH]; intro S; simpl.
  - repeat constructor.
  - destruct (leb x y) eqn:E.
    + apply leb_le in E. constructor; [assumption|]. now constructor.
    + apply leb_gt in E. inversion S as [|? ? St Hd]; subst.
      constructor; [now apply IH|].
      destruct t as [|z t']; simpl.
      * constructor. lra.
      * destruct (leb x z); constructor.
        -- lra.
        -- now inversion Hd.
Qed.

Lemma sort_sorted (l : list Q) : Sorted Qle (sort l).
Proof.
  induction l as [|x t IH]; simpl; [constructor|].
  now apply insert_sorted.
Qed.

(** *** Reads inside a vector *)

Lemma at_index_nth {A : Type} (v : list A) (i : Z) (d : A) :
  (0 <= i < Z.of_nat (List.length v))%Z ->
  at_index v i = Some (nth (Z.to_nat i) v d).
Proof.
  intros [H0 H1]. unfold at_index.
  destruct (Z.ltb_spec i 0); [lia|].
  destruct (Z.leb_spec (Z.of_nat (List.length v)) i); [lia|].
  cbn [orb]. apply nth_error_nth'. lia.
Qed.

(** *** The fractional rank *)

Lemma rank_bounds (idx : Q) (n : Z) :
  0 <= idx -> idx <= inject_Z (n - 1) ->
  (0 <= floor idx)%Z /\ (floor idx <= ceil idx)%Z /\
  (ceil idx <= floor idx + 1)%Z /\ (ceil idx <= n - 1)%Z.
Proof.
  intros I0 I1.
  unfold floor, ceil.
  pose proof (Qfloor_le idx) as F1.
  pose proof (Qlt_floor idx) as F2.
  pose proof (Qle_ceiling idx) as C1.
  pose proof (Qceiling_lt idx) as C2.
  repeat split.
  - change 0%Z with (Qfloor 0). apply Qfloor_resp_le. exact I0.
  - rewrite Zle_Qle. lra.
  - assert (H : inject_Z (Qceiling idx - 1) < inject_Z (Qfloor idx + 1))
      by lra.
    rewrite <- Zlt_Qlt in H. lia.
  - rewrite <- (Qceiling_Z (n - 1)). apply Qceiling_resp_le. exact I1.
Qed.

(** A quantile in [[0, 1]] has its fractional rank among the ranks. *)
Lemma unit_rank (q : Q) (n : Z) :
  (1 <= n)%Z -> 0 <= q -> q <= 1 ->
  0 <= q * inject_Z (n - 1) /\ q * inject_Z (n - 1) <= inject_Z (n - 1).
Proof.
  intros Hn H0 H1.
  assert (HN : 0 <= inject_Z (n - 1)).
  { change 0 with (inject_Z 0). rewrite <- Zle_Qle. lia. }
  split.
  - apply Qmult_le_0_compat; assumption.
  - rewrite <- (Qmult_1_l (inject_Z (n - 1))) at 2.
    apply Qmult_le_compat_r; assumption.
Qed.

(** [GetQuartile] on non-empty data, when the fractional rank lies among the
    ranks [0 .. n-1], reads inside the vector, and its result is the
    specification's interpolation. *)
Lemma GetQuartile_spec (data : list Q) (q : Q) :
  data <> [] ->
  0 <= q * inject_Z (Z.of_nat (List.length data) - 1) ->
  q * inject_Z (Z.of_nat (List.length data) - 1)
    <= inject_Z (Z.of_nat (List.length data) - 1) ->
  exists r, GetQuartile data q = Some r /\ r == Spec.quantile data q.
Proof.
  intros Hne H0 H1.
  destruct data as [|x t]; [congruence|]. clear Hne.
  unfold GetQuartile, Spec.quantile.
  set (data := x :: t) in *.
  rewrite sort_length.
  set (n := Z.of_nat (List.length data)) in *.
  set (idx := q * inject_Z (n - 1)) in *.
  destruct (rank_bounds idx n H0 H1) as (B0 & B1 & B2 & B3).
  assert (Ls : Z.of_nat (List.length (sort data)) = n)
    by (rewrite sort_length; reflexivity).
  change (Qfloor idx) with (floor idx).
  rewrite (at_index_nth (sort data) (floor idx) 0) by lia.
  destruct (Z.eqb_spec (floor idx) (ceil idx)) as [E|E].
  - eexists. split; [reflexivity|].
    assert (Hidx : idx == inject_Z (floor idx)).
    { pose proof (Qfloor_le idx) as F. pose proof (Qle_ceiling idx) as C.
      unfold floor, ceil in *. rewrite <- E in C.
      apply Qle_antisym; assumption. }
    assert (D : idx - inject_Z (floor idx) == 0) by lra.
    rewrite D. ring.
  - assert (E' : ceil idx = (floor idx + 1)%Z) by lia.
    rewrite (at_index_nth (sort data) (ceil idx) 0) by lia.
    eexists. split; [reflexivity|].
    rewrite E'. ring.
Qed.




(** The two column names of the specification's examples. *)
Example FormatAxisLabel_unit :
  FormatAxisLabel "energy__MeV" = "energy (MeV)"%string /\
  ExtractUnit "energy__MeV" = "MeV"%string.
Proof. split; reflexivity. Qed.

Example FormatAxisLabel_plain :
  FormatAxisLabel "count" = "count"%string /\
  ExtractUnit "count" = EmptyString.
Proof. split; reflexivity. Qed.


End PlotFacts.

(** ** Properties of the plot arithmetic *)

Module PlotTheorems.

Import Dbl DblFacts TStr PlotUtils PlotFacts.
Local Open Scope Q_scope.



(** C10.  For every [v <= 0], [RoundToNiceValue v] is exactly 1; this covers
    the raw bin width 0 of a series whose interquartile range is 0, for
    which the bin width is 1. *)
Theorem RoundToNiceValue_nonpositive :
  (forall v : Q, v <= 0 -> RoundToNiceValue v = 1) /\
  (forall (cbrt : Q -> Q) (data : list Q) (q1 q3 : Q),
     GetQuartile data (1 # 4) = Some q1 ->
     GetQuartile data (3 # 4) = Some q3 ->
     q3 - q1 == 0 ->
     BinWidth cbrt data = Some 1).
Proof.
  assert (R : forall v : Q, v <= 0 -> RoundToNiceValue v = 1).
  { intros v Hv. unfold RoundToNiceValue.
    assert (L : leb v 0 = true) by (apply leb_le; exact Hv).
    rewrite L. reflexivity. }
  split; [exact R|].
  intros cbrt data q1 q3 E1 E3 Hiqr.
  unfold BinWidth. rewrite E1, E3.
  rewrite R; [reflexivity|].
  rewrite Hiqr. unfold Qdiv. rewrite Qmult_0_r, Qmult_0_l. apply Qle_refl.
Qed.

Lemma RoundToNiceValue_nonpositive_witness :
  RoundToNiceValue (- 3) = 1 /\ RoundToNiceValue 0 = 1 /\
  BinWidth (fun _ => 3 # 2) [2; 2; 2; 2] = Some 1.
Proof.
  split; [|split].
  - apply (proj1 RoundToNiceValue_nonpositive (- 3)).
    apply Qle_bool_imp_le. reflexivity.
  - apply (proj1 RoundToNiceValue_nonpositive 0).
    apply Qle_bool_imp_le. reflexivity.
  - eapply (proj2 RoundToNiceValue_nonpositive (fun _ => 3 # 2) [2; 2; 2; 2]).
    + reflexivity.
    + reflexivity.
    + vm_compute. reflexivity.
Defined.

End PlotTheorems.

(** ** Facts about the handlers *)

Module ViewerFacts.

Import TStr PlotUtils Viewer.
Local Open Scope nat_scope.

(** *** Strings *)

Lemma append_nil_r (s : string) : (s ++ EmptyString)%string = s.
Proof. induction s as [|c t IH]; simpl; congruence. Qed.

Lemma append_assoc (a b c : string) :
  ((a ++ b) ++ c)%string = (a ++ (b ++ c))%string.
Proof. induction a as [|x t IH]; simpl; congruence. Qed.

(** *** CSV lines *)

Lemma write_cells_concat (cells : list string) :
  forall i : nat,
    write_cells (i + List.length cells) i cells =
    String.concat "," (map (fun c => dquote ++ c ++ dquote)%string cells).
Proof.
  induction cells as [|c rest IH]; intro i; [reflexivity|].
  cbn [write_cells map String.concat List.length].
  destruct rest as [|c2 rest2].
  - cbn [List.length map write_cells].
    destruct (Nat.ltb_spec i (i + 1 - 1)) as [L|L]; [lia|].
    cbn [append]. rewrite append_nil_r. reflexivity.
  - destruct (Nat.ltb_spec i (i + S (List.length (c2 :: rest2)) - 1))
      as [L|L]; [|cbn [List.length] in L; lia].
    replace (i + S (List.length (c2 :: rest2)))
      with (S i + List.length (c2 :: rest2)) by lia.
    rewrite IH. cbn [map].
    rewrite !append_assoc. reflexivity.
Qed.

Lemma write_line_spec (cells : list string) :
  write_line cells = Spec.csv_line cells.
Proof.
  unfold write_line, Spec.csv_line.
  pose proof (write_cells_concat cells 0) as E. cbn [Nat.add] in E.
  rewrite E. reflexivity.
Qed.

Lemma concat_empty_cons (x : string) (xs : list string) :
  String.concat EmptyString (x :: xs) =
  (x ++ String.concat EmptyString xs)%string.
Proof.
  destruct xs as [|y ys]; cbn [String.concat].
  - rewrite append_nil_r. reflexivity.
  - reflexivity.
Qed.

Lemma csv_output_fold (data : list (list string)) :
  forall acc : string,
    fold_left (fun out row => (out ++ write_line row)%string) data acc =
    (acc ++ String.concat EmptyString (map Spec.csv_line data))%string.
Proof.
  induction data as [|row rest IH]; intro acc.
  - cbn [fold_left map String.concat]. rewrite append_nil_r. reflexivity.
  - cbn [fold_left map]. rewrite IH, concat_empty_cons, write_line_spec.
    rewrite append_assoc. reflexivity.
Qed.

Lemma csv_output_spec (header : list string) (data : list (list string)) :
  csv_output header data = Spec.csv header data.
Proof.
  unfold csv_output, Spec.csv. rewrite csv_output_fold.
  cbn [map]. rewrite concat_empty_cons, write_line_spec. reflexivity.
Qed.

(** *** The history buffer *)

Lemma push_history_recent (q : string) (h : list string) :
  List.length h <= kMaxQueryHistory ->
  push_history q h = Spec.most_recent kMaxQueryHistory (h ++ [q]).
Proof.
  intro Hlen. unfold push_history, Spec.most_recent.
  rewrite length_app. cbn [List.length].
  destruct (Nat.ltb_spec kMaxQueryHistory (List.length h + 1)) as [L|L].
  - replace (List.length h + 1 - kMaxQueryHistory) with 1 by lia.
    destruct h as [|x t]; [simpl in L; unfold kMaxQueryHistory in L; lia|].
    reflexivity.
  - replace (List.length h + 1 - kMaxQueryHistory) with 0 by lia.
    reflexivity.
Qed.

Lemma most_recent_length {A : Type} (k : nat) (l : list A) :
  List.length (Spec.most_recent k l) <= k.
Proof. unfold Spec.most_recent. rewrite length_skipn. lia. Qed.

Lemma most_recent_app {A : Type} (k : nat) (l m : list A) :
  Spec.most_recent k (Spec.most_recent k l ++ m) = Spec.most_recent k (l ++ m).
Proof.
  unfold Spec.most_recent.
  rewrite !length_app, length_skipn.
  destruct (Nat.le_gt_cases (List.length l) k) as [L|L].
  - replace (List.length l - k) with 0 by lia. cbn [skipn].
    rewrite Nat.sub_0_r. reflexivity.
  - replace (List.length l - (List.length l - k) + List.length m - k)
      with (List.length m) by lia.
    replace (List.length l + List.length m - k)
      with (List.length m + (List.length l - k)) by lia.
    rewrite <- skipn_skipn.
    rewrite (skipn_app (List.length l - k) l m).
    replace (List.length l - k - List.length l) with 0 by lia.
    reflexivity.
Qed.

Section Frames.

Variable Query : string -> option TSQLResult.
Variable cbrt : Q -> Q.
Variable Atof : string -> Q.
Variable fmt_g : Q -> string.
Variable garbage : Q -> Z.

Lemma OnRunSQLClicked_history (q : string) (st : MyMainFrame) :
  fQueryHistory (OnRunSQLClicked Query q st) =
  push_history q (fQueryHistory st).
Proof.
  unfold OnRunSQLClicked, LoadQueryResultsToTable.
  destruct (negb (BeginsWith (ToLower q) "select")); [reflexivity|].
  destruct (Query q); reflexivity.
Qed.

Lemma OnRunSQLClicked_pool (q : string) (st : MyMainFrame) :
  let st' := OnRunSQLClicked Query q st in
  fCanvasQueue st' = fCanvasQueue st /\ windows st' = windows st /\
  created st' = created st.
Proof.
  unfold OnRunSQLClicked, LoadQueryResultsToTable.
  destruct (negb (BeginsWith (ToLower q) "select"));
    [repeat split|].
  destruct (Query q); repeat split.
Qed.

Lemma OnTableSelected_frame (entry : option string) (st : MyMainFrame) :
  let st' := OnTableSelected Query entry st in
  fQueryHistory st' = fQueryHistory st /\
  fCanvasQueue st' = fCanvasQueue st /\ windows st' = windows st /\
  created st' = created st.
Proof.
  unfold OnTableSelected, LoadQueryResultsToTable.
  destruct entry as [name|]; [|repeat split].
  destruct (String.eqb name "Custom"); [repeat split|].
  match goal with |- context [Query ?x] => destruct (Query x) end;
    repeat split.
Qed.

Lemma OnExportCSVClicked_frame (filename : string) (opens : bool)
    (st : MyMainFrame) :
  let st' := OnExportCSVClicked filename opens st in
  fQueryHistory st' = fQueryHistory st /\
  fCanvasQueue st' = fCanvasQueue st /\ windows st' = windows st /\
  created st' = created st.
Proof.
  unfold OnExportCSVClicked.
  destruct (fCurrentTableData st); [repeat split|].
  destruct (IsNull filename); [repeat split|].
  destruct (negb opens); repeat split.
Qed.

Lemma OnPlotButtonClicked_history (x y t : Z) (rnd : N)
    (st st' : MyMainFrame) :
  OnPlotButtonClicked cbrt Atof fmt_g garbage x y t rnd st = Some st' ->
  fQueryHistory st' = fQueryHistory st.
Proof.
  unfold OnPlotButtonClicked.
  destruct (_ || _)%bool; [intro E; injection E as <-; reflexivity|].
  destruct (pr_drawn _); intro E; try discriminate;
    injection E as <-; reflexivity.
Qed.

(** *** The series of a column *)

Lemma collect_x_length (tableData : list (list string)) (xIndex : Z) :
  List.length (collect_x Atof tableData xIndex) = valid_count tableData xIndex.
Proof.
  unfold valid_count.
  induction tableData as [|row rest IH]; [reflexivity|].
  cbn [collect_x filter]. destruct (cell_valid row xIndex); simpl; congruence.
Qed.


(** *** The plot-window pool *)

Lemma PlotSelectedData_rotation
    (tableData : list (list string)) (tableHeader : list string)
    (xIndex yIndex plotType : Z) (canvasQueue : list TCanvas)
    (maxCanvases : nat) (newCanvas : TCanvas) :
  let r := PlotSelectedData cbrt Atof fmt_g garbage tableData tableHeader
             xIndex yIndex plotType canvasQueue maxCanvases newCanvas in
  pr_canvasQueue r = fst (rotate_canvases canvasQueue maxCanvases newCanvas) /\
  pr_windows r = snd (rotate_canvases canvasQueue maxCanvases newCanvas).
Proof.
  unfold PlotSelectedData.
  destruct (rotate_canvases canvasQueue maxCanvases newCanvas) as [q w].
  split; reflexivity.
Qed.

Lemma rotate_full (old : TCanvas) (rest : list TCanvas) (n : nat)
    (newCanvas : TCanvas) :
  n <= List.length (old :: rest) ->
  rotate_canvases (old :: rest) n newCanvas =
  (rest ++ [newCanvas], [WinClose old; WinDelete old; WinNew newCanvas]).
Proof.
  intro H. unfold rotate_canvases.
  destruct (Nat.leb_spec n (List.length (old :: rest))); [reflexivity | lia].
Qed.

Lemma rotate_room (queue : list TCanvas) (n : nat) (newCanvas : TCanvas) :
  List.length queue < n ->
  rotate_canvases queue n newCanvas = (queue ++ [newCanvas], [WinNew newCanvas]).
Proof.
  intro H. unfold rotate_canvases.
  destruct (Nat.leb_spec n (List.length queue)); [lia | reflexivity].
Qed.

Lemma filter_other_canvases (c : TCanvas) (l : list TCanvas) :
  ~ In (cv_serial c) (map cv_serial l) ->
  filter (fun d => negb (same_canvas c d)) l = l.
Proof.
  induction l as [|d t IH]; intro H; [reflexivity|].
  cbn [filter]. unfold same_canvas at 1.
  destruct (Nat.eqb_spec (cv_serial c) (cv_serial d)) as [E|E].
  - exfalso. apply H. left. symmetry. exact E.
  - cbn [negb]. f_equal. apply IH. intro I. apply H. right. exact I.
Qed.

Lemma close_oldest (old : TCanvas) (rest : list TCanvas) :
  NoDup (map cv_serial (old :: rest)) ->
  apply_win (old :: rest) (WinClose old) = rest.
Proof.
  intro ND. inversion ND as [|? ? Hnotin Hnd]; subst.
  cbn [apply_win filter]. unfold same_canvas at 1.
  rewrite Nat.eqb_refl. cbn [negb].
  now apply filter_other_canvases.
Qed.

Lemma open_windows_app (log ext : list WinEvent) :
  open_windows (log ++ ext) = fold_left apply_win ext (open_windows log).
Proof. unfold open_windows. apply fold_left_app. Qed.

Lemma open_prefix_app (log ext : list WinEvent) (k : nat) :
  open_windows (firstn k (log ++ ext)) =
  if k <=? List.length log then open_windows (firstn k log)
  else fold_left apply_win (firstn (k - List.length log) ext)
         (open_windows log).
Proof.
  rewrite firstn_app, open_windows_app.
  destruct (Nat.leb_spec k (List.length log)) as [L|L].
  - replace (k - List.length log) with 0 by lia. reflexivity.
  - rewrite (@firstn_all2 _ k log) by lia. reflexivity.
Qed.

Lemma PoolInv_frame (st st' : MyMainFrame) :
  fCanvasQueue st' = fCanvasQueue st -> windows st' = windows st ->
  created st' = created st -> PoolInv st -> PoolInv st'.
Proof.
  intros Eq Ew Ec [L O F N P].
  constructor; rewrite ?Eq, ?Ew, ?Ec; assumption.
Qed.

Lemma PoolInv_init : PoolInv init.
Proof.
  constructor; cbn.
  - unfold kMaxCanvases. lia.
  - reflexivity.
  - constructor.
  - constructor.
  - intro k. destruct k; cbn; unfold kMaxCanvases; lia.
Qed.

Lemma PoolInv_plot (r : PlotResult) (rnd : N) (st : MyMainFrame) :
  let newCanvas := {| cv_serial := created st; cv_rnd := rnd |} in
  pr_canvasQueue r =
    fst (rotate_canvases (fCanvasQueue st) kMaxCanvases newCanvas) ->
  pr_windows r =
    snd (rotate_canvases (fCanvasQueue st) kMaxCanvases newCanvas) ->
  PoolInv st -> PoolInv (set_plot r st).
Proof.
  intros newCanvas Eq Ew [L O F N P].
  assert (Fresh : ~ In (created st) (map cv_serial (fCanvasQueue st))).
  { intro I. apply in_map_iff in I. destruct I as (c & E & I).
    rewrite Forall_forall in F. specialize (F c I). lia. }
  assert (F' : Forall (fun c => cv_serial c < S (created st))
                 (fCanvasQueue st)).
  { eapply Forall_impl; [|exact F]. cbn. intros; lia. }
  destruct (Nat.le_gt_cases kMaxCanvases (List.length (fCanvasQueue st)))
    as [Full|Room].
  - destruct (fCanvasQueue st) as [|old rest] eqn:EQ.
    { cbn in Full. unfold kMaxCanvases in Full. lia. }
    rewrite rotate_full in Eq, Ew by exact Full. cbn [fst snd] in Eq, Ew.
    assert (Lr : List.length rest < kMaxCanvases) by (cbn in L; lia).
    assert (Nr : NoDup (map cv_serial rest)) by (now inversion N).
    assert (Fr : ~ In (created st) (map cv_serial rest)).
    { intro I. apply Fresh. right. exact I. }
    constructor; cbn [set_plot fCanvasQueue windows created]; rewrite ?Eq, ?Ew.
    + rewrite length_app. cbn. lia.
    + rewrite open_windows_app, O. cbn [fold_left].
      rewrite close_oldest by exact N. reflexivity.
    + apply Forall_app. split.
      * now inversion F'.
      * constructor; [cbn; lia | constructor].
    + rewrite map_app. cbn [map].
      apply (Permutation_NoDup (Permutation_cons_append _ _)).
      constructor; assumption.
    + intro k. rewrite open_prefix_app.
      destruct (k <=? List.length (windows st)); [apply P|].
      rewrite O.
      destruct (k - List.length (windows st)) as [|[|[|j]]];
        cbn [firstn fold_left]; rewrite ?close_oldest by exact N;
        cbn [apply_win]; rewrite ?firstn_nil; cbn [fold_left];
        rewrite ?length_app; cbn [List.length]; lia.
  - rewrite rotate_room in Eq, Ew by exact Room. cbn [fst snd] in Eq, Ew.
    constructor; cbn [set_plot fCanvasQueue windows created]; rewrite ?Eq, ?Ew.
    + rewrite length_app. cbn. lia.
    + rewrite open_windows_app, O. reflexivity.
    + apply Forall_app. split; [exact F'|].
      constructor; [cbn; lia | constructor].
    + rewrite map_app. cbn [map].
      apply (Permutation_NoDup (Permutation_cons_append _ _)).
      constructor; assumption.
    + intro k. rewrite open_prefix_app.
      destruct (k <=? List.length (windows st)); [apply P|].
      rewrite O.
      destruct (k - List.length (windows st)) as [|j];
        cbn [firstn fold_left apply_win]; rewrite ?firstn_nil;
        cbn [fold_left]; rewrite ?length_app; cbn [List.length]; lia.
Qed.

Lemma PoolInv_step (st st' : MyMainFrame) (e : Event) :
  step Query cbrt Atof fmt_g garbage st e = Some st' ->
  PoolInv st -> PoolInv st'.
Proof.
  destruct e as [q|entry|filename opens|x y t rnd]; cbn [step]; intro E.
  - injection E as <-.
    destruct (OnRunSQLClicked_pool q st) as (A & B & C).
    now apply PoolInv_frame.
  - injection E as <-.
    destruct (OnTableSelected_frame entry st) as (_ & A & B & C).
    now apply PoolInv_frame.
  - injection E as <-.
    destruct (OnExportCSVClicked_frame filename opens st) as (_ & A & B & C).
    now apply PoolInv_frame.
  - unfold OnPlotButtonClicked in E.
    destruct (_ || _)%bool.
    { injection E as <-. now apply PoolInv_frame. }
    match type of E with context [pr_drawn ?r] => set (R := r) in * end.
    destruct (PlotSelectedData_rotation
                (fCurrentTableData st) (fCurrentTableHeader st)
                (x - 1) (y - 1) t (fCanvasQueue st) kMaxCanvases
                {| cv_serial := created st; cv_rnd := rnd |}) as [A B].
    fold R in A, B.
    destruct (pr_drawn R); try discriminate; injection E as <-;
      now apply PoolInv_plot with (rnd := rnd).
Qed.

Lemma PoolInv_run (events : list Event) :
  forall st st' : MyMainFrame,
    run Query cbrt Atof fmt_g garbage st events = Some st' ->
    PoolInv st -> PoolInv st'.
Proof.
  induction events as [|e rest IH]; intros st st' E I; cbn [run] in E.
  - injection E as <-. exact I.
  - destruct (step Query cbrt Atof fmt_g garbage st e) as [st1|] eqn:S1;
      [|discriminate].
    eapply IH; [exact E|]. eapply PoolInv_step; eassumption.
Qed.

(** *** The history along a run *)

Lemma step_history (st st' : MyMainFrame) (e : Event) :
  step Query cbrt Atof fmt_g garbage st e = Some st' ->
  fQueryHistory st' =
  match e with
  | RunSQL q => push_history q (fQueryHistory st)
  | _ => fQueryHistory st
  end.
Proof.
  destruct e as [q|entry|filename opens|x y t rnd]; cbn [step]; intro E.
  - injection E as <-. apply OnRunSQLClicked_history.
  - injection E as <-. apply (OnTableSelected_frame entry st).
  - injection E as <-. apply (OnExportCSVClicked_frame filename opens st).
  - eapply OnPlotButtonClicked_history. exact E.
Qed.

Lemma run_history (events : list Event) :
  forall st st' : MyMainFrame,
    List.length (fQueryHistory st) <= kMaxQueryHistory ->
    run Query cbrt Atof fmt_g garbage st events = Some st' ->
    fQueryHistory st' =
    Spec.most_recent kMaxQueryHistory (fQueryHistory st ++ submissions events).
Proof.
  induction events as [|e rest IH]; intros st st' L E; cbn [run] in E.
  - injection E as <-. cbn [submissions]. rewrite app_nil_r.
    unfold Spec.most_recent.
    replace (List.length (fQueryHistory st) - kMaxQueryHistory) with 0 by lia.
    reflexivity.
  - destruct (step Query cbrt Atof fmt_g garbage st e) as [st1|] eqn:S1;
      [|discriminate].
    pose proof (step_history st st1 e S1) as H1.
    destruct e as [q|entry|filename opens|x y t rnd]; cbn [submissions].
    + rewrite (IH st1 st'); [|rewrite H1, push_history_recent by exact L;
                               apply most_recent_length | exact E].
      rewrite H1, push_history_recent by exact L.
      rewrite most_recent_app, <- app_assoc. reflexivity.
    + rewrite (IH st1 st'); [rewrite H1; reflexivity
                            | rewrite H1; exact L | exact E].
    + rewrite (IH st1 st'); [rewrite H1; reflexivity
                            | rewrite H1; exact L | exact E].
    + rewrite (IH st1 st'); [rewrite H1; reflexivity
                            | rewrite H1; exact L | exact E].
Qed.

Lemma submissions_RunSQL (qs : list string) :
  submissions (map RunSQL qs) = qs.
Proof. induction qs as [|q t IH]; cbn; congruence. Qed.

(** A session that only submits queries always runs to its end. *)
Lemma run_submissions_defined (qs : list string) :
  forall st : MyMainFrame,
    exists st' : MyMainFrame,
      run Query cbrt Atof fmt_g garbage st (map RunSQL qs) = Some st'.
Proof.
  induction qs as [|q t IH]; intro st; cbn [map run step].
  - exists st. reflexivity.
  - apply IH.
Qed.

Lemma history_view_step (st st' : MyMainFrame) (e : Event) :
  step Query cbrt Atof fmt_g garbage st e = Some st' ->
  fQueryHistoryView st = fQueryHistory st ->
  fQueryHistoryView st' = fQueryHistory st'.
Proof.
  intros S1 V.
  destruct e as [q|entry|filename opens|x y t rnd]; cbn [step] in S1.
  - injection S1 as <-.
    unfold OnRunSQLClicked, LoadQueryResultsToTable.
    destruct (negb _); [reflexivity|].
    destruct (Query q); reflexivity.
  - injection S1 as <-.
    unfold OnTableSelected, LoadQueryResultsToTable.
    destruct entry as [name|]; [|exact V].
    destruct (String.eqb name "Custom"); [exact V|].
    match goal with |- context [Query ?z] => destruct (Query z) end;
      exact V.
  - injection S1 as <-. unfold OnExportCSVClicked.
    destruct (fCurrentTableData st); [exact V|].
    destruct (IsNull filename); [exact V|].
    destruct (negb opens); exact V.
  - unfold OnPlotButtonClicked in S1.
    destruct (_ || _)%bool; [injection S1 as <-; exact V|].
    destruct (pr_drawn _); try discriminate;
      injection S1 as <-; exact V.
Qed.

Lemma history_view_run (events : list Event) :
  forall st st' : MyMainFrame,
    run Query cbrt Atof fmt_g garbage st events = Some st' ->
    fQueryHistoryView st = fQueryHistory st ->
    fQueryHistoryView st' = fQueryHistory st'.
Proof.
  induction events as [|e rest IH]; intros st st' R V; cbn [run] in R.
  - injection R as <-. exact V.
  - destruct (step Query cbrt Atof fmt_g garbage st e) as [s1|] eqn:S1;
      [|discriminate].
    apply (IH s1 st' R). eapply history_view_step; eassumption.
Qed.

End Frames.

End ViewerFacts.

(** ** Properties of the handlers *)

Module ViewerTheorems.

Import TStr PlotUtils Viewer PlotFacts ViewerFacts.
Local Open Scope nat_scope.
Local Open Scope string_scope.

(** C1, the claim as written fails: the text of two spaces and [select 1]
    begins with "select" once case and leading whitespace are ignored, yet
    the handler rejects it and does not query the engine. *)
Lemma leading_space_select_is_rejected :
  Spec.begins_with_select "  select 1" = true /\
  fDataView (OnRunSQLClicked Samples.engine_ab "  select 1" init)
    = [msg_only_select] /\
  queried (OnRunSQLClicked Samples.engine_ab "  select 1" init) = [].
Proof. repeat split. Qed.

(** C1, amended.  A submitted text is rejected with "Only SELECT queries are
    allowed." and the engine is not queried if and only if the text, in lower
    case, does not begin with "select" at its first character: leading
    whitespace is not skipped.  An accepted text is handed to the engine as
    it is.  "DROP TABLE x" and "  select 1" are rejected; "select 1" and
    "SELECT 1" are accepted. *)
Theorem select_gate_is_lowercase_prefix
    (Query : string -> option TSQLResult)
    (userQuery : string) (st : MyMainFrame) :
  let st' := OnRunSQLClicked Query userQuery st in
  ((fDataView st' = [msg_only_select] /\ queried st' = queried st) <->
   BeginsWith (ToLower userQuery) "select" = false) /\
  (BeginsWith (ToLower userQuery) "select" = true ->
   queried st' = (queried st ++ [userQuery])%list) /\
  BeginsWith (ToLower "DROP TABLE x") "select" = false /\
  BeginsWith (ToLower "  select 1") "select" = false /\
  BeginsWith (ToLower "select 1") "select" = true /\
  BeginsWith (ToLower "SELECT 1") "select" = true.
Proof.
  cbv zeta.
  assert (Acc : BeginsWith (ToLower userQuery) "select" = true ->
                queried (OnRunSQLClicked Query userQuery st)
                = (queried st ++ [userQuery])%list).
  { intro B. unfold OnRunSQLClicked, LoadQueryResultsToTable. rewrite B.
    cbn [negb]. destruct (Query userQuery); reflexivity. }
  split; [|split; [exact Acc | repeat split]].
  split.
  - intros [_ Hq].
    destruct (BeginsWith (ToLower userQuery) "select") eqn:B;
      [|reflexivity].
    rewrite (Acc eq_refl) in Hq.
    apply (f_equal (@List.length string)) in Hq.
    rewrite length_app in Hq. cbn in Hq. lia.
  - intro B. unfold OnRunSQLClicked. rewrite B. split; reflexivity.
Qed.

(** C2, the claim as written fails: an engine that returns a result with no
    row does not get the failure message; the view shows the header line and
    the separator line. *)
Lemma zero_rows_shows_header_not_message :
  Samples.engine_no_rows "select 1"
    = Some {| fieldNames := ["a"]; resultRows := [] |} /\
  fDataView (OnRunSQLClicked Samples.engine_no_rows "select 1" init)
    = [pad15 "a"; " "] /\
  ~ In msg_query_failed
       (fDataView (OnRunSQLClicked Samples.engine_no_rows "select 1" init)).
Proof.
  split; [reflexivity|]. split; [reflexivity|].
  cbn. intros [H|[H|[]]]; discriminate H.
Qed.

(** C2, amended.  For a text that passes the prefix check: when the engine
    returns no result object, the view shows "Query failed or returned no
    results." and the stored table is kept; when it returns a result with
    zero rows, the view shows the header line and the separator line, without
    that message, and the stored table is the new header with no row; in all
    cases the view is cleared first, so that what it shows does not depend on
    what it showed before. *)
Theorem failed_or_empty_query_clears_view
    (Query : string -> option TSQLResult)
    (userQuery : string) (st : MyMainFrame) :
  BeginsWith (ToLower userQuery) "select" = true ->
  let st' := OnRunSQLClicked Query userQuery st in
  (Query userQuery = None ->
   fDataView st' = [msg_query_failed] /\
   fCurrentTableHeader st' = fCurrentTableHeader st /\
   fCurrentTableData st' = fCurrentTableData st) /\
  (forall r : TSQLResult,
     Query userQuery = Some r -> resultRows r = [] ->
     fDataView st' = [format_row (fieldNames r); " "] /\
     fCurrentTableHeader st' = fieldNames r /\
     fCurrentTableData st' = []) /\
  (forall v : list string,
     fDataView (OnRunSQLClicked Query userQuery (set_view v st))
     = fDataView st').
Proof.
  intro B. cbv zeta. unfold OnRunSQLClicked, LoadQueryResultsToTable.
  rewrite B. cbn [negb].
  split; [|split].
  - intro E. rewrite E. repeat split.
  - intros r E Hr. rewrite E, Hr. repeat split.
  - intro v. destruct (Query userQuery); reflexivity.
Qed.

Lemma failed_or_empty_query_clears_view_witness :
  let st := OnRunSQLClicked Samples.engine_ab "select 1" init in
  let st' := OnRunSQLClicked Samples.engine_fails "select 2" st in
  fDataView st' = [msg_query_failed] /\
  fCurrentTableHeader st' = ["a"; "b"] /\
  fCurrentTableData st' = [["1"; "2"]].
Proof.
  cbv zeta.
  apply (failed_or_empty_query_clears_view Samples.engine_fails "select 2"
           (OnRunSQLClicked Samples.engine_ab "select 1" init)).
  - reflexivity.
  - reflexivity.
Defined.




(** C7.  Along every run of the event loop from the initial window, the
    query history holds at most 10 entries, and it is the last 10 submitted
    texts in submission order, most recent last: an eleventh submission
    evicts the oldest entry.  A session of submissions always runs to its
    end, whatever the engine answers. *)
Theorem history_keeps_last_ten
    (Query : string -> option TSQLResult) (cbrt : Q -> Q)
    (Atof : string -> Q) (fmt_g : Q -> string) (garbage : Q -> Z) :
  (forall (events : list Event) (st : MyMainFrame),
     run Query cbrt Atof fmt_g garbage init events = Some st ->
     List.length (fQueryHistory st) <= 10 /\
     fQueryHistory st = Spec.most_recent 10 (submissions events) /\
     fQueryHistoryView st = fQueryHistory st) /\
  (forall qs : list string,
     exists st : MyMainFrame,
       run Query cbrt Atof fmt_g garbage init (map RunSQL qs) = Some st /\
       List.length (fQueryHistory st) <= 10 /\
       fQueryHistory st = Spec.most_recent 10 qs) /\
  (forall (q0 : string) (qs : list string),
     List.length qs = 10 -> Spec.most_recent 10 (q0 :: qs) = qs).
Proof.
  assert (G : forall (events : list Event) (st : MyMainFrame),
             run Query cbrt Atof fmt_g garbage init events = Some st ->
             List.length (fQueryHistory st) <= 10 /\
             fQueryHistory st = Spec.most_recent 10 (submissions events) /\
             fQueryHistoryView st = fQueryHistory st).
  { intros events st E.
    pose proof (run_history Query cbrt Atof fmt_g garbage events init st)
      as H.
    cbn [init fQueryHistory List.length app] in H.
    specialize (H (Nat.le_0_l _) E).
    split; [|split].
    - rewrite H. apply most_recent_length.
    - exact H.
    - eapply history_view_run; [exact E | reflexivity]. }
  split; [exact G|]. split.
  - intro qs.
    destruct (run_submissions_defined Query cbrt Atof fmt_g garbage qs init)
      as [st E].
    destruct (G _ _ E) as (L & H & _).
    rewrite submissions_RunSQL in H.
    exists st. repeat split; auto.
  - intros q0 qs L. unfold Spec.most_recent. cbn [List.length].
    rewrite L. reflexivity.
Qed.

Lemma history_keeps_last_ten_witness :
  exists st : MyMainFrame,
    run Samples.engine_ab Samples.cbrt Samples.Atof Samples.fmt_g
      Samples.garbage init Samples.session_eleven = Some st /\
    fQueryHistory st
      = ["q1"; "q2"; "q3"; "q4"; "q5"; "q6"; "q7"; "q8"; "q9"; "q10"] /\
    List.length (fQueryHistory st) <= 10 /\
    fQueryHistory st = Spec.most_recent 10 (submissions Samples.session_eleven) /\
    fQueryHistoryView st = fQueryHistory st.
Proof.
  eexists. split; [vm_compute; reflexivity|].
  split; [reflexivity|].
  apply (proj1 (history_keeps_last_ten Samples.engine_ab Samples.cbrt
                  Samples.Atof Samples.fmt_g Samples.garbage)
           Samples.session_eleven).
  vm_compute. reflexivity.
Defined.

(** C8.  Along every run of the event loop from the initial window, the pool
    holds at most 3 plot windows, the pool is exactly the set of windows left
    open, and at no point of the run are more than 3 windows open; a plot
    requested while the pool holds 3 windows closes and deletes the oldest
    one before it creates the new one. *)
Theorem plot_pool_never_exceeds_three
    (Query : string -> option TSQLResult) (cbrt : Q -> Q)
    (Atof : string -> Q) (fmt_g : Q -> string) (garbage : Q -> Z) :
  (forall (events : list Event) (st : MyMainFrame),
     run Query cbrt Atof fmt_g garbage init events = Some st ->
     List.length (fCanvasQueue st) <= 3 /\
     open_windows (windows st) = fCanvasQueue st /\
     forall k : nat,
       List.length (open_windows (firstn k (windows st))) <= 3) /\
  (forall (tableData : list (list string)) (tableHeader : list string)
          (xIndex yIndex plotType : Z) (a b c newCanvas : TCanvas),
     let r := PlotSelectedData cbrt Atof fmt_g garbage tableData tableHeader
                xIndex yIndex plotType [a; b; c] kMaxCanvases newCanvas in
     pr_canvasQueue r = [b; c; newCanvas] /\
     pr_windows r = [WinClose a; WinDelete a; WinNew newCanvas]).
Proof.
  split.
  - intros events st E.
    destruct (PoolInv_run Query cbrt Atof fmt_g garbage events init st E
                PoolInv_init) as [L O _ _ P].
    repeat split; assumption.
  - intros tableData tableHeader xIndex yIndex plotType a b c newCanvas.
    cbv zeta.
    destruct (PlotSelectedData_rotation cbrt Atof fmt_g garbage
                tableData tableHeader xIndex yIndex plotType [a; b; c]
                kMaxCanvases newCanvas) as [A B].
    rewrite A, B. split; reflexivity.
Qed.

Lemma plot_pool_never_exceeds_three_witness :
  exists st : MyMainFrame,
    run Samples.engine_ab Samples.cbrt Samples.Atof Samples.fmt_g
      Samples.garbage init Samples.session_four_plots = Some st /\
    map cv_serial (fCanvasQueue st) = [1; 2; 3] /\
    List.length (fCanvasQueue st) <= 3 /\
    open_windows (windows st) = fCanvasQueue st /\
    forall k : nat,
      List.length (open_windows (firstn k (windows st))) <= 3.
Proof.
  eexists. split; [vm_compute; reflexivity|].
  split; [reflexivity|].
  apply (proj1 (plot_pool_never_exceeds_three Samples.engine_ab Samples.cbrt
                  Samples.Atof Samples.fmt_g Samples.garbage)
           Samples.session_four_plots).
  vm_compute. reflexivity.
Defined.

(** C9, the claim as written fails: a loaded result table with no row is not
    exported; nothing is written, where the format asks for the header
    line. *)
Lemma empty_table_is_not_exported :
  let st := OnRunSQLClicked Samples.engine_no_rows "select 1" init in
  fCurrentTableHeader st = ["a"] /\ fCurrentTableData st = [] /\
  files (OnExportCSVClicked "out" true st) = [] /\
  stdout (OnExportCSVClicked "out" true st)
    = ["No displayed table data to export." ++ newline] /\
  Spec.csv (fCurrentTableHeader st) (fCurrentTableData st)
    = Samples.of_bytes [34; 97; 34; 10].
Proof. cbv zeta. repeat split. Qed.

(** C9, amended.  For every loaded result table with at least one data row,
    once a file name is chosen and the file opens, CSV export writes the
    header line followed by one line per data row, every cell between double
    quotes, cells separated by commas, nothing escaped inside a cell; the
    header [a, b] with the row [1, 2] gives exactly the sixteen bytes
    ["a","b"\n"1","2"\n]. *)
Theorem csv_export_format :
  (forall (filename : string) (st : MyMainFrame),
     fCurrentTableData st <> [] -> IsNull filename = false ->
     files (OnExportCSVClicked filename true st)
     = (files st ++
        [(if EndsWith filename ".csv" then filename
          else (filename ++ ".csv")%string,
          Spec.csv (fCurrentTableHeader st) (fCurrentTableData st))])%list) /\
  csv_output ["a"; "b"] [["1"; "2"]]
    = Samples.of_bytes
        [34; 97; 34; 44; 34; 98; 34; 10; 34; 49; 34; 44; 34; 50; 34; 10] /\
  csv_output [Samples.of_bytes [97; 34; 98]] [["c,d"]]
    = Samples.of_bytes [34; 97; 34; 98; 34; 10; 34; 99; 44; 100; 34; 10].
Proof.
  split; [|split; reflexivity].
  intros filename st Hd Hf. unfold OnExportCSVClicked.
  destruct (fCurrentTableData st) as [|row rest] eqn:D; [congruence|].
  rewrite Hf. cbn [negb files print write_file].
  rewrite csv_output_spec. reflexivity.
Qed.

Lemma csv_export_format_witness :
  let st := OnRunSQLClicked Samples.engine_ab "select 1" init in
  files (OnExportCSVClicked "out" true st)
  = [("out.csv",
      Samples.of_bytes
        [34; 97; 34; 44; 34; 98; 34; 10; 34; 49; 34; 44; 34; 50; 34; 10])].
Proof.
  cbv zeta.
  refine (eq_trans
            (proj1 csv_export_format "out"
               (OnRunSQLClicked Samples.engine_ab "select 1" init) _ _) _).
  - vm_compute. discriminate.
  - reflexivity.
  - reflexivity.
Defined.

End ViewerTheorems.

(** ** Further properties of the plot arithmetic *)

Module PlotExtras.

Import Dbl DblFacts TStr PlotUtils PlotFacts.
Local Open Scope Q_scope.

(** *** Nice values *)

(** *** Order statistics *)

Lemma sorted_nth_le (s : list Q) (i j : nat) :
  Sorted Qle s -> (i <= j)%nat -> (j < List.length s)%nat ->
  nth i s 0 <= nth j s 0.
Proof.
  intro S. apply Sorted_StronglySorted in S;
    [|intros x y z; apply Qle_trans].
  revert i j. induction S as [|a l Sl IH Ha]; intros i j Hij Hj.
  - cbn in Hj. lia.
  - destruct j as [|j].
    + replace i with 0%nat by lia. apply Qle_refl.
    + destruct i as [|i].
      * cbn [nth]. rewrite Forall_forall in Ha. apply Ha.
        apply nth_In. cbn in Hj. lia.
      * cbn [nth]. apply IH; [lia | cbn in Hj; lia].
Qed.

(** The interpolation at rank [h] lies between the two order statistics
    around [h]. *)
Lemma interp_bounds (s : list Q) (h : Q) :
  Sorted Qle s -> 0 <= h ->
  h <= inject_Z (Z.of_nat (List.length s) - 1) ->
  let i := Qfloor h in
  let a := nth (Z.to_nat i) s 0 in
  let b := nth (Z.to_nat (i + 1)) s 0 in
  let f := a + (h - inject_Z i) * (b - a) in
  (0 <= i <= Z.of_nat (List.length s) - 1)%Z /\
  a <= f /\
  ((i + 1 <= Z.of_nat (List.length s) - 1)%Z -> f <= b) /\
  ((Z.of_nat (List.length s) - 1 <= i)%Z -> f == a).
Proof.
  intros S H0 H1 i a b f.
  pose proof (Qfloor_le h) as F1. pose proof (Qlt_floor h) as F2.
  fold i in F1, F2.
  assert (I0 : (0 <= i)%Z).
  { change 0%Z with (Qfloor 0). apply Qfloor_resp_le. exact H0. }
  assert (I1 : (i <= Z.of_nat (List.length s) - 1)%Z).
  { rewrite <- (Qfloor_Z (Z.of_nat (List.length s) - 1)).
    apply Qfloor_resp_le. exact H1. }
  assert (T1 : h - inject_Z i < 1).
  { rewrite inject_Z_plus in F2. change (inject_Z 1) with 1 in F2. lra. }
  assert (T0 : 0 <= h - inject_Z i) by lra.
  assert (Last : (Z.of_nat (List.length s) - 1 <= i)%Z -> f == a).
  { intro L. assert (E : i = (Z.of_nat (List.length s) - 1)%Z) by lia.
    assert (D : h - inject_Z i == 0) by (rewrite E in *; lra).
    unfold f. rewrite D. ring. }
  split; [lia|].
  destruct (Z_le_gt_dec (i + 1) (Z.of_nat (List.length s) - 1)) as [L|L].
  - assert (AB : a <= b).
    { apply sorted_nth_le; [exact S | lia | lia]. }
    assert (P1 : 0 <= (h - inject_Z i) * (b - a))
      by (apply Qmult_le_0_compat; lra).
    assert (P2 : 0 <= (1 - (h - inject_Z i)) * (b - a))
      by (apply Qmult_le_0_compat; lra).
    split; [unfold f; lra|]. split; [|exact Last].
    intros _. unfold f.
    assert (E : b - (a + (h - inject_Z i) * (b - a))
                == (1 - (h - inject_Z i)) * (b - a)) by ring.
    lra.
  - assert (Fa : f == a) by (apply Last; lia).
    split; [rewrite Fa; apply Qle_refl|]. split; [lia | exact Last].
Qed.

Lemma MinElement_spec (l : list Q) (m : Q) :
  MinElement l = Some m -> In m l /\ Forall (fun x => m <= x) l.
Proof.
  destruct l as [|x t]; [discriminate|]. cbn [MinElement].
  intro E. injection E as <-.
  revert x. induction t as [|y t IH]; intro x; cbn [fold_left].
  - split; [now left | constructor; [apply Qle_refl | constructor]].
  - destruct (ltb y x) eqn:L.
    + apply ltb_lt in L. destruct (IH y) as [I F].
      split.
      * right. exact I.
      * inversion F as [|? ? Fy Ft]; subst.
        constructor; [lra|]. constructor; assumption.
    + apply ltb_ge in L. destruct (IH x) as [I F].
      split.
      * destruct I as [I|I]; [now left | right; now right].
      * inversion F as [|? ? Fx Ft]; subst.
        constructor; [assumption|]. constructor; [lra | assumption].
Qed.

Lemma MaxElement_spec (l : list Q) (m : Q) :
  MaxElement l = Some m -> In m l /\ Forall (fun x => x <= m) l.
Proof.
  destruct l as [|x t]; [discriminate|]. cbn [MaxElement].
  intro E. injection E as <-.
  revert x. induction t as [|y t IH]; intro x; cbn [fold_left].
  - split; [now left | constructor; [apply Qle_refl | constructor]].
  - destruct (ltb x y) eqn:L.
    + apply ltb_lt in L. destruct (IH y) as [I F].
      split.
      * right. exact I.
      * inversion F as [|? ? Fy Ft]; subst.
        constructor; [lra|]. constructor; assumption.
    + apply ltb_ge in L. destruct (IH x) as [I F].
      split.
      * destruct I as [I|I]; [now left | right; now right].
      * inversion F as [|? ? Fx Ft]; subst.
        constructor; [assumption|]. constructor; [lra | assumption].
Qed.

Lemma MinElement_first (data : list Q) (m : Q) :
  MinElement data = Some m -> m == nth 0 (sort data) 0.
Proof.
  intro E. destruct (MinElement_spec data m E) as [I F].
  assert (Ne : (0 < List.length (sort data))%nat).
  { rewrite sort_length. destruct data; [contradiction | cbn; lia]. }
  apply Qle_antisym.
  - rewrite Forall_forall in F. apply F.
    apply (Permutation_in _ (sort_perm data)). apply nth_In. exact Ne.
  - apply (Permutation_in _ (Permutation_sym (sort_perm data))) in I.
    destruct (In_nth _ _ 0 I) as (j & Hj & Ej). rewrite <- Ej.
    apply sorted_nth_le; [apply sort_sorted | lia | exact Hj].
Qed.

Lemma MaxElement_last (data : list Q) (m : Q) :
  MaxElement data = Some m ->
  m == nth (List.length data - 1) (sort data) 0.
Proof.
  intro E. destruct (MaxElement_spec data m E) as [I F].
  assert (Ne : (0 < List.length (sort data))%nat).
  { rewrite sort_length. destruct data; [contradiction | cbn; lia]. }
  rewrite <- (sort_length data).
  apply Qle_antisym.
  - apply (Permutation_in _ (Permutation_sym (sort_perm data))) in I.
    destruct (In_nth _ _ 0 I) as (j & Hj & Ej). rewrite <- Ej.
    apply sorted_nth_le; [apply sort_sorted | lia | lia].
  - rewrite Forall_forall in F. apply F.
    apply (Permutation_in _ (sort_perm data)). apply nth_In. lia.
Qed.

Lemma GetQuartile_between (data : list Q) (p : Q) :
  data <> [] -> 0 <= p -> p <= 1 ->
  exists r : Q,
    GetQuartile data p = Some r /\
    nth 0 (sort data) 0 <= r /\
    r <= nth (List.length data - 1) (sort data) 0.
Proof.
  intros Hne P0 P1.
  assert (Hn : (1 <= Z.of_nat (List.length data))%Z)
    by (destruct data; [congruence | cbn [List.length]; lia]).
  destruct (unit_rank p _ Hn P0 P1) as [A B].
  destruct (GetQuartile_spec data p Hne A B) as (r & E & R).
  exists r. split; [exact E|].
  rewrite R. unfold Spec.quantile.
  destruct (interp_bounds (sort data)
              (p * inject_Z (Z.of_nat (List.length data) - 1))
              (sort_sorted data) A
              ltac:(rewrite sort_length; exact B))
    as (Bi & Lo & Up & La).
  cbv zeta in Bi, Lo, Up, La. rewrite sort_length in Bi, Up, La.
  set (i := Qfloor (p * inject_Z (Z.of_nat (List.length data) - 1))) in *.
  split.
  - eapply Qle_trans; [|exact Lo].
    apply sorted_nth_le;
      [apply sort_sorted | lia | rewrite sort_length; lia].
  - destruct (Z_le_gt_dec (i + 1) (Z.of_nat (List.length data) - 1))
      as [L|L].
    + eapply Qle_trans; [apply Up; exact L|].
      apply sorted_nth_le;
        [apply sort_sorted | lia | rewrite sort_length; lia].
    + rewrite (La ltac:(lia)).
      apply sorted_nth_le;
        [apply sort_sorted | lia | rewrite sort_length; lia].
Qed.

Lemma MinElement_defined (data : list Q) :
  data <> [] -> exists lo, MinElement data = Some lo.
Proof. destruct data; [congruence | eexists; reflexivity]. Qed.

Lemma MaxElement_defined (data : list Q) :
  data <> [] -> exists hi, MaxElement data = Some hi.
Proof. destruct data; [congruence | eexists; reflexivity]. Qed.

(** *** Histogram bins *)

Lemma trunc_nonneg (x : Q) : 0 <= x -> trunc x = Qfloor x.
Proof.
  destruct x as [a b]. intro H. unfold trunc, Qfloor. cbn [Qnum Qden].
  apply Z.quot_div_nonneg; [|lia].
  unfold Qle in H. cbn in H. lia.
Qed.

Lemma NumBins_narrow (garbage : Q -> Z) (lo hi w : Q) :
  0 < w -> lo <= hi -> hi - lo < w -> NumBins garbage lo hi w = 10%Z.
Proof.
  intros Hw Hr Hn. unfold NumBins, to_int.
  set (x := (hi - lo) / w).
  assert (X0 : 0 <= x) by (apply Qle_shift_div_l; lra).
  assert (X1 : x < 1) by (apply Qlt_shift_div_r; lra).
  rewrite (trunc_nonneg x X0).
  assert (F : Qfloor x = 0%Z).
  { pose proof (Qfloor_le x) as A. pose proof (Qlt_floor x) as B.
    assert (A' : inject_Z (Qfloor x) < inject_Z 1)
      by (change (inject_Z 1) with 1; lra).
    assert (B' : inject_Z (-1) < inject_Z (Qfloor x)).
    { rewrite inject_Z_plus in B. change (inject_Z 1) with 1 in B.
      change (inject_Z (-1)) with (-1 # 1). lra. }
    rewrite <- Zlt_Qlt in A', B'. lia. }
  rewrite F. reflexivity.
Qed.

Lemma BinWidth_zero_range (cbrt : Q -> Q) (data : list Q) (q1 q3 : Q) :
  GetQuartile data (1 # 4) = Some q1 ->
  GetQuartile data (3 # 4) = Some q3 ->
  q3 - q1 == 0 -> BinWidth cbrt data = Some 1.
Proof.
  intros E1 E3 Hiqr. unfold BinWidth. rewrite E1, E3.
  assert (R : RoundToNiceValue
                (2 * (q3 - q1)
                 / cbrt (inject_Z (Z.of_nat (List.length data)))) = 1).
  { unfold RoundToNiceValue.
    match goal with |- context [leb ?x 0] =>
      assert (L : leb x 0 = true) end.
    { apply leb_le. rewrite Hiqr. unfold Qdiv.
      rewrite Qmult_0_r, Qmult_0_l. apply Qle_refl. }
    rewrite L. reflexivity. }
  rewrite R. reflexivity.
Qed.

(** X7.  A series whose samples are all equal has an interquartile range of
    0: its bin width falls back to 1, its 1D histogram has 10 bins, and the
    axis range is the single point of the samples. *)
Theorem constant_series_histogram
    (cbrt : Q -> Q) (fmt_g : Q -> string) (garbage : Q -> Z)
    (xData : list Q) (xName : string) (c : Q) :
  xData <> [] -> Forall (fun x => x == c) xData ->
  BinWidth cbrt xData = Some 1 /\
  exists (lo hi : Q) (yTitle : string),
    Hist1D cbrt fmt_g garbage xData (Some xName)
    = Drew (TH1D (FormatAxisLabel xName) 10 lo hi xData
              (FormatAxisLabel xName) yTitle) /\
    lo == c /\ hi == c.
Proof.
  intros Hne Hc. rewrite Forall_forall in Hc.
  destruct (MinElement_defined xData Hne) as [lo Elo].
  destruct (MaxElement_defined xData Hne) as [hi Ehi].
  destruct (MinElement_spec xData lo Elo) as [Ilo _].
  destruct (MaxElement_spec xData hi Ehi) as [Ihi _].
  pose proof (Hc lo Ilo) as Clo. pose proof (Hc hi Ihi) as Chi.
  pose proof (MinElement_first xData lo Elo) as Flo.
  pose proof (MaxElement_last xData hi Ehi) as Fhi.
  destruct (GetQuartile_between xData (1 # 4) Hne ltac:(lra) ltac:(lra))
    as (q1 & E1 & L1 & U1).
  destruct (GetQuartile_between xData (3 # 4) Hne ltac:(lra) ltac:(lra))
    as (q3 & E3 & L3 & U3).
  assert (W : BinWidth cbrt xData = Some 1).
  { apply (BinWidth_zero_range cbrt xData q1 q3 E1 E3). lra. }
  split; [exact W|].
  exists lo, hi. eexists.
  split; [|split; assumption].
  unfold Hist1D. rewrite W, Elo, Ehi.
  rewrite (NumBins_narrow garbage lo hi 1) by lra.
  reflexivity.
Qed.

Lemma constant_series_histogram_witness :
  BinWidth Samples.cbrt [7; 7; 7] = Some 1 /\
  exists (lo hi : Q) (yTitle : string),
    Hist1D Samples.cbrt Samples.fmt_g Samples.garbage [7; 7; 7]
      (Some "n"%string)
    = Drew (TH1D (FormatAxisLabel "n") 10 lo hi [7; 7; 7]
              (FormatAxisLabel "n") yTitle) /\
    lo == 7 /\ hi == 7.
Proof.
  apply (constant_series_histogram Samples.cbrt Samples.fmt_g
           Samples.garbage [7; 7; 7] "n"%string 7).
  - discriminate.
  - repeat constructor.
Defined.

(** *** Two columns *)

Lemma collect_all_valid (Atof : string -> Q)
    (tableData : list (list string)) (xIndex yIndex : Z) :
  (0 <= yIndex)%Z ->
  Forall (fun row => cell_valid row xIndex = true /\
                     cell_valid row yIndex = true) tableData ->
  collect_x Atof tableData xIndex
    = map (fun row => Atof (cell row xIndex)) tableData /\
  collect_y Atof tableData yIndex
    = map (fun row => Atof (cell row yIndex)) tableData.
Proof.
  intros Hy F.
  assert (Ey : (0 <=? yIndex)%Z = true) by (apply Z.leb_le; exact Hy).
  induction F as [|row rest [Vx Vy] F IH]; [split; reflexivity|].
  destruct IH as [IHx IHy].
  cbn [collect_x collect_y map]. rewrite Vx, Vy, Ey. cbn [andb].
  split; congruence.
Qed.

Lemma combine_map_pair {A B C : Type} (f : A -> B) (g : A -> C)
    (l : list A) :
  combine (map f l) (map g l) = map (fun a => (f a, g a)) l.
Proof. induction l as [|a t IH]; cbn; congruence. Qed.

(** X8.  When a Y column is selected and every row has a non-empty cell in
    both columns, the 2D scatter plot has one point per row, in row order:
    the X cell and the Y cell of that row, each converted by [Atof]. *)
Theorem scatter_2D_pairs_rows
    (cbrt : Q -> Q) (Atof : string -> Q) (fmt_g : Q -> string)
    (garbage : Q -> Z)
    (tableData : list (list string)) (tableHeader : list string)
    (xIndex yIndex : Z) (canvasQueue : list TCanvas)
    (maxCanvases : nat) (newCanvas : TCanvas) (xName yName : string) :
  (0 <= yIndex)%Z ->
  at_index tableHeader (to_size_t xIndex) = Some xName ->
  at_index tableHeader (to_size_t yIndex) = Some yName ->
  Forall (fun row => cell_valid row xIndex = true /\
                     cell_valid row yIndex = true) tableData ->
  pr_drawn (PlotSelectedData cbrt Atof fmt_g garbage tableData tableHeader
              xIndex yIndex 2 canvasQueue maxCanvases newCanvas)
  = Drew (TGraph
            (map (fun row => (Atof (cell row xIndex), Atof (cell row yIndex)))
                 tableData)
            ("2D Scatter Plot;" ++ xName ++ ";" ++ yName)%string kRed).
Proof.
  intros Hy Hx Hyn F.
  destruct (collect_all_valid Atof tableData xIndex yIndex Hy F) as [Ex Ey].
  unfold PlotSelectedData.
  destruct (rotate_canvases canvasQueue maxCanvases newCanvas) as [q w].
  cbn [pr_drawn]. rewrite Ex, Ey, Hx, Hyn, !length_map, Nat.eqb_refl.
  destruct (Z.ltb_spec yIndex 0) as [L|L]; [lia|].
  cbn [orb negb Z.eqb Pos.eqb]. unfold Scatter2D.
  rewrite combine_map_pair. reflexivity.
Qed.

Lemma scatter_2D_pairs_rows_witness :
  pr_drawn (PlotSelectedData Samples.cbrt Samples.Atof Samples.fmt_g
              Samples.garbage
              [["1"; "10"]; ["2"; "20"]; ["3"; "30"]]%string
              ["x"; "y"]%string 0 1 2 [] 3
              {| cv_serial := 0; cv_rnd := 1 |})
  = Drew (TGraph [(1, 10); (2, 20); (3, 30)]
            "2D Scatter Plot;x;y"%string kRed).
Proof.
  refine (eq_trans
            (scatter_2D_pairs_rows Samples.cbrt Samples.Atof Samples.fmt_g
               Samples.garbage [["1"; "10"]; ["2"; "20"]; ["3"; "30"]]%string
               ["x"; "y"]%string 0 1 [] 3 {| cv_serial := 0; cv_rnd := 1 |}
               "x"%string "y"%string _ _ _ _) _).
  - discriminate.
  - reflexivity.
  - reflexivity.
  - repeat constructor.
  - reflexivity.
Defined.



(** *** Axis labels *)

Lemma substring_nil (n m : nat) : substring n m EmptyString = EmptyString.
Proof. destruct n, m; reflexivity. Qed.

Lemma substring_zero_length (s : string) :
  forall n : nat, substring n 0 s = EmptyString.
Proof.
  induction s as [|c t IH]; intro n; [apply substring_nil|].
  destruct n as [|n]; [reflexivity | cbn; apply IH].
Qed.

Lemma substring_length (s : string) :
  forall n m : nat,
    String.length (substring n m s) = Nat.min m (String.length s - n).
Proof.
  induction s as [|c t IH]; intros n m.
  - rewrite substring_nil. cbn. lia.
  - destruct n as [|n].
    + destruct m as [|m]; [reflexivity|].
      cbn [substring String.length]. rewrite IH. cbn. lia.
    + cbn [substring String.length]. rewrite IH. cbn. lia.
Qed.

Lemma substring_add (s : string) :
  forall n a b : nat,
    substring n (a + b) s
    = (substring n a s ++ substring (n + a) b s)%string.
Proof.
  induction s as [|c t IH]; intros n a b.
  - rewrite !substring_nil. reflexivity.
  - destruct n as [|n].
    + destruct a as [|a].
      * cbn [Nat.add]. reflexivity.
      * cbn [Nat.add substring append]. rewrite IH. reflexivity.
    + cbn [Nat.add substring]. apply IH.
Qed.

Lemma substring_whole (s : string) :
  substring 0 (String.length s) s = s.
Proof. induction s as [|c t IH]; cbn; congruence. Qed.

Lemma Index_inside (name pat : string) (sep : nat) :
  (0 < String.length pat)%nat ->
  Index name pat = Some sep ->
  (sep + String.length pat <= String.length name)%nat /\
  substring sep (String.length pat) name = pat.
Proof.
  intros Hp E. unfold Index in E. apply index_correct1 in E.
  split; [|exact E].
  apply (f_equal String.length) in E. rewrite substring_length in E.
  destruct (Nat.le_gt_cases (sep + String.length pat) (String.length name));
    [assumption | lia].
Qed.

Lemma Sub_substring (s : string) (start len : nat) :
  (start + len <= String.length s)%nat -> Sub s start len = substring start len s.
Proof.
  intro H. unfold Sub.
  destruct (Nat.ltb_spec start (String.length s)) as [A|A];
    destruct (Nat.ltb_spec 0 len) as [B|B]; cbn [andb].
  - rewrite Nat.min_l by lia. reflexivity.
  - replace len with 0%nat by lia. symmetry. apply substring_zero_length.
  - replace len with 0%nat by lia. symmetry. apply substring_zero_length.
  - replace len with 0%nat by lia. symmetry. apply substring_zero_length.
Qed.

Lemma Sub_tail (s : string) (start : nat) :
  (start <= String.length s)%nat ->
  Sub s start (String.length s) = substring start (String.length s - start) s.
Proof.
  intro H. unfold Sub.
  destruct (Nat.ltb_spec start (String.length s)) as [A|A].
  - destruct (Nat.ltb_spec 0 (String.length s)) as [B|B]; [|lia].
    cbn [andb]. rewrite Nat.min_r by lia. reflexivity.
  - cbn [andb]. replace (String.length s - start)%nat with 0%nat by lia.
    symmetry. apply substring_zero_length.
Qed.

Lemma ReplaceAll_length (a b : ascii) (s : string) :
  String.length (ReplaceAll a b s) = String.length s.
Proof. induction s as [|c t IH]; cbn; congruence. Qed.

Lemma ReplaceAll_removes (a b : ascii) (s : string) :
  a <> b -> forall i : nat, get i (ReplaceAll a b s) <> Some a.
Proof.
  intro Hab. induction s as [|c t IH]; intro i; [discriminate|].
  cbn [ReplaceAll]. destruct i as [|i]; cbn [get].
  - destruct (Ascii.eqb_spec c a) as [E|E]; intro H; injection H as H;
      congruence.
  - apply IH.
Qed.

(** X10.  A column name that contains the separator "__" is split there
    without loss: the text before the first separator, the separator and the
    unit put together give the name back; the label shows that text with
    every underscore replaced by a space, then the unit in parentheses.  A
    name without separator is its own label and has no unit. *)
Theorem FormatAxisLabel_splits_at_separator (name : string) :
  (forall sep : nat,
     Index name "__" = Some sep ->
     let base := Sub name 0 sep in
     let unit := ExtractUnit name in
     (base ++ "__" ++ unit)%string = name /\
     String.length base = sep /\
     FormatAxisLabel name
     = (ReplaceAll "_" " " base ++ " (" ++ unit ++ ")")%string /\
     String.length (ReplaceAll "_" " " base) = sep /\
     forall i : nat, get i (ReplaceAll "_" " " base) <> Some "_"%char) /\
  (Index name "__" = None ->
   FormatAxisLabel name = name /\ ExtractUnit name = EmptyString).
Proof.
  split.
  - intros sep E. cbv zeta.
    destruct (Index_inside name "__" sep ltac:(cbn; lia) E) as [L S2].
    cbn [String.length] in L, S2.
    assert (B : Sub name 0 sep = substring 0 sep name)
      by (apply Sub_substring; lia).
    assert (U : ExtractUnit name
                = substring (sep + 2) (String.length name - (sep + 2)) name).
    { unfold ExtractUnit. rewrite E. apply Sub_tail. lia. }
    assert (Lb : String.length (Sub name 0 sep) = sep).
    { rewrite B, substring_length. lia. }
    split; [|split; [exact Lb|split; [|split]]].
    + rewrite B, U, <- S2.
      rewrite <- (substring_add name sep 2).
      rewrite <- (substring_add name 0 sep).
      replace (sep + (2 + (String.length name - (sep + 2))))%nat
        with (String.length name) by lia.
      apply substring_whole.
    + unfold FormatAxisLabel, ExtractUnit. rewrite E. reflexivity.
    + rewrite ReplaceAll_length. exact Lb.
    + apply ReplaceAll_removes. discriminate.
  - intro E. unfold FormatAxisLabel, ExtractUnit. rewrite E.
    split; reflexivity.
Qed.

Lemma FormatAxisLabel_splits_at_separator_witness :
  (Sub "beam_energy__GeV" 0 11 ++ "__" ++ ExtractUnit "beam_energy__GeV")%string
    = "beam_energy__GeV"%string /\
  FormatAxisLabel "beam_energy__GeV" = "beam energy (GeV)"%string /\
  FormatAxisLabel "count" = "count"%string.
Proof.
  destruct (proj1 (FormatAxisLabel_splits_at_separator "beam_energy__GeV")
              11%nat eq_refl) as (A & _ & B & _).
  destruct (proj2 (FormatAxisLabel_splits_at_separator "count") eq_refl)
    as (C & _).
  cbv zeta in A, B.
  split; [exact A|]. split; [rewrite B; reflexivity | exact C].
Defined.

End PlotExtras.

(** ** Further properties of the handlers *)

Module ViewerExtras.

Import TStr PlotUtils Viewer PlotFacts ViewerFacts.
Local Open Scope nat_scope.
Local Open Scope string_scope.

(** *** The result view and the stored table *)

Lemma append_length (a b : string) :
  String.length (a ++ b) = String.length a + String.length b.
Proof. induction a as [|c t IH]; cbn; congruence. Qed.

Lemma spaces_length (n : nat) : String.length (spaces n) = n.
Proof. induction n as [|n IH]; cbn; congruence. Qed.

Lemma pad15_length (c : string) :
  String.length (pad15 c) = Nat.max 15 (String.length c).
Proof. unfold pad15. rewrite append_length, spaces_length. lia. Qed.

Lemma format_row_length_acc (cells : list string) :
  forall acc : string,
    Forall (fun c => String.length c <= 15) cells ->
    String.length (fold_left (fun line c => line ++ pad15 c) cells acc)
    = String.length acc + 15 * List.length cells.
Proof.
  induction cells as [|c t IH]; intros acc F; cbn [fold_left List.length].
  - lia.
  - inversion F as [|? ? Hc Ft]; subst.
    rewrite IH by exact Ft. rewrite append_length, pad15_length. lia.
Qed.

Lemma format_row_length (cells : list string) :
  Forall (fun c => String.length c <= 15) cells ->
  String.length (format_row cells) = 15 * List.length cells.
Proof.
  intro F. unfold format_row. rewrite format_row_length_acc by exact F.
  reflexivity.
Qed.

Lemma fold_AddLine (data : list (list string)) :
  forall view : list string,
    fold_left (fun v rowData => AddLine (format_row rowData) v) data view
    = (view ++ map format_row data)%list.
Proof.
  induction data as [|row rest IH]; intro view; cbn [fold_left map].
  - rewrite app_nil_r. reflexivity.
  - rewrite IH. unfold AddLine. rewrite <- app_assoc. reflexivity.
Qed.

Lemma Load_fields (result : TSQLResult) (st : MyMainFrame) :
  let st' := LoadQueryResultsToTable (Some result) st in
  fCurrentTableHeader st' = fieldNames result /\
  fCurrentTableData st'
  = map (fun row => map (GetField row)
                        (seq 0 (List.length (fieldNames result))))
        (resultRows result) /\
  fDataView st'
  = format_row (fieldNames result) :: " "
      :: map format_row (fCurrentTableData st').
Proof.
  cbv zeta. unfold LoadQueryResultsToTable.
  cbn [set_view set_table fCurrentTableHeader fCurrentTableData fDataView].
  split; [reflexivity|]. split; [reflexivity|].
  rewrite fold_AddLine. reflexivity.
Qed.

Lemma Load_some_rectangular (result : TSQLResult) (st : MyMainFrame) :
  Session.rectangular (LoadQueryResultsToTable (Some result) st).
Proof.
  unfold Session.rectangular.
  destruct (Load_fields result st) as (H & D & _). cbv zeta in H, D.
  rewrite H, D. apply Forall_forall. intros row I.
  apply in_map_iff in I. destruct I as (r & <- & _).
  rewrite length_map, length_seq. reflexivity.
Qed.

Lemma Load_rectangular (result : option TSQLResult) (st : MyMainFrame) :
  Session.rectangular st ->
  Session.rectangular (LoadQueryResultsToTable result st).
Proof.
  intro R. destruct result as [result|]; [|exact R].
  apply Load_some_rectangular.
Qed.

Lemma rectangular_frame (st st' : MyMainFrame) :
  fCurrentTableHeader st' = fCurrentTableHeader st ->
  fCurrentTableData st' = fCurrentTableData st ->
  Session.rectangular st -> Session.rectangular st'.
Proof.
  unfold Session.rectangular. intros -> ->. exact (fun R => R).
Qed.

Lemma OnExportCSVClicked_table (filename : string) (opens : bool)
    (st : MyMainFrame) :
  let st' := OnExportCSVClicked filename opens st in
  fCurrentTableHeader st' = fCurrentTableHeader st /\
  fCurrentTableData st' = fCurrentTableData st /\
  fDataView st' = fDataView st /\ queried st' = queried st.
Proof.
  cbv zeta. unfold OnExportCSVClicked.
  destruct (fCurrentTableData st) eqn:D;
    [cbn; rewrite ?D; repeat split|].
  destruct (IsNull filename); [rewrite ?D; repeat split|].
  destruct (negb opens); cbn; rewrite ?D; repeat split.
Qed.

Lemma OnPlotButtonClicked_table
    (cbrt : Q -> Q) (Atof : string -> Q) (fmt_g : Q -> string)
    (garbage : Q -> Z) (x y t : Z) (rnd : N) (st st' : MyMainFrame) :
  OnPlotButtonClicked cbrt Atof fmt_g garbage x y t rnd st = Some st' ->
  fCurrentTableHeader st' = fCurrentTableHeader st /\
  fCurrentTableData st' = fCurrentTableData st /\
  fDataView st' = fDataView st /\ queried st' = queried st.
Proof.
  unfold OnPlotButtonClicked.
  destruct (_ || _)%bool; [intro E; injection E as <-; repeat split|].
  destruct (pr_drawn _); intro E; try discriminate;
    injection E as <-; repeat split.
Qed.

Lemma OnRunSQLClicked_rectangular
    (Query : string -> option TSQLResult) (q : string) (st : MyMainFrame) :
  Session.rectangular st ->
  Session.rectangular (OnRunSQLClicked Query q st).
Proof.
  intro R. unfold OnRunSQLClicked.
  destruct (negb _); [exact R|].
  destruct (Query q) as [result|]; [|exact R].
  apply Load_some_rectangular.
Qed.

Lemma OnTableSelected_rectangular
    (Query : string -> option TSQLResult) (entry : option string)
    (st : MyMainFrame) :
  Session.rectangular st ->
  Session.rectangular (OnTableSelected Query entry st).
Proof.
  intro R. unfold OnTableSelected.
  destruct entry as [name|]; [|exact R].
  destruct (String.eqb name "Custom"); [exact R|].
  apply Load_rectangular. exact R.
Qed.

Lemma GetField_short (row : list string) (i : nat) :
  Forall (fun c => String.length c <= 15) row ->
  String.length (GetField row i) <= 15.
Proof.
  intro F. unfold GetField.
  destruct (Nat.lt_ge_cases i (List.length row)) as [L|L].
  - rewrite Forall_forall in F. apply F. apply nth_In. exact L.
  - rewrite nth_overflow by exact L. cbn. lia.
Qed.

(** X11.  After a result is loaded, the stored header is the list of field
    names, the stored table has one row per result row and every stored row
    has exactly one cell per column (a missing field is stored as the empty
    text); the table stays rectangular along every run of the event loop. *)
Theorem stored_table_is_rectangular
    (Query : string -> option TSQLResult) (cbrt : Q -> Q)
    (Atof : string -> Q) (fmt_g : Q -> string) (garbage : Q -> Z) :
  (forall (result : TSQLResult) (st : MyMainFrame),
     let st' := LoadQueryResultsToTable (Some result) st in
     fCurrentTableHeader st' = fieldNames result /\
     List.length (fCurrentTableData st') = List.length (resultRows result) /\
     Session.rectangular st') /\
  (forall (events : list Event) (st : MyMainFrame),
     run Query cbrt Atof fmt_g garbage init events = Some st ->
     Session.rectangular st).
Proof.
  split.
  - intros result st. cbv zeta.
    destruct (Load_fields result st) as (H & D & _). cbv zeta in H, D.
    split; [exact H|]. split; [rewrite D; apply length_map|].
    apply Load_some_rectangular.
  - intros events.
    assert (G : forall st st' : MyMainFrame,
               Session.rectangular st ->
               run Query cbrt Atof fmt_g garbage st events = Some st' ->
               Session.rectangular st').
    { induction events as [|e rest IH]; intros st st' R E; cbn [run] in E.
      - injection E as <-. exact R.
      - destruct (step Query cbrt Atof fmt_g garbage st e) as [s1|] eqn:S1;
          [|discriminate].
        apply (IH s1 st'); [|exact E]. clear IH E.
        destruct e as [q|entry|filename opens|x y t rnd]; cbn [step] in S1.
        + injection S1 as <-. now apply OnRunSQLClicked_rectangular.
        + injection S1 as <-. now apply OnTableSelected_rectangular.
        + injection S1 as <-.
          destruct (OnExportCSVClicked_table filename opens st)
            as (A & B & _).
          now apply (rectangular_frame st).
        + destruct (OnPlotButtonClicked_table _ _ _ _ _ _ _ _ _ _ S1)
            as (A & B & _).
          now apply (rectangular_frame st). }
    intros st E. apply (G init st); [|exact E].
    unfold Session.rectangular. cbn. constructor.
Qed.

Lemma stored_table_is_rectangular_witness :
  exists st : MyMainFrame,
    run Samples.engine_xy Samples.cbrt Samples.Atof Samples.fmt_g
      Samples.garbage init Samples.session_four_plots = Some st /\
    Session.rectangular st.
Proof.
  eexists. split; [vm_compute; reflexivity|].
  apply (proj2 (stored_table_is_rectangular Samples.engine_xy Samples.cbrt
                  Samples.Atof Samples.fmt_g Samples.garbage)
           Samples.session_four_plots).
  vm_compute. reflexivity.
Defined.

(** X12.  The result view after a load is the header line, a separator line
    of one space, and one line per row, in row order.  When no field name and
    no cell is longer than 15 characters, the header line and every row line
    have exactly 15 characters per column, so the columns line up. *)
Theorem view_lines_are_fixed_width (result : TSQLResult) (st : MyMainFrame) :
  Forall (fun c => String.length c <= 15) (fieldNames result) ->
  Forall (Forall (fun c => String.length c <= 15)) (resultRows result) ->
  let st' := LoadQueryResultsToTable (Some result) st in
  exists (header : string) (lines : list string),
    fDataView st' = header :: " " :: lines /\
    lines = map format_row (fCurrentTableData st') /\
    List.length lines = List.length (resultRows result) /\
    Forall (fun l => String.length l
                     = 15 * List.length (fieldNames result))
           (header :: lines).
Proof.
  intros Fh Fr. cbv zeta.
  destruct (Load_fields result st) as (H & D & V). cbv zeta in H, D, V.
  exists (format_row (fieldNames result)),
    (map format_row
       (fCurrentTableData (LoadQueryResultsToTable (Some result) st))).
  split; [exact V|]. split; [reflexivity|].
  split; [rewrite D, !length_map; reflexivity|].
  constructor; [apply format_row_length; exact Fh|].
  rewrite D. apply Forall_forall. intros l I.
  apply in_map_iff in I. destruct I as (cells & <- & I).
  apply in_map_iff in I. destruct I as (row & <- & I).
  rewrite format_row_length.
  - rewrite length_map, length_seq. reflexivity.
  - rewrite Forall_forall in Fr. specialize (Fr row I).
    apply Forall_forall. intros c Ic.
    apply in_map_iff in Ic. destruct Ic as (i & <- & _).
    apply GetField_short. exact Fr.
Qed.

Lemma view_lines_are_fixed_width_witness :
  exists (header : string) (lines : list string),
    fDataView (LoadQueryResultsToTable
                 (Some {| fieldNames := ["x"; "y"];
                          resultRows := [["1"; "abc"]; ["2"; "3"]] |}) init)
    = header :: " " :: lines /\
    lines = map format_row
              (fCurrentTableData
                 (LoadQueryResultsToTable
                    (Some {| fieldNames := ["x"; "y"];
                             resultRows := [["1"; "abc"]; ["2"; "3"]] |})
                    init)) /\
    List.length lines = 2 /\
    Forall (fun l => String.length l = 15 * 2) (header :: lines).
Proof.
  apply (view_lines_are_fixed_width
           {| fieldNames := ["x"; "y"];
              resultRows := [["1"; "abc"]; ["2"; "3"]] |} init).
  - repeat constructor.
  - repeat constructor.
Defined.

(** *** Plot requests *)

Lemma at_index_wrapped {A : Type} (v : list A) (i : Z) :
  (0 <= i < Z.of_nat (List.length v))%Z ->
  exists a : A, at_index v (to_size_t i) = Some a.
Proof.
  intros [H0 H1].
  assert (M : (0 <= to_size_t i <= i)%Z).
  { unfold to_size_t. split.
    - apply Z.mod_pos_bound. lia.
    - apply Z.mod_le; lia. }
  destruct v as [|a0 t]; [cbn in H1; lia|].
  exists (nth (Z.to_nat (to_size_t i)) (a0 :: t) a0).
  apply at_index_nth. lia.
Qed.

Lemma Hist1D_empty (cbrt : Q -> Q) (fmt_g : Q -> string) (garbage : Q -> Z)
    (xName : option string) :
  Hist1D cbrt fmt_g garbage [] xName = Undefined.
Proof. unfold Hist1D. destruct (BinWidth cbrt []); reflexivity. Qed.

Lemma Hist2D_empty (cbrt : Q -> Q) (garbage : Q -> Z) (yData : list Q)
    (xName yName : option string) :
  Hist2D cbrt garbage [] yData xName yName = Undefined.
Proof.
  unfold Hist2D.
  destruct (BinWidth cbrt []); [|reflexivity].
  destruct (BinWidth cbrt yData); reflexivity.
Qed.

Lemma empty_histogram_undefined
    (cbrt : Q -> Q) (Atof : string -> Q) (fmt_g : Q -> string)
    (garbage : Q -> Z)
    (tableData : list (list string)) (tableHeader : list string)
    (xIndex yIndex : Z) (canvasQueue : list TCanvas)
    (maxCanvases : nat) (newCanvas : TCanvas) :
  valid_count tableData xIndex = 0 ->
  pr_drawn (PlotSelectedData cbrt Atof fmt_g garbage tableData tableHeader
              xIndex yIndex 1 canvasQueue maxCanvases newCanvas)
  = Undefined.
Proof.
  intro V. rewrite <- (collect_x_length Atof) in V.
  unfold PlotSelectedData.
  destruct (rotate_canvases canvasQueue maxCanvases newCanvas) as [q w].
  cbn [pr_drawn]. change (1 =? 1)%Z with true. cbv iota.
  destruct (collect_x Atof tableData xIndex) as [|x t];
    [|discriminate V].
  destruct (_ || _)%bool; [apply Hist1D_empty | apply Hist2D_empty].
Qed.

Lemma other_plots_defined
    (cbrt : Q -> Q) (Atof : string -> Q) (fmt_g : Q -> string)
    (garbage : Q -> Z)
    (tableData : list (list string)) (tableHeader : list string)
    (xIndex yIndex plotType : Z) (canvasQueue : list TCanvas)
    (maxCanvases : nat) (newCanvas : TCanvas) :
  (0 <= xIndex < Z.of_nat (List.length tableHeader))%Z ->
  (yIndex < Z.of_nat (List.length tableHeader))%Z ->
  plotType <> 1%Z ->
  pr_drawn (PlotSelectedData cbrt Atof fmt_g garbage tableData tableHeader
              xIndex yIndex plotType canvasQueue maxCanvases newCanvas)
  <> Undefined.
Proof.
  intros Hx Hy P1.
  destruct (at_index_wrapped tableHeader xIndex Hx) as [xName Ex].
  unfold PlotSelectedData.
  destruct (rotate_canvases canvasQueue maxCanvases newCanvas) as [q w].
  cbn [pr_drawn]. rewrite Ex.
  destruct (Z.eqb_spec plotType 1) as [|_]; [contradiction|].
  destruct (Z.eqb_spec plotType 2) as [P2|P2]; [|discriminate].
  destruct (Z.ltb_spec yIndex 0) as [L|L]; cbn [orb].
  - cbn [Scatter1D]. discriminate.
  - destruct (at_index_wrapped tableHeader yIndex ltac:(lia))
      as [yName Ey]. rewrite Ey.
    destruct (negb _); cbn [Scatter1D Scatter2D]; discriminate.
Qed.

(** X13.  A plot request whose X selection is not one of the columns of the
    stored table (in particular any request while no table is stored) only
    prints "Invalid X column selection.": no window is opened or closed and
    the charts kept in [fLastHist] and [fLastHist2D] are not touched. *)
Theorem invalid_x_selection_only_prints
    (cbrt : Q -> Q) (Atof : string -> Q) (fmt_g : Q -> string)
    (garbage : Q -> Z)
    (xSelected ySelected plotType : Z) (rnd : N) (st : MyMainFrame) :
  (xSelected <= 0)%Z \/
    (Z.of_nat (List.length (fCurrentTableHeader st)) < xSelected)%Z ->
  exists st' : MyMainFrame,
    OnPlotButtonClicked cbrt Atof fmt_g garbage xSelected ySelected plotType
      rnd st = Some st' /\
    stdout st' = (stdout st ++ [("Invalid X column selection." ++ newline)%string])%list /\
    fCanvasQueue st' = fCanvasQueue st /\ windows st' = windows st /\
    created st' = created st /\
    fLastHist st' = fLastHist st /\ fLastHist2D st' = fLastHist2D st /\
    fDataView st' = fDataView st.
Proof.
  intro H. unfold OnPlotButtonClicked.
  assert (G : ((xSelected - 1 <? 0)
               || (Z.of_nat (List.length (fCurrentTableHeader st))
                   <=? xSelected - 1))%Z = true).
  { apply orb_true_iff. destruct H as [H|H].
    - left. apply Z.ltb_lt. lia.
    - right. apply Z.leb_le. lia. }
  rewrite G. eexists. split; [reflexivity|]. repeat split.
Qed.

Lemma invalid_x_selection_only_prints_witness :
  exists st' : MyMainFrame,
    OnPlotButtonClicked Samples.cbrt Samples.Atof Samples.fmt_g
      Samples.garbage 1 0 1 9 init = Some st' /\
    stdout st' = (stdout init ++ [("Invalid X column selection." ++ newline)%string])%list /\
    fCanvasQueue st' = fCanvasQueue init /\ windows st' = windows init /\
    created st' = created init /\
    fLastHist st' = fLastHist init /\ fLastHist2D st' = fLastHist2D init /\
    fDataView st' = fDataView init.
Proof.
  apply (invalid_x_selection_only_prints Samples.cbrt Samples.Atof
           Samples.fmt_g Samples.garbage 1 0 1 9 init).
  right. cbn. lia.
Defined.

(** X14.  With a valid X selection and a Y selection that is none or one of
    the columns: a histogram of an X column without any non-empty cell does
    not run to its end (the minimum of an empty series is read, which is
    undefined); a request that is not a histogram, that is a scatter plot
    or a request without plot type, always runs to its end.  Nothing is
    said here of a histogram of a column with values. *)
Theorem empty_histogram_is_undefined_other_plots_run
    (cbrt : Q -> Q) (Atof : string -> Q) (fmt_g : Q -> string)
    (garbage : Q -> Z)
    (xSelected ySelected plotType : Z) (rnd : N) (st : MyMainFrame) :
  (1 <= xSelected <= Z.of_nat (List.length (fCurrentTableHeader st)))%Z ->
  (ySelected <= Z.of_nat (List.length (fCurrentTableHeader st)))%Z ->
  (plotType = 1%Z ->
   valid_count (fCurrentTableData st) (xSelected - 1) = 0 ->
   OnPlotButtonClicked cbrt Atof fmt_g garbage xSelected ySelected plotType
     rnd st = None) /\
  (plotType <> 1%Z ->
   exists st' : MyMainFrame,
     OnPlotButtonClicked cbrt Atof fmt_g garbage xSelected ySelected plotType
       rnd st = Some st').
Proof.
  intros Hx Hy. unfold OnPlotButtonClicked.
  assert (G : ((xSelected - 1 <? 0)
               || (Z.of_nat (List.length (fCurrentTableHeader st))
                   <=? xSelected - 1))%Z = false).
  { apply orb_false_iff. split; [apply Z.ltb_ge | apply Z.leb_gt]; lia. }
  rewrite G. split.
  - intros -> V.
    rewrite (empty_histogram_undefined cbrt Atof fmt_g garbage
               (fCurrentTableData st) (fCurrentTableHeader st)
               (xSelected - 1) (ySelected - 1) (fCanvasQueue st) kMaxCanvases
               {| cv_serial := created st; cv_rnd := rnd |} V).
    reflexivity.
  - intro P1.
    pose proof (other_plots_defined cbrt Atof fmt_g garbage
                  (fCurrentTableData st) (fCurrentTableHeader st)
                  (xSelected - 1) (ySelected - 1) plotType
                  (fCanvasQueue st) kMaxCanvases
                  {| cv_serial := created st; cv_rnd := rnd |}
                  ltac:(lia) ltac:(lia) P1) as D.
    destruct (pr_drawn _); [contradiction | |]; eexists; reflexivity.
Qed.

Lemma empty_histogram_is_undefined_other_plots_run_witness :
  let st := LoadQueryResultsToTable
              (Some {| fieldNames := ["x"; "y"];
                       resultRows := [[EmptyString; "1"];
                                      [EmptyString; "2"]] |}) init in
  OnPlotButtonClicked Samples.cbrt Samples.Atof Samples.fmt_g
    Samples.garbage 1 0 1 9 st = None /\
  exists st' : MyMainFrame,
    OnPlotButtonClicked Samples.cbrt Samples.Atof Samples.fmt_g
      Samples.garbage 1 2 2 9 st = Some st'.
Proof.
  cbv zeta.
  set (st := LoadQueryResultsToTable
               (Some {| fieldNames := ["x"; "y"];
                        resultRows := [[EmptyString; "1"];
                                       [EmptyString; "2"]] |}) init).
  split.
  - refine (proj1 (empty_histogram_is_undefined_other_plots_run
                     Samples.cbrt Samples.Atof Samples.fmt_g Samples.garbage
                     1 0 1 9 st _ _) eq_refl eq_refl).
    + cbn. lia.
    + cbn. lia.
  - refine (proj2 (empty_histogram_is_undefined_other_plots_run
                     Samples.cbrt Samples.Atof Samples.fmt_g Samples.garbage
                     1 2 2 9 st _ _) _).
    + cbn. lia.
    + cbn. lia.
    + discriminate.
Defined.

Lemma not_histogram_keeps_no_chart
    (cbrt : Q -> Q) (Atof : string -> Q) (fmt_g : Q -> string)
    (garbage : Q -> Z)
    (tableData : list (list string)) (tableHeader : list string)
    (xIndex yIndex plotType : Z) (canvasQueue : list TCanvas)
    (maxCanvases : nat) (newCanvas : TCanvas) :
  plotType <> 1%Z ->
  let r := PlotSelectedData cbrt Atof fmt_g garbage tableData tableHeader
             xIndex yIndex plotType canvasQueue maxCanvases newCanvas in
  pr_fLastHist r = None /\ pr_fLastHist2D r = None /\
  (plotType <> 2%Z -> pr_drawn r = Blank).
Proof.
  intro P1. cbv zeta. unfold PlotSelectedData.
  destruct (rotate_canvases canvasQueue maxCanvases newCanvas) as [q w].
  cbn [pr_fLastHist pr_fLastHist2D pr_drawn].
  destruct (Z.eqb_spec plotType 1) as [|_]; [contradiction|].
  destruct (Z.eqb_spec plotType 2) as [P2|P2]; [|repeat split].
  match goal with
  | |- context [if ?b then Scatter1D _ _ else _] => destruct b
  end; unfold Scatter1D, Scatter2D.
  - destruct (at_index tableHeader (to_size_t xIndex));
      (split; [reflexivity | split; [reflexivity | intro C; contradiction]]).
  - destruct (at_index tableHeader (to_size_t xIndex));
      [destruct (at_index tableHeader (to_size_t yIndex))|];
      (split; [reflexivity | split; [reflexivity | intro C; contradiction]]).
Qed.

Lemma opened_count_app (a b : list WinEvent) :
  opened_count (a ++ b) = opened_count a + opened_count b.
Proof. unfold opened_count. rewrite filter_app, length_app. reflexivity. Qed.

(** X15.  Every plot request with a valid X selection that runs to its end
    opens exactly one new window, also when the plot type is neither
    histogram nor scatter, in which case nothing is drawn in it: the log of
    window events grows by the closing and deletion of the oldest window
    when the pool is full, and by nothing else than one new window; the
    pool is the old pool without that oldest window, followed by the new
    window.  Unless a histogram is requested, no chart is kept in
    [fLastHist] or [fLastHist2D] afterwards. *)
Theorem every_plot_opens_one_window
    (cbrt : Q -> Q) (Atof : string -> Q) (fmt_g : Q -> string)
    (garbage : Q -> Z)
    (xSelected ySelected plotType : Z) (rnd : N) (st st' : MyMainFrame) :
  (1 <= xSelected <= Z.of_nat (List.length (fCurrentTableHeader st)))%Z ->
  OnPlotButtonClicked cbrt Atof fmt_g garbage xSelected ySelected plotType
    rnd st = Some st' ->
  let c := {| cv_serial := created st; cv_rnd := rnd |} in
  let full := (kMaxCanvases <=? List.length (fCanvasQueue st))%nat in
  fCanvasQueue st'
  = ((if full then tl (fCanvasQueue st) else fCanvasQueue st) ++ [c])%list /\
  windows st'
  = (windows st
       ++ (if full
           then match fCanvasQueue st with
                | oldCanvas :: _ => [WinClose oldCanvas; WinDelete oldCanvas]
                | [] => []
                end
           else [])
       ++ [WinNew c])%list /\
  opened_count (windows st') = S (opened_count (windows st)) /\
  (plotType <> 1%Z -> fLastHist st' = None /\ fLastHist2D st' = None) /\
  (plotType <> 1%Z -> plotType <> 2%Z ->
   pr_drawn (PlotSelectedData cbrt Atof fmt_g garbage
               (fCurrentTableData st) (fCurrentTableHeader st)
               (xSelected - 1) (ySelected - 1) plotType
               (fCanvasQueue st) kMaxCanvases c) = Blank).
Proof.
  intros Hx E. cbv zeta. unfold OnPlotButtonClicked in E.
  assert (G : ((xSelected - 1 <? 0)
               || (Z.of_nat (List.length (fCurrentTableHeader st))
                   <=? xSelected - 1))%Z = false).
  { apply orb_false_iff. split; [apply Z.ltb_ge | apply Z.leb_gt]; lia. }
  rewrite G in E.
  set (c := {| cv_serial := created st; cv_rnd := rnd |}) in *.
  set (r := PlotSelectedData cbrt Atof fmt_g garbage
              (fCurrentTableData st) (fCurrentTableHeader st)
              (xSelected - 1) (ySelected - 1) plotType
              (fCanvasQueue st) kMaxCanvases c) in *.
  assert (S' : st' = set_plot r st).
  { destruct (pr_drawn r); [discriminate | |]; injection E as <-;
      reflexivity. }
  destruct (PlotSelectedData_rotation cbrt Atof fmt_g garbage
              (fCurrentTableData st) (fCurrentTableHeader st)
              (xSelected - 1) (ySelected - 1) plotType
              (fCanvasQueue st) kMaxCanvases c) as [Rq Rw].
  fold r in Rq, Rw.
  assert (Shape :
    rotate_canvases (fCanvasQueue st) kMaxCanvases c
    = (((if (kMaxCanvases <=? List.length (fCanvasQueue st))%nat
         then tl (fCanvasQueue st) else fCanvasQueue st) ++ [c])%list,
       ((if (kMaxCanvases <=? List.length (fCanvasQueue st))%nat
         then match fCanvasQueue st with
              | oldCanvas :: _ => [WinClose oldCanvas; WinDelete oldCanvas]
              | [] => []
              end
         else []) ++ [WinNew c])%list)).
  { unfold rotate_canvases.
    destruct (kMaxCanvases <=? List.length (fCanvasQueue st))%nat;
      [destruct (fCanvasQueue st)|]; reflexivity. }
  rewrite Shape in Rq, Rw. cbn [fst snd] in Rq, Rw.
  subst st'. cbn [set_plot fCanvasQueue windows created fLastHist fLastHist2D].
  split; [exact Rq|].
  split; [rewrite Rw; reflexivity|].
  split.
  { rewrite Rw, !opened_count_app.
    destruct (kMaxCanvases <=? List.length (fCanvasQueue st))%nat;
      [destruct (fCanvasQueue st)|]; cbn; lia. }
  assert (NotHist : plotType <> 1%Z ->
            pr_fLastHist r = None /\ pr_fLastHist2D r = None /\
            (plotType <> 2%Z -> pr_drawn r = Blank)).
  { intro P1. apply not_histogram_keeps_no_chart. exact P1. }
  split.
  - intro P1. destruct (NotHist P1) as (A & B & _). split; assumption.
  - intros P1 P2. destruct (NotHist P1) as (_ & _ & C). exact (C P2).
Qed.

Lemma every_plot_opens_one_window_witness :
  let st := OnRunSQLClicked Samples.engine_ab "select 1" init in
  exists st' : MyMainFrame,
    OnPlotButtonClicked Samples.cbrt Samples.Atof Samples.fmt_g
      Samples.garbage 1 0 (-1) 9 st = Some st' /\
    fCanvasQueue st' = [{| cv_serial := 0; cv_rnd := 9 |}] /\
    opened_count (windows st') = 1 /\
    fLastHist st' = None /\ fLastHist2D st' = None.
Proof.
  cbv zeta. eexists. split; [vm_compute; reflexivity|].
  split; [reflexivity|].
  refine (_ (every_plot_opens_one_window Samples.cbrt Samples.Atof
               Samples.fmt_g Samples.garbage 1 0 (-1) 9
               (OnRunSQLClicked Samples.engine_ab "select 1" init) _ _ _)).
  - cbv zeta. intros (_ & _ & C & H & _).
    split; [exact C|]. apply H. discriminate.
  - split; vm_compute; intro C; discriminate C.
  - vm_compute. reflexivity.
Defined.

(** *** The query history *)

Lemma push_history_shape (q : string) (h : list string) :
  push_history q h
  = (if (kMaxQueryHistory <=? List.length h)%nat then (tl h ++ [q])%list
     else (h ++ [q])%list).
Proof.
  unfold push_history. rewrite length_app. cbn [List.length].
  destruct (Nat.ltb_spec kMaxQueryHistory (List.length h + 1)) as [A|A];
    destruct (Nat.leb_spec kMaxQueryHistory (List.length h)) as [B|B];
    try lia; [|reflexivity].
  destruct h as [|x t]; [cbn in B; unfold kMaxQueryHistory in B; lia|].
  reflexivity.
Qed.

(** X16.  Whatever the submitted text and whatever the engine answers, the
    text becomes the newest entry of the history and of the history view:
    rejected and failed queries are recorded like the others.  Below the
    capacity the history grows by the text; at the capacity the oldest entry
    is dropped. *)
Theorem every_submission_is_recorded
    (Query : string -> option TSQLResult)
    (userQuery : string) (st : MyMainFrame) :
  let st' := OnRunSQLClicked Query userQuery st in
  List.last (fQueryHistory st') EmptyString = userQuery /\
  fQueryHistoryView st' = fQueryHistory st' /\
  (List.length (fQueryHistory st) < 10 ->
   fQueryHistory st' = (fQueryHistory st ++ [userQuery])%list) /\
  (10 <= List.length (fQueryHistory st) ->
   fQueryHistory st' = (tl (fQueryHistory st) ++ [userQuery])%list).
Proof.
  cbv zeta.
  assert (V : fQueryHistoryView (OnRunSQLClicked Query userQuery st)
              = fQueryHistory (OnRunSQLClicked Query userQuery st)).
  { unfold OnRunSQLClicked, LoadQueryResultsToTable.
    destruct (negb _); [reflexivity|].
    destruct (Query userQuery); reflexivity. }
  rewrite V, OnRunSQLClicked_history, push_history_shape.
  split; [|split; [|split]].
  - destruct (_ <=? _)%nat; apply last_last.
  - reflexivity.
  - intro L. unfold kMaxQueryHistory.
    destruct (Nat.leb_spec 10 (List.length (fQueryHistory st)));
      [lia | reflexivity].
  - intro L. unfold kMaxQueryHistory.
    destruct (Nat.leb_spec 10 (List.length (fQueryHistory st)));
      [reflexivity | lia].
Qed.

(** *** CSV export *)

Lemma substring_append_right (a b : string) :
  substring (String.length a) (String.length b) (a ++ b) = b.
Proof.
  induction a as [|c t IH]; cbn [String.length append substring].
  - induction b as [|d u IHu]; cbn; congruence.
  - exact IH.
Qed.

Lemma EndsWith_append (a suffix : string) :
  EndsWith (a ++ suffix) suffix = true.
Proof.
  unfold EndsWith. rewrite append_length.
  destruct (Nat.leb_spec (String.length suffix)
              (String.length a + String.length suffix)) as [L|L]; [|lia].
  replace (String.length a + String.length suffix - String.length suffix)
    with (String.length a) by lia.
  rewrite substring_append_right. cbn [andb]. apply String.eqb_refl.
Qed.

(** X17.  Every file that CSV export writes has a name that ends in ".csv":
    a chosen name that already ends so is used as it is, any other name gets
    ".csv" appended.  The file holds the header line and the row lines of
    the stored table. *)
Theorem exported_file_name_ends_in_csv
    (filename : string) (opens : bool) (st : MyMainFrame) :
  let st' := OnExportCSVClicked filename opens st in
  files st' = files st \/
  exists path : string,
    files st'
    = (files st ++
       [(path, Spec.csv (fCurrentTableHeader st) (fCurrentTableData st))])%list /\
    EndsWith path ".csv" = true /\
    (EndsWith filename ".csv" = true -> path = filename) /\
    (EndsWith filename ".csv" = false -> path = filename ++ ".csv").
Proof.
  cbv zeta. unfold OnExportCSVClicked.
  destruct (fCurrentTableData st) as [|row rest] eqn:D; [left; reflexivity|].
  destruct (IsNull filename); [left; reflexivity|].
  destruct opens; cbn [negb]; [|left; reflexivity].
  right. cbn [files print write_file]. rewrite csv_output_spec.
  destruct (EndsWith filename ".csv") eqn:E.
  - exists filename. repeat split; try reflexivity; try assumption.
    discriminate.
  - exists (filename ++ ".csv"). split; [reflexivity|].
    split; [apply EndsWith_append|]. split; [discriminate | reflexivity].
Qed.

(** X18.  CSV export writes a file exactly when the stored table has at
    least one row, a file name was chosen and the file could be opened.  In
    every case it leaves the stored table, the view, the history, the engine
    and the plot windows as they were; without rows it prints "No displayed
    table data to export.", with a file that cannot be opened it prints the
    failure with the path, and after a cancelled dialog it prints nothing. *)
Theorem export_writes_only_with_rows_name_and_file
    (filename : string) (opens : bool) (st : MyMainFrame) :
  let st' := OnExportCSVClicked filename opens st in
  (files st' <> files st <->
   fCurrentTableData st <> [] /\ IsNull filename = false /\ opens = true) /\
  (fCurrentTableHeader st' = fCurrentTableHeader st /\
   fCurrentTableData st' = fCurrentTableData st /\
   fDataView st' = fDataView st /\ queried st' = queried st /\
   fQueryHistory st' = fQueryHistory st /\
   fCanvasQueue st' = fCanvasQueue st /\ windows st' = windows st) /\
  (fCurrentTableData st = [] ->
   stdout st'
   = (stdout st ++ [("No displayed table data to export." ++ newline)%string])%list) /\
  (fCurrentTableData st <> [] -> IsNull filename = true ->
   stdout st' = stdout st) /\
  (fCurrentTableData st <> [] -> IsNull filename = false -> opens = false ->
   exists path : string,
     stdout st'
     = (stdout st ++ [("Failed to open file for writing: " ++ path
                         ++ newline)%string])%list /\
     EndsWith path ".csv" = true).
Proof.
  cbv zeta.
  destruct (OnExportCSVClicked_table filename opens st) as (T1 & T2 & T3 & T4).
  destruct (OnExportCSVClicked_frame filename opens st) as (F1 & F2 & F3 & _).
  split; [|split; [repeat split; assumption|]].
  - unfold OnExportCSVClicked.
    destruct (fCurrentTableData st) as [|row rest] eqn:D.
    { split; [intro H; exfalso; apply H; reflexivity
             | intros [H _]; congruence]. }
    destruct (IsNull filename).
    { split; [intro H; exfalso; apply H; reflexivity
             | intros (_ & H & _); discriminate H]. }
    destruct opens; cbn [negb].
    + split; [intros _; repeat split; discriminate|].
      intros _. cbn [files print write_file]. intro H.
      apply (f_equal (@List.length (string * string))) in H.
      rewrite length_app in H. cbn in H. lia.
    + split; [intro H; exfalso; apply H; reflexivity
             | intros (_ & _ & H); discriminate H].
  - unfold OnExportCSVClicked.
    destruct (fCurrentTableData st) as [|row rest] eqn:D.
    { split; [intros _; reflexivity|].
      split; intro H; exfalso; apply H; reflexivity. }
    split; [discriminate|]. split.
    + intros _ N. rewrite N. reflexivity.
    + intros _ N O. rewrite N, O. cbn [negb stdout print].
      destruct (EndsWith filename ".csv") eqn:E.
      * exists filename. split; [reflexivity | exact E].
      * exists (filename ++ ".csv"). split; [reflexivity|].
        apply EndsWith_append.
Qed.

(** X19.  A query or a table selection that the engine fails leaves the
    stored table as it was although the view no longer shows it: a CSV export
    right after the failure still writes the previous table.  After a failed
    query the view shows the failure message; after a failed table selection
    the view is blank, without any message. *)
Theorem failed_load_keeps_table_exportable
    (Query : string -> option TSQLResult)
    (filename : string) (st : MyMainFrame) :
  fCurrentTableData st <> [] -> IsNull filename = false ->
  let path := if EndsWith filename ".csv" then filename
              else filename ++ ".csv" in
  let table := Spec.csv (fCurrentTableHeader st) (fCurrentTableData st) in
  (forall userQuery : string,
     BeginsWith (ToLower userQuery) "select" = true ->
     Query userQuery = None ->
     let st1 := OnRunSQLClicked Query userQuery st in
     fDataView st1 = [msg_query_failed] /\
     files (OnExportCSVClicked filename true st1)
     = (files st ++ [(path, table)])%list) /\
  (forall tableName : string,
     tableName <> "Custom" ->
     Query ("SELECT * FROM " ++ dquote ++ tableName ++ dquote) = None ->
     let st1 := OnTableSelected Query (Some tableName) st in
     fDataView st1 = [] /\
     files (OnExportCSVClicked filename true st1)
     = (files st ++ [(path, table)])%list).
Proof.
  intros Hd Hf. cbv zeta.
  destruct (fCurrentTableData st) as [|row rest] eqn:D; [congruence|].
  split.
  - intros q B N. unfold OnRunSQLClicked. rewrite B, N. cbn [negb].
    split; [reflexivity|].
    unfold OnExportCSVClicked.
    cbn [fCurrentTableData fCurrentTableHeader set_view log_query
           set_history files].
    rewrite D, Hf. cbn [negb files print write_file set_view log_query
                          set_history].
    rewrite csv_output_spec. reflexivity.
  - intros name Hn N. unfold OnTableSelected.
    assert (E : String.eqb name "Custom" = false)
      by (apply String.eqb_neq; exact Hn).
    rewrite E, N. cbn [LoadQueryResultsToTable].
    split; [reflexivity|].
    unfold OnExportCSVClicked.
    cbn [fCurrentTableData fCurrentTableHeader set_view log_query files].
    rewrite D, Hf. cbn [negb files print write_file set_view log_query].
    rewrite csv_output_spec. reflexivity.
Qed.

Lemma failed_load_keeps_table_exportable_witness :
  let st := OnRunSQLClicked Samples.engine_ab "select 1" init in
  let st1 := OnRunSQLClicked Samples.engine_fails "select 2" st in
  fDataView st1 = [msg_query_failed] /\
  files (OnExportCSVClicked "old" true st1)
  = [("old.csv", Spec.csv ["a"; "b"] [["1"; "2"]])].
Proof.
  cbv zeta.
  refine (proj1 (failed_load_keeps_table_exportable Samples.engine_fails
                   "old" (OnRunSQLClicked Samples.engine_ab "select 1" init)
                   _ _) "select 2" _ _).
  - vm_compute. discriminate.
  - reflexivity.
  - reflexivity.
  - reflexivity.
Defined.

(** X20.  Selecting nothing or the entry "Custom" in the table drop-down
    changes nothing.  Selecting a table name sends exactly one statement,
    [SELECT * FROM "name"] with the name between double quotes as it is, to
    the engine, without the SELECT prefix check and without an entry in the
    query history; a result is loaded as for a submitted query. *)
Theorem table_selection_queries_the_table
    (Query : string -> option TSQLResult)
    (entry : option string) (st : MyMainFrame) :
  let st' := OnTableSelected Query entry st in
  (entry = None \/ entry = Some "Custom" -> st' = st) /\
  (forall tableName : string,
     entry = Some tableName -> tableName <> "Custom" ->
     let statement := "SELECT * FROM " ++ dquote ++ tableName ++ dquote in
     queried st' = (queried st ++ [statement])%list /\
     fQueryHistory st' = fQueryHistory st /\
     fQueryHistoryView st' = fQueryHistoryView st /\
     forall result : TSQLResult,
       Query statement = Some result ->
       fCurrentTableHeader st' = fieldNames result /\
       List.length (fCurrentTableData st')
       = List.length (resultRows result) /\
       fDataView st'
       = format_row (fieldNames result) :: " "
           :: map format_row (fCurrentTableData st')).
Proof.
  cbv zeta. split.
  - intros [-> | ->]; reflexivity.
  - intros name -> Hn. cbv zeta. unfold OnTableSelected.
    assert (E : String.eqb name "Custom" = false)
      by (apply String.eqb_neq; exact Hn).
    rewrite E.
    set (statement := "SELECT * FROM " ++ dquote ++ name ++ dquote).
    destruct (Query statement) as [result|] eqn:Q.
    + split; [reflexivity|]. split; [reflexivity|]. split; [reflexivity|].
      intros r Er. injection Er as <-.
      destruct (Load_fields result
                  (log_query statement (set_view (Clear (fDataView st)) st)))
        as (H & D & V).
      cbv zeta in H, D, V.
      split; [exact H|]. split; [rewrite D; apply length_map | exact V].
    + split; [reflexivity|]. split; [reflexivity|]. split; [reflexivity|].
      intros r Er. discriminate Er.
Qed.

End ViewerExtras.

(** ** Properties of the window with its connection and its hint panel *)

Module SessionExtras.

Import TStr PlotUtils Viewer Session PlotFacts ViewerFacts ViewerExtras.
Local Open Scope nat_scope.
Local Open Scope string_scope.

Section Facts.

Variable Connect : string -> option TSQLServer.
Variable cbrt : Q -> Q.
Variable Atof : string -> Q.
Variable fmt_g : Q -> string.
Variable garbage : Q -> Z.

Lemma act_hints (w w' : Window) (a : Action) :
  act Connect cbrt Atof fmt_g garbage w a = Some w' ->
  hints_agree w ->
  hints_agree w' /\
  fHintsVisible w'
  = (match a with
     | DoToggleHints => negb (fHintsVisible w)
     | _ => fHintsVisible w
     end).
Proof.
  unfold hints_agree.
  destruct a as [q|entry|filename opens|x y t rnd| |filename]; cbn [act];
    intros E [A B].
  - destruct (_ && _)%bool; [discriminate|]. injection E as <-.
    repeat split; assumption.
  - destruct (_ && _)%bool; [discriminate|]. injection E as <-.
    repeat split; assumption.
  - injection E as <-. repeat split; assumption.
  - destruct (OnPlotButtonClicked _ _ _ _ _ _ _ _ _); [|discriminate].
    injection E as <-. repeat split; assumption.
  - injection E as <-. unfold OnToggleHints.
    destruct (fHintsVisible w); repeat split.
  - injection E as <-. unfold OnChangeFile.
    destruct (IsNull filename); [repeat split; assumption|].
    match goal with |- context [if ?b then _ else _] => destruct b end;
      repeat split; assumption.
Qed.

Lemma session_hints (actions : list Action) :
  forall w w' : Window,
    session Connect cbrt Atof fmt_g garbage w actions = Some w' ->
    hints_agree w ->
    hints_agree w' /\
    fHintsVisible w' = xorb (fHintsVisible w) (Nat.odd (toggles actions)).
Proof.
  induction actions as [|a rest IH]; intros w w' E H; cbn [session] in E.
  - injection E as <-. split; [exact H|].
    cbn. destruct (fHintsVisible w); reflexivity.
  - destruct (act Connect cbrt Atof fmt_g garbage w a) as [w1|] eqn:A1;
      [|discriminate].
    destruct (act_hints w w1 a A1 H) as [H1 V1].
    destruct (IH w1 w' E H1) as [H' V']. split; [exact H'|].
    rewrite V', V1.
    destruct a; cbn [toggles]; try reflexivity.
    rewrite Nat.odd_succ, <- Nat.negb_odd.
    destruct (fHintsVisible w), (Nat.odd (toggles rest)); reflexivity.
Qed.

Lemma set_view_keeps (v : list string) (f : MyMainFrame) :
  fQueryHistory (set_view v f) = fQueryHistory f /\
  fCurrentTableHeader (set_view v f) = fCurrentTableHeader f /\
  fCurrentTableData (set_view v f) = fCurrentTableData f /\
  fCanvasQueue (set_view v f) = fCanvasQueue f /\
  windows (set_view v f) = windows f /\ created (set_view v f) = created f.
Proof. repeat split. Qed.

Lemma step_rectangular (Query : string -> option TSQLResult)
    (st st' : MyMainFrame) (e : Event) :
  step Query cbrt Atof fmt_g garbage st e = Some st' ->
  rectangular st -> rectangular st'.
Proof.
  destruct e as [q|entry|filename opens|x y t rnd]; cbn [step]; intros E R.
  - injection E as <-. now apply OnRunSQLClicked_rectangular.
  - injection E as <-. now apply OnTableSelected_rectangular.
  - injection E as <-.
    destruct (OnExportCSVClicked_table filename opens st) as (A & B & _).
    now apply (rectangular_frame st).
  - destruct (OnPlotButtonClicked_table _ _ _ _ _ _ _ _ _ _ E) as (A & B & _).
    now apply (rectangular_frame st).
Qed.

Lemma act_invariants (w w' : Window) (a : Action) :
  act Connect cbrt Atof fmt_g garbage w a = Some w' ->
  (PoolInv (frame w) -> PoolInv (frame w')) /\
  (rectangular (frame w) -> rectangular (frame w')) /\
  fQueryHistory (frame w')
  = match a with
    | DoRunSQL q => push_history q (fQueryHistory (frame w))
    | _ => fQueryHistory (frame w)
    end.
Proof.
  assert (ByStep : forall (e : Event) (f : MyMainFrame),
            step (engine w) cbrt Atof fmt_g garbage (frame w) e = Some f ->
            (PoolInv (frame w) -> PoolInv f) /\
            (rectangular (frame w) -> rectangular f) /\
            fQueryHistory f
            = match e with
              | RunSQL q => push_history q (fQueryHistory (frame w))
              | _ => fQueryHistory (frame w)
              end).
  { intros e f S1.
    split; [intro P; eapply PoolInv_step; eassumption|].
    split; [intro R; eapply step_rectangular; eassumption|].
    apply (step_history _ _ _ _ _ _ _ _ S1). }
  assert (ByView : forall v : list string,
            (PoolInv (frame w) -> PoolInv (set_view v (frame w))) /\
            (rectangular (frame w) -> rectangular (set_view v (frame w))) /\
            fQueryHistory (set_view v (frame w)) = fQueryHistory (frame w)).
  { intro v.
    split; [intro P; now apply (PoolInv_frame (frame w))|].
    split; [intro R; now apply (rectangular_frame (frame w))|].
    reflexivity. }
  destruct a as [q|entry|filename opens|x y t rnd| |filename]; cbn [act];
    intro E.
  - destruct (_ && _)%bool; [discriminate|]. injection E as <-.
    apply (ByStep (RunSQL q)). reflexivity.
  - destruct (_ && _)%bool; [discriminate|]. injection E as <-.
    apply (ByStep (SelectTable entry)). reflexivity.
  - injection E as <-. apply (ByStep (ExportCSV filename opens)). reflexivity.
  - destruct (OnPlotButtonClicked cbrt Atof fmt_g garbage x y t rnd (frame w))
      as [f|] eqn:P; [|discriminate].
    injection E as <-. apply (ByStep (Plot x y t rnd)). exact P.
  - injection E as <-. unfold OnToggleHints.
    destruct (fHintsVisible w); cbn [frame];
      (split; [exact (fun P => P)|]; split; [exact (fun R => R)|];
       reflexivity).
  - injection E as <-. unfold OnChangeFile.
    destruct (IsNull filename);
      [split; [exact (fun P => P)|]; split; [exact (fun R => R)|];
       reflexivity|].
    match goal with |- context [if ?b then _ else _] => destruct b end;
      cbn [frame]; apply ByView.
Qed.

Lemma session_invariants_from (actions : list Action) :
  forall w w' : Window,
    session Connect cbrt Atof fmt_g garbage w actions = Some w' ->
    PoolInv (frame w) -> rectangular (frame w) ->
    List.length (fQueryHistory (frame w)) <= kMaxQueryHistory ->
    PoolInv (frame w') /\ rectangular (frame w') /\
    fQueryHistory (frame w')
    = Spec.most_recent kMaxQueryHistory
        (fQueryHistory (frame w) ++ submitted actions)%list.
Proof.
  induction actions as [|a rest IH]; intros w w' E P R L; cbn [session] in E.
  - injection E as <-. split; [exact P|]. split; [exact R|].
    cbn [submitted]. rewrite app_nil_r. unfold Spec.most_recent.
    replace (List.length (fQueryHistory (frame w)) - kMaxQueryHistory)
      with 0 by lia.
    reflexivity.
  - destruct (act Connect cbrt Atof fmt_g garbage w a) as [w1|] eqn:A1;
      [|discriminate].
    destruct (act_invariants w w1 a A1) as (P1 & R1 & H1).
    assert (L1 : List.length (fQueryHistory (frame w1)) <= kMaxQueryHistory).
    { rewrite H1. destruct a; try exact L.
      rewrite push_history_recent by exact L. apply most_recent_length. }
    destruct (IH w1 w' E (P1 P) (R1 R) L1) as (P' & R' & H').
    split; [exact P'|]. split; [exact R'|].
    rewrite H', H1.
    destruct a; cbn [submitted]; try reflexivity.
    rewrite push_history_recent by exact L.
    rewrite most_recent_app, <- app_assoc. reflexivity.
Qed.

Lemma act_keeps_connection (w w' : Window) (a : Action) :
  (forall url : string, Connect url <> None) ->
  act Connect cbrt Atof fmt_g garbage w a = Some w' ->
  null_fDB w = false -> null_fDB w' = false.
Proof.
  intros Total E N.
  destruct a as [q|entry|filename opens|x y t rnd| |filename]; cbn [act] in E.
  - destruct (_ && _)%bool; [discriminate|]. injection E as <-. exact N.
  - destruct (_ && _)%bool; [discriminate|]. injection E as <-. exact N.
  - injection E as <-. exact N.
  - destruct (OnPlotButtonClicked _ _ _ _ _ _ _ _ _); [|discriminate].
    injection E as <-. exact N.
  - injection E as <-. unfold OnToggleHints.
    destruct (fHintsVisible w); exact N.
  - injection E as <-. unfold OnChangeFile.
    destruct (IsNull filename); [exact N|].
    specialize (Total ("sqlite://" ++ filename)).
    destruct (Connect ("sqlite://" ++ filename)) as [server|];
      [|congruence].
    destruct (IsZombie server); reflexivity.
Qed.

Lemma session_keeps_connection (actions : list Action) :
  (forall url : string, Connect url <> None) ->
  forall w w' : Window,
    session Connect cbrt Atof fmt_g garbage w actions = Some w' ->
    null_fDB w = false -> null_fDB w' = false.
Proof.
  intro Total.
  induction actions as [|a rest IH]; intros w w' E N; cbn [session] in E.
  - injection E as <-. exact N.
  - destruct (act Connect cbrt Atof fmt_g garbage w a) as [w1|] eqn:A1;
      [|discriminate].
    apply (IH w1 w' E). eapply act_keeps_connection; eassumption.
Qed.

End Facts.

(** X21.  Along every session the hint panel is shown exactly when the
    button was pressed an odd number of times, the flag [fHintsVisible]
    agrees with the panel, the button reads "Hide Examples" while the panel
    is shown and "Show Examples" while it is hidden, and pressing the button
    twice in a row gives the same window back. *)
Theorem hint_panel_follows_toggles
    (Connect : string -> option TSQLServer) (cbrt : Q -> Q)
    (Atof : string -> Q) (fmt_g : Q -> string) (garbage : Q -> Z)
    (server : TSQLServer) (path : string)
    (actions : list Action) (w : Window) :
  session Connect cbrt Atof fmt_g garbage (opened server path) actions
    = Some w ->
  fHintWrapper w = Nat.odd (toggles actions) /\
  fHintsVisible w = fHintWrapper w /\
  fToggleHintsBtn w
  = (if fHintWrapper w then "Hide Examples" else "Show Examples") /\
  OnToggleHints (OnToggleHints w) = w.
Proof.
  intro E.
  destruct (session_hints Connect cbrt Atof fmt_g garbage actions
              (opened server path) w E) as [[A B] V].
  { split; reflexivity. }
  cbn [opened fHintsVisible xorb] in V.
  rewrite A. split; [exact V|]. split; [reflexivity|]. split; [exact B|].
  destruct w as [f db label visible wrapper button].
  cbn [fHintWrapper fHintsVisible fToggleHintsBtn] in A, B.
  subst wrapper button. unfold OnToggleHints.
  destruct visible; reflexivity.
Qed.

Lemma hint_panel_follows_toggles_witness :
  exists w : Window,
    session SessionSamples.Connect Samples.cbrt Samples.Atof Samples.fmt_g
      Samples.garbage SessionSamples.start SessionSamples.busy_session
    = Some w /\
    fHintWrapper w = true /\ fHintsVisible w = true /\
    fToggleHintsBtn w = "Hide Examples".
Proof.
  eexists. split; [vm_compute; reflexivity|].
  destruct (hint_panel_follows_toggles SessionSamples.Connect Samples.cbrt
              Samples.Atof Samples.fmt_g Samples.garbage
              SessionSamples.server_ab "first.sqlite"
              SessionSamples.busy_session _
              ltac:(vm_compute; reflexivity)) as (A & B & C & _).
  split; [exact A|]. split; [rewrite B; exact A|].
  rewrite C, A. reflexivity.
Defined.

(** X22.  A cancelled file dialog changes nothing.  When the chosen file
    cannot be connected to (no object, or a zombie), the previous connection
    is gone all the same: [fDB] is what [Connect] returned, the view shows
    "Failed to open selected database.", while the path label, the stored
    table and the history stay as they were.  With a null [fDB], a text that
    passes the SELECT check is undefined behaviour, while a rejected text is
    still answered with its message. *)
Theorem failed_file_change_drops_connection
    (Connect : string -> option TSQLServer) (cbrt : Q -> Q)
    (Atof : string -> Q) (fmt_g : Q -> string) (garbage : Q -> Z)
    (filename : string) (w : Window) :
  (IsNull filename = true -> OnChangeFile Connect filename w = w) /\
  (IsNull filename = false ->
   (match Connect ("sqlite://" ++ filename) with
    | Some server => IsZombie server = true
    | None => True
    end) ->
   let w' := OnChangeFile Connect filename w in
   fDB w' = Connect ("sqlite://" ++ filename) /\
   fDataView (frame w') = [msg_open_failed] /\
   fDBPathLabel w' = fDBPathLabel w /\
   fCurrentTableHeader (frame w') = fCurrentTableHeader (frame w) /\
   fCurrentTableData (frame w') = fCurrentTableData (frame w) /\
   fQueryHistory (frame w') = fQueryHistory (frame w) /\
   (Connect ("sqlite://" ++ filename) = None ->
    forall userQuery : string,
      (BeginsWith (ToLower userQuery) "select" = true ->
       act Connect cbrt Atof fmt_g garbage w' (DoRunSQL userQuery) = None) /\
      (BeginsWith (ToLower userQuery) "select" = false ->
       exists w'' : Window,
         act Connect cbrt Atof fmt_g garbage w' (DoRunSQL userQuery)
         = Some w'' /\
         fDataView (frame w'') = [msg_only_select]))).
Proof.
  split.
  - intro N. unfold OnChangeFile. rewrite N. reflexivity.
  - intros N F. cbv zeta. unfold OnChangeFile. rewrite N.
    destruct (Connect ("sqlite://" ++ filename)) as [server|] eqn:C.
    + rewrite F. do 6 (split; [reflexivity|]). discriminate.
    + do 6 (split; [reflexivity|]). intros _ userQuery. split.
      * intro B. cbn [act null_fDB fDB]. rewrite B. reflexivity.
      * intro B. cbn [act null_fDB fDB]. rewrite B. cbn [andb].
        eexists. split; [reflexivity|].
        cbn [frame with_frame]. unfold OnRunSQLClicked. rewrite B.
        reflexivity.
Qed.

Lemma failed_file_change_drops_connection_witness :
  let w' := OnChangeFile SessionSamples.Connect "missing.sqlite"
              SessionSamples.start in
  fDB w' = None /\ fDataView (frame w') = [msg_open_failed] /\
  fDBPathLabel w' = "Database: first.sqlite" /\
  act SessionSamples.Connect Samples.cbrt Samples.Atof Samples.fmt_g
    Samples.garbage w' (DoRunSQL "select 2") = None.
Proof.
  cbv zeta.
  destruct (proj2 (failed_file_change_drops_connection
                     SessionSamples.Connect Samples.cbrt Samples.Atof
                     Samples.fmt_g Samples.garbage "missing.sqlite"
                     SessionSamples.start) eq_refl I)
    as (A & B & C & _ & _ & _ & D).
  split; [exact A|]. split; [exact B|]. split; [exact C|].
  apply (proj1 (D eq_refl "select 2")). reflexivity.
Defined.

(** X23.  A file change that succeeds installs the new connection, shows the
    new path and empties the view, but keeps the stored table, the history
    and the plot windows of the previous database: a CSV export right after
    the change writes the table of the old database. *)
Theorem file_change_keeps_stored_table
    (Connect : string -> option TSQLServer) (cbrt : Q -> Q)
    (Atof : string -> Q) (fmt_g : Q -> string) (garbage : Q -> Z)
    (filename : string) (server : TSQLServer) (w : Window) :
  IsNull filename = false ->
  Connect ("sqlite://" ++ filename) = Some server ->
  IsZombie server = false ->
  let w' := OnChangeFile Connect filename w in
  fDB w' = Some server /\
  fDBPathLabel w' = "Database: " ++ filename /\
  fDataView (frame w') = [] /\
  fCurrentTableHeader (frame w') = fCurrentTableHeader (frame w) /\
  fCurrentTableData (frame w') = fCurrentTableData (frame w) /\
  fQueryHistory (frame w') = fQueryHistory (frame w) /\
  fCanvasQueue (frame w') = fCanvasQueue (frame w) /\
  (fCurrentTableData (frame w) <> [] ->
   forall out : string,
     IsNull out = false ->
     exists w'' : Window,
       act Connect cbrt Atof fmt_g garbage w' (DoExportCSV out true)
       = Some w'' /\
       files (frame w'')
       = (files (frame w) ++
          [(if EndsWith out ".csv" then out else (out ++ ".csv")%string,
            Spec.csv (fCurrentTableHeader (frame w))
              (fCurrentTableData (frame w)))])%list).
Proof.
  intros N C Z. cbv zeta. unfold OnChangeFile. rewrite N, C, Z.
  cbn [fDB fDBPathLabel frame].
  do 7 (split; [reflexivity|]).
  intros Hd out No. eexists. split; [reflexivity|].
  cbn [frame with_frame]. unfold OnExportCSVClicked.
  cbn [fCurrentTableData fCurrentTableHeader set_view].
  destruct (fCurrentTableData (frame w)) as [|row rest] eqn:D; [congruence|].
  rewrite No. cbn [negb files print write_file set_view].
  rewrite csv_output_spec. reflexivity.
Qed.

Lemma file_change_keeps_stored_table_witness :
  exists w : Window,
    session SessionSamples.Connect Samples.cbrt Samples.Atof Samples.fmt_g
      Samples.garbage SessionSamples.start SessionSamples.change_then_export
    = Some w /\
    fDBPathLabel w = "Database: good.sqlite" /\
    files (frame w) = [("old.csv", Spec.csv ["a"; "b"] [["1"; "2"]])].
Proof.
  eexists. split; [vm_compute; reflexivity|].
  split; [reflexivity|].
  destruct (file_change_keeps_stored_table SessionSamples.Connect
              Samples.cbrt Samples.Atof Samples.fmt_g Samples.garbage
              "good.sqlite" SessionSamples.server_xy
              (with_frame (OnRunSQLClicked Samples.engine_ab "select 1" init)
                 SessionSamples.start)
              eq_refl eq_refl eq_refl)
    as (_ & _ & _ & _ & _ & _ & _ & X).
  destruct (X ltac:(vm_compute; discriminate) "old" eq_refl) as (w'' & A & F).
  vm_compute in A. injection A as <-. vm_compute. reflexivity.
Defined.

(** X24.  The bounds hold on the whole window, across file changes: along
    every session the history is the last 10 submitted texts, the plot-window
    pool holds at most 3 windows and is exactly the set of windows left open,
    and the stored table is rectangular. *)
Theorem session_keeps_bounds
    (Connect : string -> option TSQLServer) (cbrt : Q -> Q)
    (Atof : string -> Q) (fmt_g : Q -> string) (garbage : Q -> Z)
    (server : TSQLServer) (path : string)
    (actions : list Action) (w : Window) :
  session Connect cbrt Atof fmt_g garbage (opened server path) actions
    = Some w ->
  List.length (fQueryHistory (frame w)) <= 10 /\
  fQueryHistory (frame w) = Spec.most_recent 10 (submitted actions) /\
  List.length (fCanvasQueue (frame w)) <= 3 /\
  open_windows (windows (frame w)) = fCanvasQueue (frame w) /\
  rectangular (frame w).
Proof.
  intro E.
  destruct (session_invariants_from Connect cbrt Atof fmt_g garbage actions
              (opened server path) w E) as ([L O _ _ _] & R & H).
  - apply PoolInv_init.
  - unfold rectangular. cbn. constructor.
  - cbn. lia.
  - cbn [opened frame init fQueryHistory app] in H.
    split; [rewrite H; apply most_recent_length|].
    split; [exact H|]. split; [exact L|]. split; [exact O | exact R].
Qed.

Lemma session_keeps_bounds_witness :
  exists w : Window,
    session SessionSamples.Connect Samples.cbrt Samples.Atof Samples.fmt_g
      Samples.garbage SessionSamples.start SessionSamples.busy_session
    = Some w /\
    List.length (fQueryHistory (frame w)) <= 10 /\
    fQueryHistory (frame w)
    = Spec.most_recent 10 (submitted SessionSamples.busy_session) /\
    List.length (fCanvasQueue (frame w)) <= 3 /\
    open_windows (windows (frame w)) = fCanvasQueue (frame w) /\
    rectangular (frame w).
Proof.
  eexists. split; [vm_compute; reflexivity|].
  apply (session_keeps_bounds SessionSamples.Connect Samples.cbrt
           Samples.Atof Samples.fmt_g Samples.garbage
           SessionSamples.server_ab "first.sqlite"
           SessionSamples.busy_session).
  vm_compute. reflexivity.
Defined.

(** X25.  As long as every chosen file gives a connection object, [fDB] is
    never null during a session, so that a submitted text or a table
    selection always runs to its end; a session can then stop only at a plot
    request. *)
Theorem connected_session_answers_every_query
    (Connect : string -> option TSQLServer) (cbrt : Q -> Q)
    (Atof : string -> Q) (fmt_g : Q -> string) (garbage : Q -> Z)
    (server : TSQLServer) (path : string)
    (actions : list Action) (w : Window) :
  (forall url : string, Connect url <> None) ->
  session Connect cbrt Atof fmt_g garbage (opened server path) actions
    = Some w ->
  fDB w <> None /\
  forall a : Action,
    (forall x y t rnd, a <> DoPlot x y t rnd) ->
    exists w' : Window, act Connect cbrt Atof fmt_g garbage w a = Some w'.
Proof.
  intros Total E.
  assert (N : null_fDB w = false).
  { apply (session_keeps_connection Connect cbrt Atof fmt_g garbage actions
             Total (opened server path) w E). reflexivity. }
  split.
  - unfold null_fDB in N. destruct (fDB w); [discriminate | discriminate N].
  - intros a NotPlot.
    destruct a as [q|entry|filename opens|x y t rnd| |filename]; cbn [act].
    + rewrite N, andb_false_r. eexists. reflexivity.
    + rewrite N, andb_false_r. eexists. reflexivity.
    + eexists. reflexivity.
    + exfalso. apply (NotPlot x y t rnd). reflexivity.
    + eexists. reflexivity.
    + eexists. reflexivity.
Qed.

Lemma connected_session_answers_every_query_witness :
  exists w : Window,
    session SessionSamples.Connect_any Samples.cbrt Samples.Atof
      Samples.fmt_g Samples.garbage SessionSamples.start
      SessionSamples.fail_then_query = Some w /\
    fDB w <> None.
Proof.
  eexists. split; [vm_compute; reflexivity|].
  apply (connected_session_answers_every_query SessionSamples.Connect_any
           Samples.cbrt Samples.Atof Samples.fmt_g Samples.garbage
           SessionSamples.server_ab "first.sqlite"
           SessionSamples.fail_then_query).
  - intros url C. discriminate C.
  - vm_compute. reflexivity.
Defined.

End SessionExtras.

(** ** Facts about binary64 *)

Module B64Facts.

Import SpecFloat B64.
Local Open Scope Q_scope.

(** *** Powers of two *)

Lemma pow2_pos (e : Z) : 0 < pow2 e.
Proof. apply Qpower_0_lt. reflexivity. Qed.

Lemma pow2_add (a b : Z) : pow2 (a + b) == pow2 a * pow2 b.
Proof. apply Qpower_plus. intro H. discriminate H. Qed.

Lemma pow2_opp (e : Z) : pow2 (- e) == / pow2 e.
Proof. apply Qpower_opp. Qed.

Lemma pow2_le (a b : Z) : (a <= b)%Z -> pow2 a <= pow2 b.
Proof.
  intro H. apply Qpower_le_compat_l; [exact H|]. discriminate.
Qed.

Lemma pow2_lt (a b : Z) : (a < b)%Z -> pow2 a < pow2 b.
Proof.
  intro H. apply Qpower_lt_compat_l; [exact H|]. reflexivity.
Qed.

Lemma pow2_Z (e : Z) : (0 <= e)%Z -> pow2 e == inject_Z (2 ^ e).
Proof.
  intro H. unfold pow2. rewrite Zpower_Qpower by exact H. reflexivity.
Qed.

Lemma pow2_cancel (e : Z) : pow2 (- e) * pow2 e == 1.
Proof.
  rewrite <- pow2_add. replace (- e + e)%Z with 0%Z by lia. reflexivity.
Qed.

(** Scaling by a power of two and back. *)
Lemma scale_back (x : Q) (e : Z) : x * pow2 (- e) * pow2 e == x.
Proof.
  rewrite <- Qmult_assoc, pow2_cancel. ring.
Qed.

Lemma scale_le (x y : Q) (e : Z) : x <= y -> x * pow2 e <= y * pow2 e.
Proof.
  intro H. apply Qmult_le_compat_r; [exact H|].
  apply Qlt_le_weak, pow2_pos.
Qed.

Lemma scale_lt (x y : Q) (e : Z) : x < y -> x * pow2 e < y * pow2 e.
Proof.
  intro H. apply Qmult_lt_compat_r; [apply pow2_pos | exact H].
Qed.

(** *** The binary logarithm *)

Lemma ilog2_spec (x : Q) :
  0 < x -> pow2 (ilog2 x) <= x /\ x < pow2 (ilog2 x + 1).
Proof.
  intro Hx. destruct x as [a b].
  assert (Ha : (0 < a)%Z).
  { unfold Qlt in Hx. cbn in Hx. lia. }
  unfold ilog2. cbn [Qnum Qden].
  set (la := Z.log2 a). set (lb := Z.log2 (Zpos b)).
  destruct (Z.log2_spec a Ha) as [A1 A2]. fold la in A1, A2.
  destruct (Z.log2_spec (Zpos b) eq_refl) as [B1 B2]. fold lb in B1, B2.
  assert (La : (0 <= la)%Z) by apply Z.log2_nonneg.
  assert (Lb : (0 <= lb)%Z) by apply Z.log2_nonneg.
  (* x lies strictly between 2^(la-lb-1) and 2^(la-lb+1) *)
  assert (T1 : 1 <= inject_Z (Zpos b) / pow2 lb).
  { apply Qle_shift_div_l; [apply pow2_pos|].
    rewrite Qmult_1_l, pow2_Z by lia. rewrite <- Zle_Qle. exact B1. }
  assert (T2 : inject_Z (Zpos b) / pow2 (lb + 1) <= 1).
  { apply Qle_shift_div_r; [apply pow2_pos|].
    rewrite Qmult_1_l, pow2_Z by lia. rewrite <- Zle_Qle.
    replace (lb + 1)%Z with (Z.succ lb) by lia. lia. }
  assert (Up : a # b < pow2 (la - lb + 1)).
  { rewrite Qmake_Qdiv. apply Qlt_shift_div_r; [reflexivity|].
    replace (la - lb + 1)%Z with ((la + 1) + - lb)%Z by lia.
    rewrite pow2_add, pow2_opp.
    setoid_replace (pow2 (la + 1) * / pow2 lb * inject_Z (Zpos b))
      with (pow2 (la + 1) * (inject_Z (Zpos b) / pow2 lb))
      by (unfold Qdiv; ring).
    apply Qlt_le_trans with (pow2 (la + 1)).
    - rewrite pow2_Z by lia. rewrite <- Zlt_Qlt.
      replace (la + 1)%Z with (Z.succ la) by lia. exact A2.
    - rewrite <- (Qmult_1_r (pow2 (la + 1))) at 1.
      apply Qmult_le_l; [apply pow2_pos | exact T1]. }
  assert (Lo : pow2 (la - lb - 1) <= a # b).
  { rewrite Qmake_Qdiv. apply Qle_shift_div_l; [reflexivity|].
    replace (la - lb - 1)%Z with (la + - (lb + 1))%Z by lia.
    rewrite pow2_add, pow2_opp.
    setoid_replace (pow2 la * / pow2 (lb + 1) * inject_Z (Zpos b))
      with (pow2 la * (inject_Z (Zpos b) / pow2 (lb + 1)))
      by (unfold Qdiv; ring).
    apply Qle_trans with (pow2 la).
    - rewrite <- (Qmult_1_r (pow2 la)) at 2.
      apply Qmult_le_l; [apply pow2_pos | exact T2].
    - rewrite pow2_Z by lia. rewrite <- Zle_Qle. exact A1. }
  destruct (Qle_bool (pow2 (la - lb)) (a # b)) eqn:E.
  - apply Qle_bool_iff in E. split; [exact E | exact Up].
  - split; [exact Lo|].
    replace (la - lb - 1 + 1)%Z with (la - lb)%Z by lia.
    apply Qnot_le_lt. intro C. apply Qle_bool_iff in C. congruence.
Qed.

Lemma ilog2_mono (x y : Q) : 0 < x -> x <= y -> (ilog2 x <= ilog2 y)%Z.
Proof.
  intros Hx L.
  assert (Hy : 0 < y) by (apply Qlt_le_trans with x; assumption).
  destruct (ilog2_spec x Hx) as [A _].
  destruct (ilog2_spec y Hy) as [_ B].
  assert (H : (ilog2 x < ilog2 y + 1)%Z).
  { apply Qpower_lt_compat_l_inv with (q := 2); [|reflexivity].
    apply Qle_lt_trans with x; [exact A|].
    apply Qle_lt_trans with y; assumption. }
  lia.
Qed.

(** *** The nearest integer *)

Lemma rne_floor (y : Q) : (Qfloor y <= rne y <= Qfloor y + 1)%Z.
Proof.
  unfold rne.
  destruct (Qcompare (y - inject_Z (Qfloor y)) (1 # 2));
    [destruct (Z.even (Qfloor y))| |]; lia.
Qed.

Lemma rne_Z (k : Z) : rne (inject_Z k) = k.
Proof.
  unfold rne. rewrite Qfloor_Z.
  assert (E : Qcompare (inject_Z k - inject_Z k) (1 # 2) = Lt).
  { apply Qlt_alt. setoid_replace (inject_Z k - inject_Z k) with 0 by ring.
    reflexivity. }
  rewrite E. reflexivity.
Qed.

Lemma rne_mono (y z : Q) : y <= z -> (rne y <= rne z)%Z.
Proof.
  intro L.
  pose proof (Qfloor_resp_le y z L) as F.
  pose proof (rne_floor y) as Ry. pose proof (rne_floor z) as Rz.
  destruct (Z.eq_dec (Qfloor y) (Qfloor z)) as [E|N]; [|lia].
  unfold rne in *. rewrite <- E in *.
  set (f := Qfloor y) in *.
  assert (D : y - inject_Z f <= z - inject_Z f) by lra.
  destruct (Qcompare_spec (y - inject_Z f) (1 # 2)) as [Y|Y|Y];
    destruct (Qcompare_spec (z - inject_Z f) (1 # 2)) as [Z|Z|Z];
    try destruct (Z.even f); try lia; exfalso; lra.
Qed.

Lemma rne_le (y : Q) (k : Z) : y <= inject_Z k -> (rne y <= k)%Z.
Proof. intro H. rewrite <- (rne_Z k). apply rne_mono. exact H. Qed.

Lemma rne_ge (y : Q) (k : Z) : inject_Z k <= y -> (k <= rne y)%Z.
Proof. intro H. rewrite <- (rne_Z k). apply rne_mono. exact H. Qed.

Lemma rne_proper (y z : Q) : y == z -> rne y = rne z.
Proof.
  intro E. apply Z.le_antisymm; apply rne_mono; rewrite E; apply Qle_refl.
Qed.

Lemma rne_nonneg (y : Q) : 0 <= y -> (0 <= rne y)%Z.
Proof. intro H. apply rne_ge. exact H. Qed.

(** *** The rounded value *)

Lemma fexp_mono (a b : Z) : (a <= b)%Z -> (fexp a <= fexp b)%Z.
Proof. unfold fexp. lia. Qed.

(** The scaled value has at most 53 bits before the point. *)
Lemma scaled_upper (x : Q) :
  0 < x ->
  let d := (ilog2 x + 1)%Z in
  (rne (x * pow2 (- fexp d)) <= 2 ^ Z.max (d - fexp d) 0)%Z.
Proof.
  intros Hx d. destruct (ilog2_spec x Hx) as [_ U]. fold d in U.
  apply rne_le. rewrite <- pow2_Z by lia.
  apply Qle_trans with (pow2 (d - fexp d)).
  - replace (d - fexp d)%Z with (d + - fexp d)%Z by lia.
    rewrite pow2_add. apply Qlt_le_weak, scale_lt. exact U.
  - apply pow2_le. lia.
Qed.

(** Above the subnormals it has exactly 53 bits. *)
Lemma scaled_lower (x : Q) :
  0 < x ->
  let d := (ilog2 x + 1)%Z in
  (- 1074 < fexp d)%Z -> (2 ^ 52 <= rne (x * pow2 (- fexp d)))%Z.
Proof.
  intros Hx d He. destruct (ilog2_spec x Hx) as [L _].
  replace (ilog2 x) with (d - 1)%Z in L by (unfold d; lia).
  apply rne_ge. rewrite <- pow2_Z by lia.
  assert (E : fexp d = (d - 53)%Z) by (unfold fexp in *; lia).
  rewrite E. replace 52%Z with ((d - 1) + - (d - 53))%Z by lia.
  rewrite pow2_add. apply scale_le. exact L.
Qed.

Lemma rv_nonneg (x : Q) : 0 < x -> 0 <= rv x.
Proof.
  intro Hx. unfold rv. apply Qmult_le_0_compat.
  - change 0 with (inject_Z 0). rewrite <- Zle_Qle. apply rne_nonneg.
    apply Qmult_le_0_compat; [apply Qlt_le_weak, Hx|].
    apply Qlt_le_weak, pow2_pos.
  - apply Qlt_le_weak, pow2_pos.
Qed.

Lemma rv_upper (x : Q) :
  0 < x ->
  let d := (ilog2 x + 1)%Z in rv x <= pow2 (Z.max d (fexp d)).
Proof.
  intros Hx d. unfold rv. fold d.
  pose proof (scaled_upper x Hx) as U. cbv zeta in U. fold d in U.
  apply Qle_trans with (inject_Z (2 ^ Z.max (d - fexp d) 0) * pow2 (fexp d)).
  - apply scale_le. rewrite <- Zle_Qle. exact U.
  - rewrite <- pow2_Z by lia. rewrite <- pow2_add.
    apply pow2_le. lia.
Qed.

Lemma rv_lower (x : Q) :
  0 < x ->
  let d := (ilog2 x + 1)%Z in
  (- 1074 < fexp d)%Z -> pow2 (d - 1) <= rv x.
Proof.
  intros Hx d He. unfold rv. fold d.
  pose proof (scaled_lower x Hx) as L. cbv zeta in L. fold d in L.
  specialize (L He).
  apply Qle_trans with (inject_Z (2 ^ 52) * pow2 (fexp d)).
  - rewrite <- pow2_Z by lia. rewrite <- pow2_add.
    apply pow2_le. unfold fexp in *. lia.
  - apply scale_le. rewrite <- Zle_Qle. exact L.
Qed.

(** Rounding is monotone. *)
Lemma rv_mono (x y : Q) : 0 < x -> x <= y -> rv x <= rv y.
Proof.
  intros Hx L.
  assert (Hy : 0 < y) by (apply Qlt_le_trans with x; assumption).
  pose proof (ilog2_mono x y Hx L) as M.
  set (dx := (ilog2 x + 1)%Z). set (dy := (ilog2 y + 1)%Z).
  assert (E : (fexp dx <= fexp dy)%Z) by (apply fexp_mono; unfold dx, dy; lia).
  destruct (Z.eq_dec (fexp dx) (fexp dy)) as [Q|N].
  - unfold rv. fold dx dy. rewrite Q.
    apply scale_le. rewrite <- Zle_Qle. apply rne_mono.
    apply scale_le. exact L.
  - assert (S1 : (- 1074 < fexp dy)%Z) by (unfold fexp in *; lia).
    apply Qle_trans with (pow2 (dy - 1)).
    + apply Qle_trans with (pow2 (Z.max dx (fexp dx))).
      * apply (rv_upper x Hx).
      * apply pow2_le. unfold fexp in *. lia.
    + apply (rv_lower y Hy). exact S1.
Qed.

(** Integers of at most 53 bits are not changed by rounding. *)
Lemma rv_Z (k : Z) : (0 < k <= 2 ^ 53)%Z -> rv (inject_Z k) == inject_Z k.
Proof.
  intros [K0 K1].
  assert (Hx : 0 < inject_Z k).
  { change 0 with (inject_Z 0). rewrite <- Zlt_Qlt. exact K0. }
  destruct (ilog2_spec (inject_Z k) Hx) as [A B].
  set (d := (ilog2 (inject_Z k) + 1)%Z) in *.
  replace (ilog2 (inject_Z k)) with (d - 1)%Z in A by (unfold d; lia).
  assert (D1 : (0 < d)%Z).
  { apply Qpower_lt_compat_l_inv with (q := 2); [|reflexivity].
    apply Qle_lt_trans with (inject_Z k); [|exact B].
    change (2 ^ 0) with (inject_Z 1). rewrite <- Zle_Qle. lia. }
  assert (D2 : (d - 1 <= 53)%Z).
  { apply Qpower_le_compat_l_inv with (q := 2); [|reflexivity].
    apply Qle_trans with (inject_Z k); [exact A|].
    fold (pow2 53). rewrite pow2_Z by lia. rewrite <- Zle_Qle. exact K1. }
  unfold rv. fold d.
  assert (E : fexp d = (d - 53)%Z) by (unfold fexp; lia).
  rewrite E.
  destruct (Z.le_gt_cases (d - 53) 0) as [Le|Gt].
  - assert (S : inject_Z k * pow2 (- (d - 53))
                == inject_Z (k * 2 ^ (- (d - 53)))).
    { rewrite pow2_Z by lia. rewrite inject_Z_mult. reflexivity. }
    rewrite (rne_proper _ _ S), rne_Z.
    rewrite inject_Z_mult, <- pow2_Z by lia.
    apply scale_back.
  - assert (D : d = 54%Z) by lia.
    assert (K : k = (2 ^ 53)%Z).
    { apply Z.le_antisymm; [exact K1|].
      rewrite Zle_Qle, <- pow2_Z by lia.
      replace 53%Z with (d - 1)%Z by lia. exact A. }
    rewrite D, K.
    assert (S : inject_Z (2 ^ 53) * pow2 (- (54 - 53)) == inject_Z (2 ^ 52))
      by reflexivity.
    rewrite (rne_proper _ _ S), rne_Z. reflexivity.
Qed.

Lemma rvs_pos (x : Q) : 0 < x -> rvs x = rv x.
Proof.
  intro H. unfold rvs. rewrite (proj1 (Qgt_alt x 0) H). reflexivity.
Qed.

Lemma rvs_neg (x : Q) : x < 0 -> rvs x = - rv (- x).
Proof.
  intro H. unfold rvs. rewrite (proj1 (Qlt_alt x 0) H). reflexivity.
Qed.

Lemma rvs_zero (x : Q) : x == 0 -> rvs x = 0.
Proof.
  intro H. unfold rvs. rewrite (proj1 (Qeq_alt x 0) H). reflexivity.
Qed.

Lemma rvs_mono (x y : Q) : x <= y -> rvs x <= rvs y.
Proof.
  intro L.
  destruct (Qcompare_spec x 0) as [X|X|X];
    destruct (Qcompare_spec y 0) as [Y|Y|Y].
  - rewrite (rvs_zero x X), (rvs_zero y Y). apply Qle_refl.
  - exfalso. lra.
  - rewrite (rvs_zero x X), (rvs_pos y Y). apply rv_nonneg. exact Y.
  - rewrite (rvs_neg x X), (rvs_zero y Y).
    pose proof (rv_nonneg (- x) ltac:(lra)). lra.
  - rewrite (rvs_neg x X), (rvs_neg y Y).
    pose proof (rv_mono (- y) (- x) ltac:(lra) ltac:(lra)). lra.
  - rewrite (rvs_neg x X), (rvs_pos y Y).
    pose proof (rv_nonneg (- x) ltac:(lra)).
    pose proof (rv_nonneg y Y). lra.
  - exfalso. lra.
  - exfalso. lra.
  - rewrite (rvs_pos x X), (rvs_pos y Y). apply rv_mono; assumption.
Qed.

Lemma rvs_Z (k : Z) : (0 <= k <= 2 ^ 53)%Z -> rvs (inject_Z k) == inject_Z k.
Proof.
  intros [K0 K1]. destruct (Z.eq_dec k 0) as [->|N]; [reflexivity|].
  rewrite rvs_pos.
  - apply rv_Z. lia.
  - change 0 with (inject_Z 0). rewrite <- Zlt_Qlt. lia.
Qed.

(** *** Rounding to a double *)

Lemma rounds_to_opp (r : Q) (x : double) :
  rounds_to r x -> rounds_to (- r) (opp x).
Proof.
  intros [y F E L U|P|P].
  - apply rounds_finite.
    + destruct y; try discriminate F; reflexivity.
    + destruct y as [s|s| |s m e]; try discriminate F; cbn [opp B2Q].
      * cbn [B2Q] in E. lra.
      * cbn [B2Q] in E. destruct s; cbn [negb]; lra.
    + lra.
    + lra.
  - apply rounds_ninf. lra.
  - cbn [opp negb]. apply rounds_pinf. lra.
Qed.

Lemma round_pos_opp (x : Q) : round_pos true x = opp (round_pos false x).
Proof.
  unfold round_pos.
  destruct (rne _ =? 2 ^ 53)%Z.
  - change (2 ^ 52)%Z with 4503599627370496%Z. cbv iota beta.
    destruct (_ <=? 971)%Z; reflexivity.
  - destruct (rne _); [reflexivity| |reflexivity].
    destruct (_ <=? 971)%Z; reflexivity.
Qed.

Lemma round_pos_false_spec (x : Q) :
  0 < x -> rounds_to (rv x) (round_pos false x).
Proof.
  intro Hx. unfold round_pos, rv.
  set (d := (ilog2 x + 1)%Z). set (e := fexp d).
  pose proof (scaled_upper x Hx) as NU. cbv zeta in NU. fold d e in NU.
  pose proof (scaled_lower x Hx) as NL. cbv zeta in NL. fold d e in NL.
  assert (N0 : (0 <= rne (x * pow2 (- e)))%Z).
  { apply rne_nonneg. apply Qmult_le_0_compat;
      apply Qlt_le_weak; [exact Hx | apply pow2_pos]. }
  set (n := rne (x * pow2 (- e))) in *.
  assert (N53 : (n <= 2 ^ 53)%Z).
  { apply Z.le_trans with (2 ^ Z.max (d - e) 0)%Z; [exact NU|].
    apply Z.pow_le_mono_r; [lia|]. unfold e, fexp. lia. }
  assert (P1024 : pow2 1024 == inject_Z (2 ^ 53) * pow2 971) by reflexivity.
  assert (P1024' : pow2 1024 == inject_Z (2 ^ 52) * pow2 972) by reflexivity.
  destruct (Z.eqb_spec n (2 ^ 53)) as [E53|N53'].
  - change (2 ^ 52)%Z with 4503599627370496%Z. cbv iota beta.
    rewrite E53.
    assert (V : inject_Z 4503599627370496 * pow2 (e + 1)
                == inject_Z (2 ^ 53) * pow2 e).
    { rewrite pow2_add. change (pow2 1) with 2.
      change (inject_Z (2 ^ 53)) with (inject_Z 4503599627370496 * 2). ring. }
    destruct (Z.leb_spec (e + 1) 971) as [Le|Gt].
    + apply rounds_finite; [reflexivity | exact V | |].
      * apply Qlt_trans with 0.
        -- pose proof (pow2_pos 1024). lra.
        -- apply Qmult_lt_0_compat; [reflexivity | apply pow2_pos].
      * rewrite P1024. apply Qmult_lt_l; [reflexivity|].
        apply pow2_lt. lia.
    + apply rounds_pinf. rewrite P1024.
      apply Qmult_le_l; [reflexivity|]. apply pow2_le. lia.
  - assert (Nlt : (n < 2 ^ 53)%Z) by lia.
    destruct n as [|m|m] eqn:En.
    + assert (V0 : inject_Z 0 * pow2 e == 0) by ring.
      apply rounds_finite; [reflexivity | | |].
      * cbn [B2Q]. ring.
      * pose proof (pow2_pos 1024). lra.
      * pose proof (pow2_pos 1024). lra.
    + destruct (Z.leb_spec e 971) as [Le|Gt].
      * assert (Pm : 0 < inject_Z (Zpos m) * pow2 e).
        { apply Qmult_lt_0_compat; [reflexivity | apply pow2_pos]. }
        apply rounds_finite; [reflexivity | reflexivity | |].
        -- pose proof (pow2_pos 1024). lra.
        -- rewrite P1024.
           apply Qlt_le_trans with (inject_Z (2 ^ 53) * pow2 e).
           ++ apply scale_lt. rewrite <- Zlt_Qlt. exact Nlt.
           ++ apply Qmult_le_l; [reflexivity|]. apply pow2_le. exact Le.
      * apply rounds_pinf. rewrite P1024'.
        apply Qle_trans with (inject_Z (2 ^ 52) * pow2 e).
        -- apply Qmult_le_l; [reflexivity|]. apply pow2_le. lia.
        -- apply scale_le. rewrite <- Zle_Qle. apply NL. lia.
    + lia.
Qed.

Lemma of_Q_spec (zs : bool) (x : Q) : rounds_to (rvs x) (of_Q zs x).
Proof.
  unfold of_Q, rvs.
  destruct (Qcompare_spec x 0) as [E|L|G].
  - apply rounds_finite; [reflexivity | reflexivity | |];
      pose proof (pow2_pos 1024); lra.
  - rewrite round_pos_opp. apply rounds_to_opp.
    apply round_pos_false_spec. lra.
  - apply round_pos_false_spec. exact G.
Qed.

Lemma rounds_to_not_nan (r : Q) (x : double) :
  rounds_to r x -> is_nan x = false.
Proof. intros [y F _ _ _| |]; [destruct y; [| | discriminate F|]|..]; reflexivity. Qed.

(** *** The order on doubles *)

Ltac qcmp :=
  repeat match goal with
         | H : context [Qcompare ?p ?q] |- _ =>
             destruct (Qcompare_spec p q)
         | |- context [Qcompare ?p ?q] =>
             destruct (Qcompare_spec p q)
         end;
  try discriminate; try reflexivity; try (exfalso; lra).

Ltac qcase C :=
  match goal with
  | H : context [Qcompare ?p ?q] |- _ =>
      destruct (Qcompare_spec p q) as [C|C|C]
  | |- context [Qcompare ?p ?q] =>
      destruct (Qcompare_spec p q) as [C|C|C]
  end.

Lemma leb_finite (x y : double) :
  is_finite x = true -> is_finite y = true ->
  (leb x y = true <-> B2Q x <= B2Q y).
Proof.
  intros Fx Fy.
  destruct x as [sx|sx| |sx mx ex]; try discriminate Fx;
    destruct y as [sy|sy| |sy my ey]; try discriminate Fy;
    unfold leb, compare; cbv iota beta;
    (split; intro H; qcase C;
     try reflexivity; try discriminate H; try (exfalso; lra);
     try (rewrite C; apply Qle_refl); try (apply Qlt_le_weak; exact C)).
Qed.

Lemma ltb_finite (x y : double) :
  is_finite x = true -> is_finite y = true ->
  (ltb x y = true <-> B2Q x < B2Q y).
Proof.
  intros Fx Fy.
  destruct x as [sx|sx| |sx mx ex]; try discriminate Fx;
    destruct y as [sy|sy| |sy my ey]; try discriminate Fy;
    unfold ltb, compare; cbv iota beta;
    (split; intro H; qcase C;
     try reflexivity; try discriminate H; try (exfalso; lra);
     try exact C).
Qed.

Lemma rounds_to_leb (r r' : Q) (x y : double) :
  rounds_to r x -> rounds_to r' y -> r <= r' -> leb x y = true.
Proof.
  pose proof (pow2_pos 1024) as P.
  intros [x' Fx Ex Lx Ux|Px|Px] [y' Fy Ey Ly Uy|Py|Py] L;
    try (exfalso; lra); try reflexivity.
  - apply leb_finite; [assumption..|]. lra.
  - destruct x'; try discriminate Fx; reflexivity.
  - destruct y'; try discriminate Fy; reflexivity.
Qed.

(** Rounding is monotone, as doubles. *)
Lemma of_Q_leb (zs zs' : bool) (x y : Q) :
  x <= y -> leb (of_Q zs x) (of_Q zs' y) = true.
Proof.
  intro L. apply (rounds_to_leb (rvs x) (rvs y)).
  - apply of_Q_spec.
  - apply of_Q_spec.
  - apply rvs_mono. exact L.
Qed.

End B64Facts.

(** ** Facts about plot_utils.h over binary64 *)

Module Plot64Facts.

Import SpecFloat B64 B64Facts Plot64.
Local Open Scope Q_scope.

(** *** Agreement with the reference arithmetic

    On the specimens, taken two by two, the operations of [B64] return the
    doubles that the binary64 operations of the standard library return;
    and on the values of the examples below they return what the processor
    returns. *)
Example arithmetic_as_SpecFloat :
  forallb (fun x => forallb (Samples64.agrees x) Samples64.specimens)
          Samples64.specimens = true.
Proof. vm_compute. reflexivity. Qed.

Example arithmetic_as_the_processor :
  div Samples64.d0_03 Samples64.d0_01 = Samples64.quotient_0_03_by_0_01 /\
  mul five Samples64.d0_01 = Samples64.product_5_by_0_01 /\
  add (mul Samples64.d0_1 (sub one Samples64.d0_2))
      (mul Samples64.d0_1 Samples64.d0_2) = Samples64.interpolation_at_0_2.
Proof. vm_compute. repeat split. Qed.

(** The stand-in for [std::log10] returns, on a positive finite double, the
    double of the decade [k] of its exact value: [10^k <= x < 10^(k+1)]. *)
Lemma sample_log10_decade (m : positive) (e : Z) :
  let x := S754_finite false m e in
  let k := Dbl.floor_log10 (B2Q x) in
  Samples64.log10 x = of_Q false (inject_Z k) /\
  Dbl.pow10 k <= B2Q x /\ B2Q x < Dbl.pow10 (k + 1).
Proof.
  cbv zeta. split; [reflexivity|].
  apply DblFacts.floor_log10_spec.
  cbn [B2Q]. apply Qmult_lt_0_compat; [reflexivity | apply pow2_pos].
Qed.

(** *** The order on doubles, continued *)

Ltac order_cases :=
  unfold ltb, leb, compare; cbv iota beta;
  repeat match goal with
         | s : bool |- _ => destruct s
         end;
  cbv iota beta;
  try discriminate; try reflexivity; qcmp.

Lemma ltb_not_leb (a b : double) : ltb a b = true -> leb b a = false.
Proof.
  destruct a as [sa|sa| |sa ma ea], b as [sb|sb| |sb mb eb];
    order_cases.
Qed.

Lemma leb_refl (a : double) : is_nan a = false -> leb a a = true.
Proof.
  destruct a as [sa|sa| |sa ma ea]; intro N; try discriminate N;
    order_cases.
Qed.

Lemma leb_total (a b : double) :
  is_nan a = false -> is_nan b = false -> ltb a b = false -> leb b a = true.
Proof.
  destruct a as [sa|sa| |sa ma ea], b as [sb|sb| |sb mb eb];
    intros Na Nb; try discriminate Na; try discriminate Nb;
    order_cases.
Qed.

Lemma ltb_leb_trans (a b c : double) :
  ltb a b = true -> leb b c = true -> ltb a c = true.
Proof.
  destruct a as [sa|sa| |sa ma ea], b as [sb|sb| |sb mb eb],
    c as [sc|sc| |sc mc ec]; order_cases.
Qed.

Lemma leb_ltb_trans (a b c : double) :
  leb a b = true -> ltb b c = true -> ltb a c = true.
Proof.
  destruct a as [sa|sa| |sa ma ea], b as [sb|sb| |sb mb eb],
    c as [sc|sc| |sc mc ec]; order_cases.
Qed.

Lemma leb_trans (a b c : double) :
  leb a b = true -> leb b c = true -> leb a c = true.
Proof.
  destruct a as [sa|sa| |sa ma ea], b as [sb|sb| |sb mb eb],
    c as [sc|sc| |sc mc ec]; order_cases.
Qed.


(** *** Sorting *)

Lemma insert_ascending_length (x : double) (l : list double) :
  List.length (insert x l) = S (List.length l).
Proof.
  induction l as [|y t IH]; simpl; [reflexivity|].
  destruct (ltb x y); simpl; congruence.
Qed.

Lemma ascending_length (l : list double) :
  List.length (ascending l) = List.length l.
Proof.
  induction l as [|x t IH]; simpl; [reflexivity|].
  rewrite insert_ascending_length. congruence.
Qed.

Lemma insert_ascending_perm (x : double) (l : list double) :
  Permutation (insert x l) (x :: l).
Proof.
  induction l as [|y t IH]; simpl; [reflexivity|].
  destruct (ltb x y); [reflexivity|].
  rewrite IH. apply perm_swap.
Qed.

Lemma ascending_perm (l : list double) : Permutation (ascending l) l.
Proof.
  induction l as [|x t IH]; simpl; [reflexivity|].
  rewrite insert_ascending_perm. now constructor.
Qed.

Lemma insert_ascending_sorted (x : double) (l : list double) :
  is_nan x = false -> existsb is_nan l = false ->
  Sorted ascends l -> Sorted ascends (insert x l).
Proof.
  intro Nx. induction l as [|y t IH]; intros Nl S; simpl.
  - repeat constructor.
  - cbn [existsb] in Nl. apply orb_false_iff in Nl. destruct Nl as [Ny Nt].
    destruct (ltb x y) eqn:E.
    + constructor; [assumption|]. constructor.
      unfold ascends. destruct x, y; try discriminate; revert E;
        unfold ltb, leb; destruct (compare _ _) as [[]|]; congruence.
    + pose proof (leb_total x y Nx Ny E) as L.
      inversion S as [|? ? St Hd]; subst.
      constructor; [now apply IH|].
      destruct t as [|z t']; simpl.
      * constructor. exact L.
      * destruct (ltb x z); constructor.
        -- exact L.
        -- now inversion Hd.
Qed.

Lemma ascending_no_nan (l : list double) :
  existsb is_nan l = false -> existsb is_nan (ascending l) = false.
Proof.
  intro N.
  destruct (existsb is_nan (ascending l)) eqn:E; [|reflexivity].
  apply existsb_exists in E. destruct E as (x & Hin & Hx).
  apply (Permutation_in _ (ascending_perm l)) in Hin.
  assert (C : existsb is_nan l = true)
    by (apply existsb_exists; exists x; split; assumption).
  congruence.
Qed.

Lemma ascending_sorted (l : list double) :
  existsb is_nan l = false -> Sorted ascends (ascending l).
Proof.
  induction l as [|x t IH]; intro N; simpl; [constructor|].
  cbn [existsb] in N. apply orb_false_iff in N. destruct N as [Nx Nt].
  apply insert_ascending_sorted; [exact Nx | now apply ascending_no_nan | now apply IH].
Qed.

(** *** Reads inside a vector *)

Lemma at_index_inside {A : Type} (v : list A) (i : Z) :
  (0 <= i < Z.of_nat (List.length v))%Z ->
  exists a : A,
    nth_error v (Z.to_nat i) = Some a /\ PlotUtils.at_index v i = Some a.
Proof.
  intros [H0 H1]. unfold PlotUtils.at_index.
  destruct (Z.ltb_spec i 0); [lia|].
  destruct (Z.leb_spec (Z.of_nat (List.length v)) i); [lia|].
  cbn [orb].
  destruct (nth_error v (Z.to_nat i)) as [a|] eqn:E.
  - exists a. split; reflexivity.
  - apply nth_error_None in E. lia.
Qed.

(** *** Doubles that are integers *)

Lemma rounds_to_finite (r : Q) (x : double) :
  rounds_to r x -> - pow2 1024 < r -> r < pow2 1024 ->
  is_finite x = true /\ B2Q x == r.
Proof.
  intros [y F E _ _|P|P] L U.
  - split; assumption.
  - exfalso. lra.
  - exfalso. lra.
Qed.

Lemma small_below_overflow (k : Z) :
  (0 <= k <= 2 ^ 53)%Z ->
  - pow2 1024 < inject_Z k /\ inject_Z k < pow2 1024.
Proof.
  intros [K0 K1].
  assert (A : 0 <= inject_Z k).
  { change 0 with (inject_Z 0). rewrite <- Zle_Qle. exact K0. }
  assert (B : inject_Z k <= pow2 53).
  { rewrite pow2_Z by lia. rewrite <- Zle_Qle. exact K1. }
  pose proof (pow2_lt 53 1024 ltac:(lia)) as C.
  pose proof (pow2_pos 1024) as D.
  split; lra.
Qed.

Lemma of_Q_integer (zs : bool) (k : Z) :
  (0 <= k <= 2 ^ 53)%Z ->
  is_finite (of_Q zs (inject_Z k)) = true /\
  B2Q (of_Q zs (inject_Z k)) == inject_Z k.
Proof.
  intro K.
  pose proof (of_Q_spec zs (inject_Z k)) as S.
  pose proof (rvs_Z k K) as E.
  destruct (small_below_overflow k K) as [L U].
  destruct (rounds_to_finite _ _ S) as [F V]; [lra | lra |].
  split; [exact F | lra].
Qed.

Lemma to_size_t_integer (x : double) (k : Z) :
  is_finite x = true -> B2Q x == inject_Z k -> (0 <= k < 2 ^ 64)%Z ->
  to_size_t x = Some k.
Proof.
  intros F E K.
  destruct x as [s|s| |s m e]; try discriminate F.
  - cbn [B2Q] in E.
    assert (k = 0%Z).
    { change 0 with (inject_Z 0) in E. apply eq_sym.
      unfold Qeq in E. cbn in E. lia. }
    subst k. reflexivity.
  - unfold to_size_t.
    set (q := B2Q (S754_finite s m e)) in *.
    assert (T : Z.quot (Qnum q) (Zpos (Qden q)) = k).
    { unfold Qeq in E. cbn [inject_Z Qnum Qden] in E.
      rewrite Z.mul_1_r in E. rewrite E.
      apply Z.quot_mul. discriminate. }
    rewrite T.
    destruct (Z.leb_spec 0 k); [|lia].
    destruct (Z.ltb_spec k (2 ^ 64)); [|lia].
    reflexivity.
Qed.

(** The double of a count. *)
Lemma of_size_t_exact (k : Z) :
  (0 <= k <= 2 ^ 53)%Z ->
  is_finite (of_size_t k) = true /\ B2Q (of_size_t k) == inject_Z k.
Proof. apply of_Q_integer. Qed.

(** [floor] and [ceil] of a finite double inside [[0, k]], as indices. *)
Lemma floor_index (x : double) (k : Z) :
  is_finite x = true -> 0 <= B2Q x -> B2Q x <= inject_Z k ->
  (k <= 2 ^ 53)%Z ->
  to_size_t (floor x) = Some (Qfloor (B2Q x)) /\
  (0 <= Qfloor (B2Q x) <= k)%Z.
Proof.
  intros F L U K.
  assert (J : (0 <= Qfloor (B2Q x) <= k)%Z).
  { split.
    - change 0%Z with (Qfloor 0). apply Qfloor_resp_le. exact L.
    - rewrite <- (Qfloor_Z k). apply Qfloor_resp_le. exact U. }
  split; [|exact J].
  destruct x as [s|s| |s m e]; try discriminate F.
  - reflexivity.
  - cbn [floor].
    destruct (of_Q_integer s (Qfloor (B2Q (S754_finite s m e))))
      as [Ff Vf]; [lia|].
    apply to_size_t_integer; [exact Ff | exact Vf | lia].
Qed.

Lemma ceil_index (x : double) (k : Z) :
  is_finite x = true -> 0 <= B2Q x -> B2Q x <= inject_Z k ->
  (k <= 2 ^ 53)%Z ->
  to_size_t (ceil x) = Some (Qceiling (B2Q x)) /\
  (Qfloor (B2Q x) <= Qceiling (B2Q x) <= k)%Z.
Proof.
  intros F L U K.
  assert (J : (Qfloor (B2Q x) <= Qceiling (B2Q x) <= k)%Z).
  { split.
    - rewrite Zle_Qle. apply Qle_floor_ceiling.
    - rewrite <- (Qceiling_Z k). apply Qceiling_resp_le. exact U. }
  assert (J0 : (0 <= Qfloor (B2Q x))%Z).
  { change 0%Z with (Qfloor 0). apply Qfloor_resp_le. exact L. }
  split; [|exact J].
  destruct x as [s|s| |s m e]; try discriminate F.
  - reflexivity.
  - cbn [ceil].
    destruct (of_Q_integer s (Qceiling (B2Q (S754_finite s m e))))
      as [Ff Vf]; [lia|].
    apply to_size_t_integer; [exact Ff | exact Vf | lia].
Qed.

(** A quantile in [[0, 1]] is finite, with its value in [[0, 1]]. *)
Lemma unit_quantile (q : double) :
  leb zero q = true -> leb q one = true ->
  is_finite q = true /\ 0 <= B2Q q /\ B2Q q <= 1.
Proof.
  intros L U.
  destruct q as [s|s| |s m e].
  - repeat split; cbn [B2Q]; lra.
  - destruct s; [discriminate L | discriminate U].
  - discriminate L.
  - split; [reflexivity|].
    apply leb_finite in L; [|reflexivity..].
    apply leb_finite in U; [|reflexivity..].
    change (B2Q zero) with 0 in L.
    assert (O : B2Q one == 1) by reflexivity.
    split; lra.
Qed.

Lemma mul_finite (x y : double) :
  is_finite x = true -> is_finite y = true ->
  mul x y = of_Q (xorb (sign x) (sign y)) (B2Q x * B2Q y).
Proof.
  intros Fx Fy.
  destruct x; try discriminate Fx; destruct y; try discriminate Fy;
    reflexivity.
Qed.

(** The fractional rank of a quantile in [[0, 1]] is among the ranks. *)
Lemma rank_inside (q : double) (k : Z) :
  leb zero q = true -> leb q one = true -> (0 <= k <= 2 ^ 53)%Z ->
  let idx := mul q (of_size_t k) in
  is_finite idx = true /\ 0 <= B2Q idx /\ B2Q idx <= inject_Z k /\
  B2Q idx == rvs (B2Q q * inject_Z k).
Proof.
  intros L U K idx.
  destruct (unit_quantile q L U) as (Fq & Q0 & Q1).
  destruct (of_size_t_exact k K) as [Fk Vk].
  assert (K0 : 0 <= inject_Z k).
  { change 0 with (inject_Z 0). rewrite <- Zle_Qle. lia. }
  unfold idx. rewrite (mul_finite _ _ Fq Fk).
  set (x := B2Q q * B2Q (of_size_t k)).
  pose proof (of_Q_spec (xorb (sign q) (sign (of_size_t k))) x) as S.
  assert (X0 : 0 <= x).
  { unfold x. apply Qmult_le_0_compat; lra. }
  assert (X1 : x <= inject_Z k).
  { unfold x. rewrite Vk.
    rewrite <- (Qmult_1_l (inject_Z k)) at 2.
    apply Qmult_le_compat_r; assumption. }
  pose proof (rvs_mono 0 x X0) as R0.
  pose proof (rvs_mono x (inject_Z k) X1) as R1.
  rewrite (rvs_Z k K) in R1.
  change (rvs 0) with 0 in R0.
  destruct (small_below_overflow k K) as [B1 B2].
  destruct (rounds_to_finite _ _ S) as [F V]; [lra | lra |].
  split; [exact F|]. split; [lra|]. split; [lra|].
  rewrite V. unfold x.
  assert (P : B2Q q * B2Q (of_size_t k) == B2Q q * inject_Z k)
    by (rewrite Vk; reflexivity).
  apply Qle_antisym; apply rvs_mono; rewrite P; apply Qle_refl.
Qed.

(** *** The quantile *)

(** With a quantile in [[0, 1]] the two indices are inside the vector, and
    the function returns. *)
Lemma GetQuartile_ranked (data : list double) (q : double) :
  data <> [] -> existsb is_nan data = false ->
  (Z.of_nat (List.length data) <= 2 ^ 53)%Z ->
  leb zero q = true -> leb q one = true ->
  let last := (Z.of_nat (List.length data) - 1)%Z in
  let idx := mul q (of_size_t last) in
  let lo := Qfloor (B2Q idx) in
  let hi := Qceiling (B2Q idx) in
  exists x_lo x_hi : double,
    B2Q idx == rvs (B2Q q * inject_Z last) /\
    (0 <= lo)%Z /\ (lo <= hi)%Z /\ (hi <= last)%Z /\
    nth_error (ascending data) (Z.to_nat lo) = Some x_lo /\
    nth_error (ascending data) (Z.to_nat hi) = Some x_hi /\
    GetQuartile data q =
    Some (if (lo =? hi)%Z then x_lo
          else
            let fraction := sub idx (of_size_t lo) in
            add (mul x_lo (sub one fraction)) (mul x_hi fraction)).
Proof.
  intros Hne N Len L U last idx lo hi.
  assert (S : sort data = Some (ascending data)).
  { unfold sort. rewrite N. reflexivity. }
  assert (K : (0 <= last <= 2 ^ 53)%Z).
  { unfold last. destruct data; [congruence | cbn [List.length] in *; lia]. }
  destruct (rank_inside q last L U K) as (Fi & I0 & I1 & Iv).
  fold idx in Fi, I0, I1, Iv.
  destruct (floor_index idx last Fi I0 I1 ltac:(lia)) as [Tf [F0 F1]].
  destruct (ceil_index idx last Fi I0 I1 ltac:(lia)) as [Tc [C0 C1]].
  fold lo in Tf, F0, F1, C0. fold hi in Tc, C0, C1.
  destruct (at_index_inside (ascending data) lo) as (x_lo & Nlo & Alo).
  { rewrite ascending_length. unfold last in *. lia. }
  destruct (at_index_inside (ascending data) hi) as (x_hi & Nhi & Ahi).
  { rewrite ascending_length. unfold last in *. lia. }
  exists x_lo, x_hi.
  split; [exact Iv|]. split; [exact F0|]. split; [exact C0|].
  split; [exact C1|]. split; [exact Nlo|]. split; [exact Nhi|].
  destruct data as [|d t]; [congruence|].
  unfold GetQuartile. rewrite S. cbv zeta.
  rewrite ascending_length. fold last. fold idx.
  rewrite Tf, Tc. fold lo hi.
  destruct (lo =? hi)%Z; [exact Alo|].
  rewrite Alo, Ahi. reflexivity.
Qed.

(** *** Extremes *)

Lemma leb_antisym (a b : double) :
  leb a b = true -> leb b a = true -> eqb a b = true.
Proof.
  destruct a as [sa|sa| |sa ma ea], b as [sb|sb| |sb mb eb];
    unfold eqb; order_cases.
Qed.

Lemma no_nan_in (l : list double) (x : double) :
  existsb is_nan l = false -> In x l -> is_nan x = false.
Proof.
  intros N Hin. destruct (is_nan x) eqn:E; [|reflexivity].
  assert (C : existsb is_nan l = true)
    by (apply existsb_exists; exists x; split; assumption).
  congruence.
Qed.

Lemma min_fold (t : list double) (x : double) :
  existsb is_nan (x :: t) = false ->
  let m := fold_left (fun m y => if ltb y m then y else m) t x in
  In m (x :: t) /\ forall y, In y (x :: t) -> leb m y = true.
Proof.
  revert x. induction t as [|z t IH]; intros x N; cbn [fold_left].
  - split; [left; reflexivity|].
    intros y [<-|[]]. apply leb_refl. apply (no_nan_in [x]); [exact N|now left].
  - assert (Nx : is_nan x = false) by (apply (no_nan_in _ _ N); now left).
    assert (Nz : is_nan z = false)
      by (apply (no_nan_in _ _ N); right; now left).
    assert (Nt : existsb is_nan t = false).
    { cbn [existsb] in N. apply orb_false_iff in N. destruct N as [_ N].
      apply orb_false_iff in N. tauto. }
    destruct (ltb z x) eqn:E.
    + destruct (IH z) as [I A].
      { cbn [existsb]. rewrite Nz, Nt. reflexivity. }
      split; [right; exact I|].
      intros y [<-|Hy]; [|apply A; exact Hy].
      apply leb_trans with z; [apply A; now left|].
      destruct (leb z x) eqn:L; [reflexivity|].
      revert E L. unfold ltb, leb. destruct (compare z x) as [[]|]; congruence.
    + destruct (IH x) as [I A].
      { cbn [existsb]. rewrite Nx, Nt. reflexivity. }
      split.
      * destruct I as [<-|I]; [now left | right; right; exact I].
      * intros y [<-|[<-|Hy]].
        -- apply A. now left.
        -- apply leb_trans with x; [apply A; now left|].
           apply leb_total; assumption.
        -- apply A. right. exact Hy.
Qed.

Lemma max_fold (t : list double) (x : double) :
  existsb is_nan (x :: t) = false ->
  let m := fold_left (fun m y => if ltb m y then y else m) t x in
  In m (x :: t) /\ forall y, In y (x :: t) -> leb y m = true.
Proof.
  revert x. induction t as [|z t IH]; intros x N; cbn [fold_left].
  - split; [left; reflexivity|].
    intros y [<-|[]]. apply leb_refl. apply (no_nan_in [x]); [exact N|now left].
  - assert (Nx : is_nan x = false) by (apply (no_nan_in _ _ N); now left).
    assert (Nz : is_nan z = false)
      by (apply (no_nan_in _ _ N); right; now left).
    assert (Nt : existsb is_nan t = false).
    { cbn [existsb] in N. apply orb_false_iff in N. destruct N as [_ N].
      apply orb_false_iff in N. tauto. }
    destruct (ltb x z) eqn:E.
    + destruct (IH z) as [I A].
      { cbn [existsb]. rewrite Nz, Nt. reflexivity. }
      split; [right; exact I|].
      intros y [<-|Hy]; [|apply A; exact Hy].
      apply leb_trans with z; [|apply A; now left].
      destruct (leb x z) eqn:L; [reflexivity|].
      revert E L. unfold ltb, leb. destruct (compare x z) as [[]|]; congruence.
    + destruct (IH x) as [I A].
      { cbn [existsb]. rewrite Nx, Nt. reflexivity. }
      split.
      * destruct I as [<-|I]; [now left | right; right; exact I].
      * intros y [<-|[<-|Hy]].
        -- apply A. now left.
        -- apply leb_trans with x; [|apply A; now left].
           apply leb_total; assumption.
        -- apply A. right. exact Hy.
Qed.

(** In an ascending vector every element is between the first and the
    last. *)
Lemma ascending_bounds (s : list double) (i j : nat) (a b : double) :
  Sorted ascends s -> (i <= j)%nat ->
  nth_error s i = Some a -> nth_error s j = Some b ->
  is_nan a = false -> leb a b = true.
Proof.
  intro S. apply Sorted_StronglySorted in S;
    [|intros x y z; unfold ascends; apply leb_trans].
  revert i j. induction S as [|h l Sl IH Hh]; intros i j Hij Ea Eb Na.
  - destruct i; discriminate Ea.
  - destruct i as [|i], j as [|j]; cbn [nth_error] in Ea, Eb.
    + injection Ea as <-. injection Eb as <-. apply leb_refl. exact Na.
    + injection Ea as <-. rewrite Forall_forall in Hh. apply Hh.
      apply nth_error_In with j. exact Eb.
    + lia.
    + apply (IH i j); [lia | assumption..].
Qed.

(** *** The nice value *)

Lemma finite_positive (m : positive) (e : Z) :
  0 < B2Q (S754_finite false m e).
Proof.
  cbn [B2Q]. apply Qmult_lt_0_compat; [reflexivity | apply pow2_pos].
Qed.

Lemma finite_negative (m : positive) (e : Z) :
  B2Q (S754_finite true m e) < 0.
Proof.
  cbn [B2Q].
  assert (P : 0 < inject_Z (Zpos m) * pow2 e)
    by (apply Qmult_lt_0_compat; [reflexivity | apply pow2_pos]).
  lra.
Qed.

Lemma positive_cases (v : double) :
  ltb zero v = true ->
  v = S754_infinity false \/
  exists (m : positive) (e : Z), v = S754_finite false m e.
Proof.
  intro H. destruct v as [s|s| |s m e].
  - discriminate H.
  - destruct s; [discriminate H | left; reflexivity].
  - discriminate H.
  - destruct s.
    + apply ltb_finite in H; [|reflexivity..].
      pose proof (finite_negative m e). change (B2Q zero) with 0 in H.
      exfalso. lra.
    + right. exists m, e. reflexivity.
Qed.

Lemma nonnegative_cases (p : double) :
  leb zero p = true ->
  p = S754_infinity false \/ (is_finite p = true /\ 0 <= B2Q p).
Proof.
  intro H. destruct p as [s|s| |s m e].
  - right. split; [reflexivity | apply Qle_refl].
  - destruct s; [discriminate H | left; reflexivity].
  - discriminate H.
  - right. split; [reflexivity|].
    apply leb_finite in H; [|reflexivity..]. exact H.
Qed.

Lemma leb_pinf (x : double) :
  is_nan x = false -> leb x (S754_infinity false) = true.
Proof.
  destruct x as [s|s| |s m e]; intro N; try discriminate N;
    try destruct s; reflexivity.
Qed.

Lemma of_Q_not_nan (zs : bool) (x : Q) : is_nan (of_Q zs x) = false.
Proof. apply (rounds_to_not_nan (rvs x)). apply of_Q_spec. Qed.

Lemma niceBase_cases (f : double) :
  niceBase f = one \/ niceBase f = two \/ niceBase f = five \/
  niceBase f = ten.
Proof.
  unfold niceBase.
  destruct (ltb f d1_5); [auto|].
  destruct (ltb f three); [auto|].
  destruct (ltb f seven); auto.
Qed.

Lemma niceBase_finite (f : double) :
  is_finite (niceBase f) = true /\ sign (niceBase f) = false /\
  0 < B2Q (niceBase f).
Proof.
  destruct (niceBase_cases f) as [E|[E|[E|E]]]; rewrite E;
    repeat split.
Qed.

Lemma niceBase_mono (f f' : double) :
  leb f f' = true -> leb (niceBase f) (niceBase f') = true.
Proof.
  intro L. unfold niceBase.
  destruct (ltb f' d1_5) eqn:B1.
  { rewrite (leb_ltb_trans _ _ _ L B1). reflexivity. }
  destruct (ltb f' three) eqn:B2.
  { rewrite (leb_ltb_trans _ _ _ L B2).
    destruct (ltb f d1_5); reflexivity. }
  destruct (ltb f' seven) eqn:B3.
  { rewrite (leb_ltb_trans _ _ _ L B3).
    destruct (ltb f d1_5); [reflexivity|].
    destruct (ltb f three); reflexivity. }
  destruct (ltb f d1_5); [reflexivity|].
  destruct (ltb f three); [reflexivity|].
  destruct (ltb f seven); reflexivity.
Qed.

Lemma mul_mono (m m' p : double) :
  is_finite m = true -> is_finite m' = true -> leb m m' = true ->
  is_finite p = true -> 0 <= B2Q p ->
  leb (mul m p) (mul m' p) = true.
Proof.
  intros Fm Fm' L Fp P.
  rewrite (mul_finite _ _ Fm Fp), (mul_finite _ _ Fm' Fp).
  apply of_Q_leb. apply leb_finite in L; [|assumption..].
  apply Qmult_le_compat_r; assumption.
Qed.

Lemma div_mono (v w p : double) :
  ltb zero v = true -> leb v w = true ->
  is_finite p = true -> 0 <= B2Q p ->
  leb (div v p) (div w p) = true.
Proof.
  intros V L Fp P.
  assert (W : ltb zero w = true) by exact (ltb_leb_trans _ _ _ V L).
  destruct (positive_cases v V) as [->|(mv & ev & ->)];
    destruct (positive_cases w W) as [->|(mw & ew & ->)];
    destruct p as [sp|sp| |sp mp ep]; try discriminate Fp.
  - destruct sp; reflexivity.
  - destruct sp; reflexivity.
  - discriminate L.
  - discriminate L.
  - destruct sp; reflexivity.
  - destruct sp.
    + pose proof (finite_negative mp ep). exfalso. lra.
    + apply leb_pinf. apply of_Q_not_nan.
  - destruct sp; reflexivity.
  - destruct sp.
    + pose proof (finite_negative mp ep). exfalso. lra.
    + cbn [div]. apply of_Q_leb.
      apply leb_finite in L; [|reflexivity..].
      pose proof (finite_positive mp ep) as Pp.
      apply Qmult_le_compat_r; [exact L|].
      apply Qlt_le_weak, Qinv_lt_0_compat. exact Pp.
Qed.

Section Libm.

Variable log10 : double -> double.
Variable pow : double -> double -> double.

Lemma RoundToNiceValue_not_negative (v : double) :
  leb zero (pow ten (floor (log10 v))) = true ->
  leb zero (RoundToNiceValue log10 pow v) = true.
Proof.
  intro P. unfold RoundToNiceValue.
  destruct (leb v zero); [reflexivity|]. cbv zeta.
  set (p := pow ten (floor (log10 v))) in *.
  destruct (niceBase_finite (div v p)) as (F & S & B).
  destruct (nonnegative_cases p P) as [E|[Fp Pp]].
  - rewrite E. destruct (niceBase_cases (div v (S754_infinity false)))
      as [C|[C|[C|C]]]; rewrite C; reflexivity.
  - rewrite (mul_finite _ _ F Fp).
    change zero with (of_Q false 0). apply of_Q_leb.
    apply Qmult_le_0_compat; [apply Qlt_le_weak; exact B | exact Pp].
Qed.

Lemma RoundToNiceValue_positive (v : double) :
  ltb zero v = true ->
  RoundToNiceValue log10 pow v =
  mul (niceBase (div v (pow ten (floor (log10 v)))))
      (pow ten (floor (log10 v))).
Proof.
  intro V. unfold RoundToNiceValue.
  rewrite (ltb_not_leb _ _ V). reflexivity.
Qed.

Lemma RoundToNiceValue_mono (v w : double) :
  ltb zero v = true -> leb v w = true ->
  floor (log10 w) = floor (log10 v) ->
  leb zero (pow ten (floor (log10 v))) = true ->
  leb (RoundToNiceValue log10 pow v) (RoundToNiceValue log10 pow w) = true.
Proof.
  intros V L K P.
  assert (W : ltb zero w = true) by exact (ltb_leb_trans _ _ _ V L).
  rewrite (RoundToNiceValue_positive v V), (RoundToNiceValue_positive w W).
  rewrite K. set (p := pow ten (floor (log10 v))) in *.
  destruct (niceBase_finite (div v p)) as (F1 & S1 & _).
  destruct (niceBase_finite (div w p)) as (F2 & S2 & _).
  destruct (nonnegative_cases p P) as [E|[Fp Pp]].
  - rewrite E.
    destruct (niceBase_cases (div v (S754_infinity false)))
      as [E1|[E1|[E1|E1]]];
      destruct (niceBase_cases (div w (S754_infinity false)))
        as [E2|[E2|[E2|E2]]];
      rewrite E1, E2; reflexivity.
  - apply mul_mono; try assumption.
    apply niceBase_mono. apply div_mono; assumption.
Qed.

End Libm.

End Plot64Facts.

(** ** Properties of the plot arithmetic in binary64 *)

Module Plot64Theorems.

Import SpecFloat B64 B64Facts Plot64 Plot64Facts.
Local Open Scope Q_scope.

(** C3.  In binary64, for every double [v > 0], with [k = floor (log10 v)]
    and [p = pow (10.0, k)] as the C library returns them,
    [RoundToNiceValue v] is the double product [m * p], where [m] is one of
    1, 2, 5, 10 and is chosen by comparing the double quotient [v / p], the
    mantissa as rounded, with 1.5, 3.0 and 7.0.  The function is
    non-decreasing over the doubles to which the library gives the same
    decade [k], whenever [pow (10.0, k)] is neither negative nor a NaN. *)
Theorem RoundToNiceValue_double_nice_and_monotone
    (log10 : double -> double) (pow : double -> double -> double) :
  (forall v : double,
     ltb zero v = true ->
     let p := pow ten (floor (log10 v)) in
     let mantissa := div v p in
     exists m : double,
       RoundToNiceValue log10 pow v = mul m p /\
       ((ltb mantissa d1_5 = true /\ m = one) \/
        (ltb mantissa d1_5 = false /\ ltb mantissa three = true /\
         m = two) \/
        (ltb mantissa d1_5 = false /\ ltb mantissa three = false /\
         ltb mantissa seven = true /\ m = five) \/
        (ltb mantissa d1_5 = false /\ ltb mantissa three = false /\
         ltb mantissa seven = false /\ m = ten))) /\
  (forall v w : double,
     ltb zero v = true -> leb v w = true ->
     floor (log10 w) = floor (log10 v) ->
     leb zero (pow ten (floor (log10 v))) = true ->
     leb (RoundToNiceValue log10 pow v) (RoundToNiceValue log10 pow w)
     = true).
Proof.
  split.
  - intros v V p mantissa.
    exists (niceBase mantissa). split.
    + apply RoundToNiceValue_positive. exact V.
    + unfold niceBase.
      destruct (ltb mantissa d1_5); [left; auto|].
      destruct (ltb mantissa three); [right; left; auto|].
      destruct (ltb mantissa seven);
        [right; right; left; auto | right; right; right; auto].
  - apply RoundToNiceValue_mono.
Qed.

Lemma RoundToNiceValue_double_nice_and_monotone_witness :
  (exists m : double,
     RoundToNiceValue Samples64.log10 Samples64.pow Samples64.d2_5
     = mul m (Samples64.pow ten (floor (Samples64.log10 Samples64.d2_5))) /\
     m = two) /\
  leb (RoundToNiceValue Samples64.log10 Samples64.pow Samples64.d0_03)
      (RoundToNiceValue Samples64.log10 Samples64.pow Samples64.d0_07)
  = true.
Proof.
  split.
  - destruct (proj1 (RoundToNiceValue_double_nice_and_monotone
                       Samples64.log10 Samples64.pow) Samples64.d2_5
                eq_refl) as (m & E & C).
    exists m. split; [exact E|].
    destruct C as [(A & _)|[(_ & _ & M)|[(_ & A & _)|(_ & A & _)]]];
      [vm_compute in A; discriminate A | exact M
      | vm_compute in A; discriminate A | vm_compute in A; discriminate A].
  - apply (proj2 (RoundToNiceValue_double_nice_and_monotone
                    Samples64.log10 Samples64.pow)
             Samples64.d0_03 Samples64.d0_07);
      vm_compute; reflexivity.
Defined.

(** C3, the claim as it was stated fails on the double nearest to 0.03.
    The library gives the decade -2 and [pow (10.0, -2.0)] is the double
    nearest to 0.01.  The exact mantissa [v / 10^-2] lies in [[1.5, 3)], so
    the rule of the claim gives [2 * 10^-2]; but the quotient of the two
    doubles rounds to 3.0, the test [base < 3.0] fails, and the function
    returns [5 * 0.01], the double nearest to 0.05. *)
Lemma nice_value_of_0_03_is_0_05 :
  floor (Samples64.log10 Samples64.d0_03) = Samples64.minus_two /\
  Samples64.pow ten Samples64.minus_two = Samples64.d0_01 /\
  Dbl.pow10 (-2) <= B2Q Samples64.d0_03 /\
  B2Q Samples64.d0_03 < Dbl.pow10 (-1) /\
  3 # 2 <= B2Q Samples64.d0_03 / Dbl.pow10 (-2) /\
  B2Q Samples64.d0_03 / Dbl.pow10 (-2) < 3 /\
  Spec.round_to_nice (B2Q Samples64.d0_03) == 2 * Dbl.pow10 (-2) /\
  div Samples64.d0_03 Samples64.d0_01 = three /\
  RoundToNiceValue Samples64.log10 Samples64.pow Samples64.d0_03
  = mul five Samples64.d0_01 /\
  mul five Samples64.d0_01 = Samples64.d0_05 /\
  4 * Dbl.pow10 (-2) < B2Q Samples64.d0_05.
Proof.
  split; [vm_compute; reflexivity|].
  split; [vm_compute; reflexivity|].
  split; [apply Qle_bool_imp_le; vm_compute; reflexivity|].
  split; [apply Qlt_alt; vm_compute; reflexivity|].
  split; [apply Qle_bool_imp_le; vm_compute; reflexivity|].
  split; [apply Qlt_alt; vm_compute; reflexivity|].
  split; [apply Qeq_bool_eq; vm_compute; reflexivity|].
  split; [vm_compute; reflexivity|].
  split; [vm_compute; reflexivity|].
  split; [vm_compute; reflexivity|].
  apply Qlt_alt; vm_compute; reflexivity.
Qed.

(** C4.  In binary64, on non-empty data of at most [2^53] doubles without a
    NaN and for a quantile [q] in [[0, 1]], [GetQuartile] returns: with
    [idx] the double nearest to [q * (n - 1)], [lo = floor idx] and
    [hi = ceil idx], which are ranks of the sorted data, the result is the
    order statistic of rank [lo] when [idx] is integral, and otherwise the
    value of [x_lo * (1 - f) + x_hi * f] with [f = idx - lo], every
    operation rounded to the nearest double.  On [[1; 2; 3; 4]] the
    quartiles are exactly 1.75 and 3.25; on [[5]] every finite [q] gives
    5. *)
Theorem GetQuartile_double_interpolation :
  (forall (data : list double) (q : double),
     data <> [] -> existsb is_nan data = false ->
     (Z.of_nat (List.length data) <= 2 ^ 53)%Z ->
     leb zero q = true -> leb q one = true ->
     let last := (Z.of_nat (List.length data) - 1)%Z in
     let idx := mul q (of_size_t last) in
     exists (sorted : list double) (lo hi : Z) (x_lo x_hi : double),
       sort data = Some sorted /\
       Permutation sorted data /\ Sorted ascends sorted /\
       B2Q idx == rvs (B2Q q * inject_Z last) /\
       lo = Qfloor (B2Q idx) /\ hi = Qceiling (B2Q idx) /\
       (0 <= lo)%Z /\ (hi <= last)%Z /\
       nth_error sorted (Z.to_nat lo) = Some x_lo /\
       nth_error sorted (Z.to_nat hi) = Some x_hi /\
       GetQuartile data q =
       Some (if (lo =? hi)%Z then x_lo
             else
               let fraction := sub idx (of_size_t lo) in
               add (mul x_lo (sub one fraction)) (mul x_hi fraction))) /\
  GetQuartile [one; two; three; Samples64.four] d0_25
  = Some Samples64.d1_75 /\
  GetQuartile [one; two; three; Samples64.four] d0_75
  = Some Samples64.d3_25 /\
  (forall q : double, is_finite q = true -> GetQuartile [five] q = Some five).
Proof.
  split; [|split; [|split]].
  - intros data q Hne N Len L U last idx.
    destruct (GetQuartile_ranked data q Hne N Len L U)
      as (x_lo & x_hi & Iv & F0 & _ & C1 & Nlo & Nhi & G).
    exists (ascending data), (Qfloor (B2Q idx)), (Qceiling (B2Q idx)),
      x_lo, x_hi.
    split; [unfold sort; rewrite N; reflexivity|].
    split; [apply ascending_perm|].
    split; [apply ascending_sorted; exact N|].
    split; [exact Iv|]. split; [reflexivity|]. split; [reflexivity|].
    split; [exact F0|]. split; [exact C1|].
    split; [exact Nlo|]. split; [exact Nhi|]. exact G.
  - vm_compute. reflexivity.
  - vm_compute. reflexivity.
  - intros q F.
    assert (I : exists s, mul q (of_size_t 0) = S754_zero s).
    { change (of_size_t 0) with (S754_zero false).
      destruct q as [s|s| |s m e]; try discriminate F.
      - exists (xorb s false). reflexivity.
      - exists (xorb s false). unfold mul, of_Q.
        assert (E : Qcompare (B2Q (S754_finite s m e)
                              * B2Q (S754_zero false)) 0 = Eq).
        { apply Qeq_alt. cbn [B2Q]. ring. }
        rewrite E. reflexivity. }
    destruct I as [s I].
    unfold GetQuartile.
    change (sort [five]) with (Some [five]). cbv beta iota zeta.
    change (Z.of_nat (List.length [five]) - 1)%Z with 0%Z.
    rewrite I. reflexivity.
Qed.

Lemma GetQuartile_double_interpolation_witness :
  exists r : double,
    GetQuartile [Samples64.four; one; three; two] Samples64.d0_5 = Some r /\
    r = Samples64.d2_5.
Proof.
  destruct (proj1 GetQuartile_double_interpolation
              [Samples64.four; one; three; two] Samples64.d0_5
              ltac:(discriminate) eq_refl ltac:(vm_compute; discriminate)
              eq_refl eq_refl)
    as (sorted & lo & hi & x_lo & x_hi & S & _ & _ & _ & Elo & Ehi & _ & _
        & Nlo & Nhi & G).
  vm_compute in S. injection S as <-.
  vm_compute in Elo. vm_compute in Ehi. subst lo hi.
  vm_compute in Nlo. injection Nlo as <-.
  vm_compute in Nhi. injection Nhi as <-.
  eexists. split; [exact G|]. vm_compute. reflexivity.
Defined.

(** C4, the claim as it was stated fails on two equal samples.  The linear
    interpolation between 0.1 and 0.1 is 0.1 at every rank, which is what
    the exact formula gives; the function returns the next double above
    0.1, because [0.1 * 0.8] and [0.1 * 0.2] are rounded before they are
    added. *)
Lemma quantile_of_equal_samples_exceeds_them :
  GetQuartile [Samples64.d0_1; Samples64.d0_1] Samples64.d0_2
  = Some Samples64.d0_1_next /\
  Spec.quantile [B2Q Samples64.d0_1; B2Q Samples64.d0_1] (B2Q Samples64.d0_2)
  == B2Q Samples64.d0_1 /\
  B2Q Samples64.d0_1 < B2Q Samples64.d0_1_next /\
  add (mul Samples64.d0_1 (sub one Samples64.d0_2))
      (mul Samples64.d0_1 Samples64.d0_2) = Samples64.d0_1_next.
Proof.
  split; [vm_compute; reflexivity|].
  split; [apply Qeq_bool_eq; vm_compute; reflexivity|].
  split; [apply Qlt_alt; vm_compute; reflexivity|].
  vm_compute; reflexivity.
Qed.

End Plot64Theorems.

(** ** Further properties of the plot arithmetic in binary64 *)

Module Plot64Extras.

Import SpecFloat B64 B64Facts Plot64 Plot64Facts.
Local Open Scope Q_scope.

(** X5.  In binary64, on non-empty data of at most [2^53] doubles without a
    NaN, the quantile 0 and the quantile 1 are elements of the data and are
    equal, as doubles, to what [TMath::MinElement] and [TMath::MaxElement]
    return: the axis range of the histogram starts at the quantile 0 and
    ends at the quantile 1. *)
Theorem GetQuartile_double_endpoints (data : list double) :
  data <> [] -> existsb is_nan data = false ->
  (Z.of_nat (List.length data) <= 2 ^ 53)%Z ->
  exists q0 q1 minVal maxVal : double,
    GetQuartile data zero = Some q0 /\ GetQuartile data one = Some q1 /\
    MinElement data = Some minVal /\ MaxElement data = Some maxVal /\
    In q0 data /\ In q1 data /\
    eqb q0 minVal = true /\ eqb q1 maxVal = true.
Proof.
  intros Hne N Len.
  set (last := (Z.of_nat (List.length data) - 1)%Z).
  assert (K : (0 <= last <= 2 ^ 53)%Z).
  { unfold last. destruct data; [congruence | cbn [List.length] in *; lia]. }
  assert (K0 : 0 <= inject_Z last).
  { change 0 with (inject_Z 0). rewrite <- Zle_Qle. lia. }
  pose proof (ascending_sorted data N) as Srt.
  pose proof (ascending_perm data) as Perm.
  pose proof (ascending_no_nan data N) as Ns.
  (* the quantile 0 *)
  destruct (GetQuartile_ranked data zero Hne N Len eq_refl eq_refl)
    as (a & a' & Iv0 & _ & _ & _ & Na & Na' & G0).
  fold last in Iv0, Na, Na', G0.
  assert (V0 : B2Q (mul zero (of_size_t last)) == 0).
  { rewrite Iv0. change (B2Q zero) with 0.
    rewrite rvs_zero; [reflexivity | ring]. }
  rewrite V0 in Na, Na', G0.
  change (Qfloor 0) with 0%Z in Na, G0.
  change (Qceiling 0) with 0%Z in Na', G0.
  change (0 =? 0)%Z with true in G0. cbv iota in G0.
  (* the quantile 1 *)
  destruct (GetQuartile_ranked data one Hne N Len eq_refl eq_refl)
    as (b' & b & Iv1 & _ & _ & _ & Nb' & Nb & G1).
  fold last in Iv1, Nb', Nb, G1.
  assert (V1 : B2Q (mul one (of_size_t last)) == inject_Z last).
  { rewrite Iv1.
    assert (O : B2Q one == 1) by reflexivity.
    assert (E : B2Q one * inject_Z last == inject_Z last)
      by (rewrite O; ring).
    rewrite <- (rvs_Z last K) at 2.
    apply Qle_antisym; apply rvs_mono; rewrite E; apply Qle_refl. }
  rewrite V1 in Nb', Nb, G1.
  rewrite Qfloor_Z in Nb', G1. rewrite Qceiling_Z in Nb, G1.
  rewrite Z.eqb_refl in G1. rewrite Nb' in Nb. injection Nb as <-.
  (* the extremes *)
  destruct data as [|d t]; [congruence|].
  destruct (min_fold t d N) as [Im Am]. cbv zeta in Im, Am.
  destruct (max_fold t d N) as [IM AM]. cbv zeta in IM, AM.
  set (m := fold_left (fun m y => if ltb y m then y else m) t d) in *.
  set (M := fold_left (fun m y => if ltb m y then y else m) t d) in *.
  assert (Ia : In a (d :: t)).
  { apply (Permutation_in _ Perm). apply nth_error_In with (Z.to_nat 0).
    exact Na. }
  assert (Ib : In b' (d :: t)).
  { apply (Permutation_in _ Perm). apply nth_error_In with (Z.to_nat last).
    exact Nb'. }
  exists a, b', m, M.
  split; [exact G0|]. split; [exact G1|].
  split; [reflexivity|]. split; [reflexivity|].
  split; [exact Ia|]. split; [exact Ib|].
  split.
  - apply leb_antisym; [|apply Am; exact Ia].
    apply (Permutation_in _ (Permutation_sym Perm)) in Im.
    destruct (In_nth_error _ _ Im) as [i Ei].
    apply (ascending_bounds (ascending (d :: t)) (Z.to_nat 0) i);
      [exact Srt | cbn; lia | exact Na | exact Ei |].
    apply (no_nan_in (d :: t)); assumption.
  - apply leb_antisym; [apply AM; exact Ib|].
    apply (Permutation_in _ (Permutation_sym Perm)) in IM.
    destruct (In_nth_error _ _ IM) as [i Ei].
    apply (ascending_bounds (ascending (d :: t)) i (Z.to_nat last));
      [exact Srt | | exact Ei | exact Nb' |].
    + assert (B : (i < List.length (ascending (d :: t)))%nat)
        by (apply nth_error_Some; congruence).
      rewrite ascending_length in B. unfold last. lia.
    + apply (no_nan_in (ascending (d :: t))); assumption.
Qed.

Lemma GetQuartile_double_endpoints_witness :
  exists q0 q1 minVal maxVal : double,
    GetQuartile [three; one; Samples64.four; two] zero = Some q0 /\
    GetQuartile [three; one; Samples64.four; two] one = Some q1 /\
    MinElement [three; one; Samples64.four; two] = Some minVal /\
    MaxElement [three; one; Samples64.four; two] = Some maxVal /\
    In q0 [three; one; Samples64.four; two] /\
    In q1 [three; one; Samples64.four; two] /\
    eqb q0 minVal = true /\ eqb q1 maxVal = true.
Proof.
  apply (GetQuartile_double_endpoints [three; one; Samples64.four; two]).
  - discriminate.
  - reflexivity.
  - vm_compute. discriminate.
Defined.

(** X26.  In binary64, [RoundToNiceValue] returns 1 for every [v <= 0],
    the negative zero and the negative infinity included, and whatever [v]
    is, the NaN included, its result is neither negative nor a NaN as long
    as [pow (10.0, k)] is neither.  It can be zero: for the smallest
    positive double [pow (10.0, -324.0)] underflows to 0, which is what the
    fallback [if (binWidth <= 0) binWidth = 1] of the caller catches. *)
Theorem RoundToNiceValue_double_never_negative
    (log10 : double -> double) (pow : double -> double -> double) :
  (forall v : double,
     leb v zero = true -> RoundToNiceValue log10 pow v = one) /\
  (forall v : double,
     leb zero (pow ten (floor (log10 v))) = true ->
     leb zero (RoundToNiceValue log10 pow v) = true).
Proof.
  split.
  - intros v L. unfold RoundToNiceValue. rewrite L. reflexivity.
  - apply RoundToNiceValue_not_negative.
Qed.

Lemma RoundToNiceValue_double_never_negative_witness :
  leb zero (RoundToNiceValue Samples64.log10 Samples64.pow Samples64.d0_03)
  = true /\
  RoundToNiceValue Samples64.log10 Samples64.pow Samples64.smallest = zero.
Proof.
  split.
  - apply (proj2 (RoundToNiceValue_double_never_negative
                    Samples64.log10 Samples64.pow) Samples64.d0_03).
    vm_compute. reflexivity.
  - vm_compute. reflexivity.
Defined.



End Plot64Extras.
